(** * The client-session Agent of lib/agent.js, embedded and verified

    The Agent sits between one client's message stream and the Backend.
    This file embeds [lib/agent.js] function by function: JavaScript
    values as a small inductive type, the Agent object as a record, and
    every side effect of a method (a write on the client stream, a
    [destroy()] on a subscription, a Backend call with its callback) as
    an entry of an effect trace threaded through a state-and-exception
    monad. *)

From Stdlib Require Import ZArith String List Bool Lia.
From stdpp Require Import base option list gmap strings pretty.

Import ListNotations.
#[local] Set Warnings "-register-all".
#[local] Set Warnings "-automation".
#[local] Set Warnings "-notation-overridden".
#[local] Set Warnings "-ambiguous-paths".
Open Scope string_scope.
Open Scope Z_scope.
Open Scope list_scope.

(** ** JavaScript values *)

Module JS.

(** The values that travel on the wire or come back from the Backend.
    Numbers are the protocol's integers (versions, sequence numbers,
    query ids, error codes).  An object is its list of own properties in
    enumeration order.  What an object inherits from [Object.prototype]
    is no value of this type: it shows where the code reads a property
    under a key computed at run time, see [index] below. *)
Inductive jsval : Type :=
| JUndef
| JNull
| JBool (b : bool)
| JNum (n : Z)
| JStr (s : string)
| JArr (items : list jsval)
| JObj (props : list (string * jsval)).

(** [typeof v] *)
Definition typeof (v : jsval) : string :=
  match v with
  | JUndef => "undefined"
  | JNull => "object"
  | JBool _ => "boolean"
  | JNum _ => "number"
  | JStr _ => "string"
  | JArr _ => "object"
  | JObj _ => "object"
  end.

(** ToBoolean: what [if (v)], [!v] and [v || w] test. *)
Definition truthy (v : jsval) : bool :=
  match v with
  | JUndef | JNull => false
  | JBool b => b
  | JNum n => negb (n =? 0)
  | JStr s => negb (String.eqb s "")
  | JArr _ | JObj _ => true
  end.

(** [v == null] *)
Definition nullish (v : jsval) : bool :=
  match v with
  | JUndef | JNull => true
  | _ => false
  end.

(** [a || b] *)
Definition js_or (a b : jsval) : jsval := if truthy a then a else b.

(** [a === b].  Objects and arrays compare by reference, which a value
    does not show: two object values met at a comparison site are taken
    to be distinct references.  The sites of the Agent compare against
    a string, a number or [null], but for [lastType !== result.type] in
    [getResultsData], where both sides come from the Backend: there the
    types are taken to be names, not objects. *)
Definition strict_eq (a b : jsval) : bool :=
  match a, b with
  | JUndef, JUndef => true
  | JNull, JNull => true
  | JBool x, JBool y => Bool.eqb x y
  | JNum x, JNum y => (x =? y)
  | JStr x, JStr y => String.eqb x y
  | _, _ => false
  end.

(** Own-property lookup in a property list. *)
Fixpoint assoc (k : string) (props : list (string * jsval)) : option jsval :=
  match props with
  | [] => None
  | (k', v) :: rest => if String.eqb k' k then Some v else assoc k rest
  end.

(** The position named by an array-index key ["0"], ["1"], ... *)
Definition index_of_key (k : string) (len : nat) : option nat :=
  find (fun i => String.eqb (pretty i) k) (seq 0 len).

Definition chars (s : string) : list jsval :=
  map (fun c => JStr (String c EmptyString)) (list_ascii_of_string s).

(** [v.k], the own property called [k], for a receiver that is not
    [null] or [undefined].  The keys the source spells out ([a], [c],
    [d], [id], [v], [src], [seq], ...) are no members of
    [Object.prototype], so for them this is all of [v.k]; a key
    computed at run time goes through [index]. *)
Definition get_prop (v : jsval) (k : string) : jsval :=
  match v with
  | JObj props => default JUndef (assoc k props)
  | JArr items =>
      if String.eqb k "length" then JNum (Z.of_nat (length items))
      else match index_of_key k (length items) with
           | Some i => nth i items JUndef
           | None => JUndef
           end
  | JStr s =>
      if String.eqb k "length" then JNum (Z.of_nat (String.length s))
      else match index_of_key k (String.length s) with
           | Some i => nth i (chars s) JUndef
           | None => JUndef
           end
  | _ => JUndef
  end.

(** [k in props] as an own property. *)
Definition has_prop (v : jsval) (k : string) : bool :=
  match v with
  | JObj props => bool_decide (is_Some (assoc k props))
  | _ => false
  end.

Fixpoint assoc_set (k : string) (x : jsval) (props : list (string * jsval))
  : list (string * jsval) :=
  match props with
  | [] => [(k, x)]
  | (k', v) :: rest =>
      if String.eqb k' k then (k', x) :: rest else (k', v) :: assoc_set k x rest
  end.

(** [v[k] = x]: an existing property keeps its place, a new one is
    appended; on a primitive the assignment is silently lost (the file
    is not in strict mode).  The Agent never assigns into an array. *)
Definition set_prop (v : jsval) (k : string) (x : jsval) : jsval :=
  match v with
  | JObj props => JObj (assoc_set k x props)
  | _ => v
  end.

(** The keys [for (k in v)] visits. *)
Definition for_in_keys (v : jsval) : list string :=
  match v with
  | JObj props => map fst props
  | JArr items => map pretty (seq 0 (length items))
  | JStr s => map pretty (seq 0 (String.length s))
  | _ => []
  end.

Definition join_comma (parts : list string) : string :=
  match parts with
  | [] => ""
  | p :: rest => fold_left (fun acc q => acc +:+ "," +:+ q) rest p
  end.

(** ToString, as applied to a value used as a property key. *)
Fixpoint to_key (v : jsval) : string :=
  match v with
  | JUndef => "undefined"
  | JNull => "null"
  | JBool true => "true"
  | JBool false => "false"
  | JNum n => pretty n
  | JStr s => s
  | JArr items =>
      join_comma (map (fun x => if nullish x then "" else to_key x) items)
  | JObj _ => "[object Object]"
  end.

(** The names every plain object answers to through its prototype:
    the members of [Object.prototype] of an engine that nothing has
    been added to. *)
Definition Object_prototype : list string :=
  ["constructor"; "__proto__"; "hasOwnProperty"; "isPrototypeOf";
   "propertyIsEnumerable"; "toLocaleString"; "toString"; "valueOf";
   "__defineGetter__"; "__defineSetter__"; "__lookupGetter__"; "__lookupSetter__"].

Definition inherited (k : string) : bool := existsb (String.eqb k) Object_prototype.

(** What [object[k]] finds for a key computed at run time: an own
    property; or, for want of one, the member of [Object.prototype] of
    that name (a built-in function, or [Object.prototype] itself under
    ["__proto__"]: truthy, not [null], with no [destroy] method and no
    value of the wire); or nothing, which reads as [undefined]. *)
Inductive member (A : Type) : Type :=
| Own (a : A)
| Inherited
| Missing.
Arguments Own {A} a.
Arguments Inherited {A}.
Arguments Missing {A}.

(** [v[k]] for a key computed at run time and a receiver that is not
    [null] or [undefined].  The receivers the Agent indexes this way
    are plain objects; the further members an array, a string, a
    number or a boolean inherits from its own prototype are not
    listed. *)
Definition index (v : jsval) (k : string) : member jsval :=
  match v with
  | JObj props =>
      match assoc k props with
      | Some x => Own x
      | None => if inherited k then Inherited else Missing
      end
  | JArr items =>
      if String.eqb k "length" || bool_decide (is_Some (index_of_key k (length items)))
      then Own (get_prop v k)
      else if inherited k then Inherited else Missing
  | JStr text =>
      if String.eqb k "length" || bool_decide (is_Some (index_of_key k (String.length text)))
      then Own (get_prop v k)
      else if inherited k then Inherited else Missing
  | JBool _ | JNum _ => if inherited k then Inherited else Missing
  | JUndef | JNull => Missing
  end.

(** [object[k] == null] *)
Definition found_nullish (m : member jsval) : bool :=
  match m with
  | Own x => nullish x
  | Inherited => false
  | Missing => true
  end.

(** ToBoolean of [object[k]] *)
Definition found_truthy (m : member jsval) : bool :=
  match m with
  | Own x => truthy x
  | Inherited => true
  | Missing => false
  end.

(** [v[k] = x] for a key computed at run time.  ["__proto__"], unless
    it is an own property, is an accessor of [Object.prototype]: the
    assignment changes what [v] inherits from (or nothing, when [x] is
    no object), and never the own properties of [v]. *)
Definition assign (v : jsval) (k : string) (x : jsval) : jsval :=
  if String.eqb k "__proto__" && negb (has_prop v k) then v else set_prop v k x.

End JS.
Export JS.

(** ** Agent state, effects and the method monad *)

(** A DocStream or QueryEmitter object handed out by the Backend. *)
Definition handle : Type := nat.

(** The members of a QueryEmitter the Agent reads. *)
Record emitter : Type := mkEmitter {
  em_handle : handle;
  em_index : jsval;
  em_options : jsval
}.

(** One row of a query result: a snapshot [{id, v, type, data}]. *)
Record row : Type := mkRow {
  r_id : jsval;
  r_v : jsval;
  r_type : jsval;
  r_data : jsval
}.

(** The Backend operations the Agent invokes, with their arguments
    (the Agent itself, always the first argument, is left out). *)
Inductive backend_call : Type :=
| CallSubscribe (collection id version : jsval)
| CallSubscribeBulk (collection versions : jsval)
| CallFetch (collection id : jsval)
| CallGetOps (collection id version : jsval)
| CallGetOpsBulk (collection request : jsval)
| CallSubmit (collection id op : jsval)
| CallQuerySubscribe (collection query options : jsval)
| CallQueryResubscribe (index query : jsval) (em : emitter) (options : jsval)
| CallQueryFetch (collection query options : jsval).

(** The callbacks the Agent leaves behind, one constructor per function
    expression of the source, holding the variables it closes over. *)
Inductive continuation : Type :=
| KSubscribe (req : jsval)
| KBulkEach (bulk : nat) (collection : jsval)
| KFetch (req : jsval)
| KGetOps (req : jsval)
| KSubmit (req op : jsval)
| KQuerySubscribe (req options : jsval)
| KQueryResubscribe (req : jsval)
| KQueryFetch (req options : jsval)
| KGetOpsBulk (req collection res : jsval)
| KReply (req : jsval)
| KPump.

Inductive effect : Type :=
| Write (msg : jsval)                       (* stream.write(msg) *)
| EmitError (err : jsval)                   (* stream.emit('error', err) *)
| EndStream                                 (* stream.end() *)
| OnceReadable                              (* stream.once('readable', pump) *)
| RemoveReadable                            (* stream.removeAllListeners('readable') *)
| DestroyStream (h : handle)                (* a DocStream's destroy() *)
| DestroyEmitter (h : handle)               (* a QueryEmitter's destroy() *)
| Backend (c : backend_call) (k : continuation)
| NextTick (k : continuation)               (* process.nextTick(k) *)
| ConsoleWarn (what : jsval)
| ConsoleError (what : jsval).

(** The variables one [_bulkSubscribe] call and its [async.forEachOf]
    close over: the request, the [response] object, the number of
    iteratee calls still running and whether the final callback has
    been called. *)
Record bulk : Type := mkBulk {
  bk_req : jsval;
  bk_response : jsval;
  bk_running : nat;
  bk_called : bool
}.

Record Agent : Type := mkAgent {
  clientId : string;
  closed : bool;
  subscribedDocs : gmap string (gmap string handle);
  subscribedQueries : gmap string emitter;
  (* not a property of the object: the closures of the bulk subscribes
     in flight, in the order they were started *)
  bulks : list bulk
}.

Definition set_closed (b : bool) (ag : Agent) : Agent :=
  mkAgent (clientId ag) b (subscribedDocs ag) (subscribedQueries ag) (bulks ag).
Definition set_subscribedDocs (m : gmap string (gmap string handle)) (ag : Agent) : Agent :=
  mkAgent (clientId ag) (closed ag) m (subscribedQueries ag) (bulks ag).
Definition set_subscribedQueries (m : gmap string emitter) (ag : Agent) : Agent :=
  mkAgent (clientId ag) (closed ag) (subscribedDocs ag) m (bulks ag).
Definition set_bulks (l : list bulk) (ag : Agent) : Agent :=
  mkAgent (clientId ag) (closed ag) (subscribedDocs ag) (subscribedQueries ag) l.

(** How a method call ends: normally, or by an exception that unwinds
    to the caller of the event handler.  [Beyond] is where this model
    stops following the code: the call has taken a built-in object of
    the engine for one of the Agent's maps (see [_subscribeToStream])
    and goes on reading and writing the properties of that object,
    which belongs to the whole process and not to the Agent.  Nothing
    is said about what the call does from there on. *)
Inductive outcome (A : Type) : Type :=
| Normal (a : A)
| Thrown (e : jsval)
| Beyond.
Arguments Normal {A} a.
Arguments Thrown {A} e.
Arguments Beyond {A}.

(** A method body: from the Agent before to the outcome, the Agent
    after and the effects performed, in order. *)
Definition M (A : Type) : Type := Agent -> outcome A * Agent * list effect.

#[global] Instance M_ret : MRet M := fun A a ag => (Normal a, ag, []).

#[global] Instance M_bind : MBind M := fun A B f m ag =>
  match m ag with
  | (Normal a, ag1, t1) =>
      match f a ag1 with
      | (o, ag2, t2) => (o, ag2, t1 ++ t2)
      end
  | (Thrown e, ag1, t1) => (Thrown e, ag1, t1)
  | (Beyond, ag1, t1) => (Beyond, ag1, t1)
  end.

Definition get : M Agent := fun ag => (Normal ag, ag, []).
Definition modify (f : Agent -> Agent) : M unit := fun ag => (Normal tt, f ag, []).
Definition emit (e : effect) : M unit := fun ag => (Normal tt, ag, [e]).
Definition throw {A : Type} (e : jsval) : M A := fun ag => (Thrown e, ag, []).
Definition beyond {A : Type} : M A := fun ag => (Beyond, ag, []).
Definition skip : M unit := mret tt.

Definition TypeError : jsval := JStr "TypeError".

(** Reading a property of [null] or [undefined] throws. *)
Definition deref (v : jsval) : M unit :=
  if nullish v then throw TypeError else skip.

Fixpoint for_each {A : Type} (l : list A) (body : A -> M unit) : M unit :=
  match l with
  | [] => skip
  | x :: rest => body x ;; for_each rest body
  end.

Definition effects_of {A : Type} (r : outcome A * Agent * list effect) : list effect := snd r.
Definition agent_of {A : Type} (r : outcome A * Agent * list effect) : Agent := snd (fst r).
Definition outcome_of {A : Type} (r : outcome A * Agent * list effect) : outcome A := fst (fst r).

(** ** The methods of the Agent *)

Definition _send (msg : jsval) : M unit :=
  ag ← get;
  if closed ag then skip else emit (Write msg).

Definition _sendOp (collection id op : jsval) : M unit :=
  deref op ;;
  let msg := JObj [("a", JStr "op"); ("c", collection); ("d", id);
                   ("v", get_prop op "v"); ("src", get_prop op "src");
                   ("seq", get_prop op "seq")] in
  let msg := if truthy (get_prop op "op") then set_prop msg "op" (get_prop op "op") else msg in
  let msg := if truthy (get_prop op "create") then set_prop msg "create" (get_prop op "create") else msg in
  let msg := if truthy (get_prop op "del") then set_prop msg "del" (JBool true) else msg in
  _send msg.

Definition _reply (req err msg : jsval) : M unit :=
  let msg := if truthy err then JObj [("error", err)] else js_or msg (JObj []) in
  let msg := set_prop msg "a" (get_prop req "a") in
  let msg := if truthy (get_prop req "c") then set_prop msg "c" (get_prop req "c") else msg in
  let msg := if truthy (get_prop req "d") then set_prop msg "d" (get_prop req "d") else msg in
  let msg := if truthy (get_prop req "id") then set_prop msg "id" (get_prop req "id") else msg in
  _send msg.

Definition _isOwnOp (ag : Agent) (collection op : jsval) : bool :=
  strict_eq (JStr (clientId ag)) (get_prop op "src")
  && strict_eq collection (js_or (get_prop op "i") (get_prop op "c")).

(** Modelled from the spec: [util.hasKeys] of [lib/util.js], which is
    not among the sources; invariant 5 of the data model removes the
    outer entry "when that inner mapping becomes empty", so [hasKeys]
    tells whether the object has at least one key. *)
Definition hasKeys (streams : gmap string handle) : bool :=
  negb (bool_decide (streams = ∅)).

(** The stream registered for a document: the own entry of the
    two-level map. *)
Definition lookup_doc (ag : Agent) (collection id : string) : option handle :=
  subscribedDocs ag !! collection ≫= fun docs => docs !! id.

(** [map[k]] on one of the Agent's maps, which are plain objects. *)
Definition entry {A : Type} (map : gmap string A) (k : string) : member A :=
  match map !! k with
  | Some a => Own a
  | None => if inherited k then Inherited else Missing
  end.

(** [this.subscribedDocs[collection]] is read through the prototype
    chain, and so is [streams[id]].  For an id that names a member of
    [Object.prototype], [previous] is that member, and
    [previous.destroy()] throws a TypeError (the empty map made for a
    new collection stays behind).  For a collection that does,
    [streams] is a built-in object of the engine, and the stream is
    looked up and stored there and not in the Agent. *)
Definition _subscribeToStream (collection id : jsval) (stream : handle) : M unit :=
  ag ← get;
  if closed ag then emit (DestroyStream stream)
  else
    let install (streams : gmap string handle) : M unit :=
      match entry streams (to_key id) with
      | Own previous => emit (DestroyStream previous)
      | Inherited => throw TypeError
      | Missing => skip
      end ;;
      modify (set_subscribedDocs
                (<[to_key collection := <[to_key id := stream]> streams]>
                   (subscribedDocs ag))) in
    match entry (subscribedDocs ag) (to_key collection) with
    | Own streams => install streams
    | Missing =>
        modify (set_subscribedDocs (<[to_key collection := ∅]> (subscribedDocs ag))) ;;
        install ∅
    | Inherited => beyond
    end.

(** The ['data'] listener [_subscribeToStream] puts on the stream. *)
Definition onStreamData (collection id data : jsval) : M unit :=
  deref data ;;
  if truthy (get_prop data "error") then emit (ConsoleError (get_prop data "error"))
  else
    ag ← get;
    if _isOwnOp ag collection data then skip
    else _sendOp collection id data.

(** The ['end'] listener [_subscribeToStream] puts on the stream. *)
Definition onStreamEnd (collection id : jsval) : M unit :=
  ag ← get;
  match subscribedDocs ag !! to_key collection with
  | None => skip
  | Some streams =>
      let streams := delete (to_key id) streams in
      if hasKeys streams
      then modify (set_subscribedDocs (<[to_key collection := streams]> (subscribedDocs ag)))
      else modify (set_subscribedDocs (delete (to_key collection) (subscribedDocs ag)))
  end.

Definition row_of (v : jsval) : row :=
  mkRow (get_prop v "id") (get_prop v "v") (get_prop v "type") (get_prop v "data").

Definition rows_of (v : jsval) : list row :=
  match v with
  | JArr items => map row_of items
  | _ => []
  end.

(** [versions[result.id]] is read through the prototype chain. *)
Fixpoint getResultsData_from (lastType : jsval) (results : list row) (versions : jsval)
  : list jsval :=
  match results with
  | [] => []
  | result :: rest =>
      let item := JObj [("d", r_id result); ("v", r_v result)] in
      let fresh := negb (strict_eq lastType (r_type result)) in
      let item := if fresh then set_prop item "type" (r_type result) else item in
      let lastType := if fresh then r_type result else lastType in
      let item :=
        if negb (truthy versions) || found_nullish (index versions (to_key (r_id result)))
        then set_prop item "data" (r_data result)
        else item in
      item :: getResultsData_from lastType rest versions
  end.

Definition getResultsData (results : list row) (versions : jsval) : list jsval :=
  getResultsData_from JNull results versions.

Definition _subscribeToQuery (em : emitter) (queryId collection query : jsval) : M unit :=
  ag ← get;
  if closed ag then emit (DestroyEmitter (em_handle em))
  else
    match subscribedQueries ag !! to_key queryId with
    | Some previous => emit (DestroyEmitter (em_handle previous))
    | None => skip
    end ;;
    modify (set_subscribedQueries (<[to_key queryId := em]> (subscribedQueries ag))).

(** The four hooks [_subscribeToQuery] installs on the emitter. *)
Definition onExtra (queryId extra : jsval) : M unit :=
  _send (JObj [("a", JStr "q"); ("id", queryId); ("extra", extra)]).

Definition onDiff (queryId : jsval) (diff : list jsval) : M unit :=
  for_each diff deref ;;
  let diff :=
    map (fun item =>
           if strict_eq (get_prop item "type") (JStr "insert")
           then set_prop item "values"
                  (JArr (getResultsData (rows_of (get_prop item "values")) JUndef))
           else item) diff in
  _send (JObj [("a", JStr "q"); ("id", queryId); ("diff", JArr diff)]).

Definition onError (collection query err : jsval) : M unit :=
  emit (ConsoleError err).

Definition onOp (collection op : jsval) : M unit :=
  deref op ;;
  let id := get_prop op "d" in
  ag ← get;
  if _isOwnOp ag collection op then skip
  else _sendOp collection id op.

Definition _cleanup : M unit :=
  ag ← get;
  if closed ag then skip
  else
    modify (set_closed true) ;;
    emit RemoveReadable ;;
    for_each (map_to_list (subscribedDocs ag)) (fun entry =>
      for_each (map_to_list (snd entry)) (fun doc => emit (DestroyStream (snd doc)))) ;;
    modify (set_subscribedDocs ∅) ;;
    for_each (map_to_list (subscribedQueries ag)) (fun q =>
      emit (DestroyEmitter (em_handle (snd q)))) ;;
    modify (set_subscribedQueries ∅).

Definition is_action (req : jsval) (a : string) : bool :=
  strict_eq (get_prop req "a") (JStr a).

Definition is_typeof (v : jsval) (t : string) : bool := String.eqb (typeof v) t.

(** [v < 0] on a value already known to be a number. *)
Definition negative (v : jsval) : bool :=
  match v with
  | JNum n => n <? 0
  | _ => false
  end.

(** The error message, or [undefined] for a valid request; [req] is not
    [null] or [undefined]. *)
Definition _checkRequest (req : jsval) : jsval :=
  if is_action req "qsub" || is_action req "qfetch"
     || is_action req "qunsub" || is_action req "qresub" then
    if negb (is_typeof (get_prop req "id") "number") then JStr "Missing query ID"
    else JUndef
  else if is_action req "op" || is_action req "sub"
          || is_action req "unsub" || is_action req "fetch" then
    if negb (nullish (get_prop req "c")) && negb (is_typeof (get_prop req "c") "string")
    then JStr "Invalid collection"
    else if negb (nullish (get_prop req "d")) && negb (is_typeof (get_prop req "d") "string")
    then JStr "Invalid id"
    else if is_action req "op"
            && (negb (nullish (get_prop req "v"))
                && (negb (is_typeof (get_prop req "v") "number") || negative (get_prop req "v")))
    then JStr "Invalid version"
    else JUndef
  else if is_action req "bs" then
    if negb (is_typeof (get_prop req "s") "object") then JStr "Invalid bulk subscribe data"
    else JUndef
  else JStr "Invalid action".

Definition getQueryOptions (req : jsval) : jsval :=
  JObj [("versions", get_prop req "vs"); ("db", get_prop req "db")].

Definition CreateOp (src seq v create : jsval) : jsval :=
  JObj [("src", src); ("seq", seq); ("v", v); ("create", create); ("m", JNull)].
Definition EditOp (src seq v op : jsval) : jsval :=
  JObj [("src", src); ("seq", seq); ("v", v); ("op", op); ("m", JNull)].
Definition DeleteOp (src seq v del : jsval) : jsval :=
  JObj [("src", src); ("seq", seq); ("v", v); ("del", del); ("m", JNull)].

Definition _createOp (ag : Agent) (req : jsval) : jsval :=
  let src := js_or (get_prop req "src") (JStr (clientId ag)) in
  if truthy (get_prop req "op") then
    EditOp src (get_prop req "seq") (get_prop req "v") (get_prop req "op")
  else if truthy (get_prop req "create") then
    CreateOp src (get_prop req "seq") (get_prop req "v") (get_prop req "create")
  else if truthy (get_prop req "del") then
    DeleteOp src (get_prop req "seq") (get_prop req "v") (get_prop req "del")
  else JUndef.

Definition SyntaxError (message : string) : jsval :=
  JObj [("name", JStr "SyntaxError"); ("message", JStr message)].

(** What the Agent takes from its surroundings: the engine's
    [JSON.parse] (the parsed value, or the message of the SyntaxError it
    throws); the engine's [>] where an operand is not a number and is
    coerced; whether the transport's [end()] emits ['end'] before it
    returns or later; whether anyone listens to ['error'] on the client
    stream; and, when nobody does, what [emit('error', err)] throws:
    [err] itself when it is an Error, as the SyntaxError of
    [JSON.parse] is, and otherwise a new Error that the engine makes
    around it. *)
Record host : Type := mkHost {
  JSON_parse : string -> jsval + string;
  coerced_gt : jsval -> jsval -> bool;
  end_emits_now : bool;
  has_error_listener : bool;
  unhandled : jsval -> jsval;
  unhandled_Error : forall message, unhandled (SyntaxError message) = SyntaxError message
}.

Section WithHost.

Variable H : host.

(** [a > b]: on two numbers their order, on anything else what the
    engine's coercions make of it. *)
Definition js_gt (a b : jsval) : bool :=
  match a, b with
  | JNum x, JNum y => x >? y
  | _, _ => coerced_gt H a b
  end.

(** [from] is [versions[result.id]], read through the prototype chain.
    Where it is a member of [Object.prototype], it is not [null], and
    [result.v > from] sets a version against a number that is NaN: the
    result adds nothing ([result.v] is a version number; another
    operand is not followed here). *)
Fixpoint getResultsOpsRequest_from (request : jsval) (results : list row) (versions : jsval)
  : jsval :=
  match results with
  | [] => request
  | result :: rest =>
      let request :=
        match index versions (to_key (r_id result)) with
        | Own from =>
            if negb (nullish from) && js_gt (r_v result) from
            then assign (if truthy request then request else JObj [])
                        (to_key (r_id result)) from
            else request
        | Inherited | Missing => request
        end in
      getResultsOpsRequest_from request rest versions
  end.

Definition getResultsOpsRequest (results : list row) (versions : jsval) : jsval :=
  if negb (truthy versions) then JUndef
  else getResultsOpsRequest_from JUndef results versions.

Definition _sendQueryResults (req queryId collection options : jsval)
    (results : list row) (extra : jsval) : M unit :=
  let versions := get_prop options "versions" in
  let data := getResultsData results versions in
  let res := JObj [("id", queryId); ("data", JArr data); ("extra", extra)] in
  let opsRequest := getResultsOpsRequest results versions in
  if negb (truthy opsRequest) then _reply req JNull res
  else emit (Backend (CallGetOpsBulk collection opsRequest) (KGetOpsBulk req collection res)).

(** The callback [_sendQueryResults] gives to [getOpsBulk]. *)
Definition onGetOpsBulk (req collection res err : jsval)
    (results : list (string * list jsval)) : M unit :=
  if truthy err then _reply req err JUndef
  else
    for_each results (fun entry =>
      for_each (snd entry) (fun op => _sendOp collection (JStr (fst entry)) op)) ;;
    _reply req JNull res.

Definition _queryResubscribe (req : jsval) : M unit :=
  let queryId := get_prop req "id" in
  let query := get_prop req "q" in
  ag ← get;
  match subscribedQueries ag !! to_key queryId with
  | None => _reply req (JObj [("message", JStr "Can not find query to resubscribe")]) JUndef
  | Some em =>
      emit (Backend (CallQueryResubscribe (em_index em) query em (em_options em))
                    (KQueryResubscribe req))
  end.

Definition onQueryResubscribe (req err : jsval) : M unit :=
  if truthy err then _reply req err JUndef
  else emit (NextTick (KReply req)).

Definition _querySubscribe (req : jsval) : M unit :=
  let options := getQueryOptions req in
  emit (Backend (CallQuerySubscribe (get_prop req "c") (get_prop req "q") options)
                (KQuerySubscribe req options)).

Definition onQuerySubscribe (req options err : jsval) (em : emitter)
    (results : list row) (extra : jsval) : M unit :=
  if truthy err then _reply req err JUndef
  else
    _subscribeToQuery em (get_prop req "id") (get_prop req "c") (get_prop req "q") ;;
    _sendQueryResults req (get_prop req "id") (get_prop req "c") options results extra.

Definition _queryUnsubscribe (req : jsval) : M unit :=
  let queryId := get_prop req "id" in
  ag ← get;
  match subscribedQueries ag !! to_key queryId with
  | Some em =>
      emit (DestroyEmitter (em_handle em)) ;;
      modify (set_subscribedQueries (delete (to_key queryId) (subscribedQueries ag)))
  | None => skip
  end ;;
  emit (NextTick (KReply req)).

Definition _queryFetch (req : jsval) : M unit :=
  let options := getQueryOptions req in
  emit (Backend (CallQueryFetch (get_prop req "c") (get_prop req "q") options)
                (KQueryFetch req options)).

Definition onQueryFetch (req options err : jsval) (results : list row) (extra : jsval)
  : M unit :=
  if truthy err then _reply req err JUndef
  else _sendQueryResults req (get_prop req "id") (get_prop req "c") options results extra.

(** The final callback [_bulkSubscribe] gives to [async.forEachOf].
    The sweep reads [agent.subscribedDocs[collection]] and [docs[id]]
    through the prototype chain: where [docs[id]] is a member of
    [Object.prototype], [stream.destroy()] throws a TypeError before
    [callback(err)] is reached. *)
Definition onBulkFinal (req response err : jsval) : M unit :=
  if truthy err then
    let request := get_prop req "s" in
    ag ← get;
    for_each (for_in_keys request) (fun collection =>
      match entry (subscribedDocs ag) collection with
      | Missing => skip
      | Own docs =>
          for_each (for_in_keys (get_prop request collection)) (fun id =>
            match entry docs id with
            | Own stream => emit (DestroyStream stream)
            | Inherited => throw TypeError
            | Missing => skip
            end)
      | Inherited =>
          for_each (for_in_keys (get_prop request collection)) (fun id => beyond)
      end) ;;
    _reply req err JUndef
  else _reply req JNull (JObj [("s", response)]).

(** Modelled from the spec: [async.forEachOf] of the [async] package,
    a dependency that is not among the sources.  Section 4.6 has all
    collections processed concurrently, the reply sent when all have
    completed without error, and the first error surfaced otherwise:
    [forEachOf(object, iteratee, callback)] calls the iteratee once for
    every key of [object] (the elements of an array under their numeric
    index, nothing for [null]), all of them at once, and calls
    [callback] once, with the first error an iteratee reports, or
    without one when every iteratee has reported. *)
Definition forEachOf_entries (object : jsval) : list (jsval * jsval) :=
  match object with
  | JObj props => map (fun kv => (JStr (fst kv), snd kv)) props
  | JArr items => imap (fun i x => (JNum (Z.of_nat i), x)) items
  | _ => []
  end.

(** Modelled from the spec: [eachCb(err)], the function [forEachOf]
    hands to each iteratee, here the report of one iteratee of bulk
    subscribe [b]; the final callback is called on the first error or
    on the last report, and never twice. *)
Definition eachCb (b : nat) (err : jsval) : M unit :=
  ag ← get;
  match bulks ag !! b with
  | None => skip
  | Some bk =>
      let running := pred (bk_running bk) in
      let finished := orb (truthy err) (Nat.eqb running 0) in
      modify (set_bulks (<[b := mkBulk (bk_req bk) (bk_response bk) running
                                       (orb (bk_called bk) finished)]> (bulks ag))) ;;
      if finished && negb (bk_called bk)
      then onBulkFinal (bk_req bk) (bk_response bk) (if truthy err then err else JNull)
      else skip
  end.

Definition thumbs_up (streams : list (string * handle)) (snapshotMap : jsval) : jsval :=
  fold_left (fun sm entry =>
               if found_truthy (index sm (fst entry)) then sm
               else set_prop sm (fst entry) (JBool true))
            streams snapshotMap.

(** The callback the iteratee of [_bulkSubscribe] gives to
    [subscribeBulk]. *)
Definition onSubscribeBulk (b : nat) (collection err : jsval)
    (streams : list (string * handle)) (snapshotMap : jsval) : M unit :=
  if truthy err then eachCb b err
  else
    for_each streams (fun entry =>
      _subscribeToStream collection (JStr (fst entry)) (snd entry) ;;
      deref snapshotMap) ;;
    modify (fun ag =>
      match bulks ag !! b with
      | None => ag
      | Some bk =>
          set_bulks (<[b := mkBulk (bk_req bk)
                              (assign (bk_response bk) (to_key collection)
                                      (thumbs_up streams snapshotMap))
                              (bk_running bk) (bk_called bk)]> (bulks ag)) ag
      end) ;;
    eachCb b JUndef.

Definition _bulkSubscribe (req : jsval) : M unit :=
  let request := get_prop req "s" in
  let entries := forEachOf_entries request in
  ag ← get;
  let b := length (bulks ag) in
  modify (set_bulks (bulks ag ++ [mkBulk req (JObj []) (length entries)
                                          (bool_decide (entries = []))])) ;;
  for_each entries (fun entry =>
    emit (Backend (CallSubscribeBulk (fst entry) (snd entry))
                  (KBulkEach b (fst entry)))) ;;
  if bool_decide (entries = []) then onBulkFinal req (JObj []) JNull else skip.

Definition _subscribe (req : jsval) : M unit :=
  emit (Backend (CallSubscribe (get_prop req "c") (get_prop req "d") (get_prop req "v"))
                (KSubscribe req)).

Definition onSubscribe (req err : jsval) (stream : handle) (data : jsval) : M unit :=
  if truthy err then _reply req err JUndef
  else
    _subscribeToStream (get_prop req "c") (get_prop req "d") stream ;;
    if truthy data then _reply req JNull (JObj [("data", data)])
    else _reply req JUndef JUndef.

(** [docs && docs[id]], both read through the prototype chain. *)
Definition _unsubscribe (req : jsval) : M unit :=
  ag ← get;
  match entry (subscribedDocs ag) (to_key (get_prop req "c")) with
  | Own docs =>
      match entry docs (to_key (get_prop req "d")) with
      | Own stream => emit (DestroyStream stream)
      | Inherited => throw TypeError
      | Missing => skip
      end
  | Inherited => beyond
  | Missing => skip
  end ;;
  emit (NextTick (KReply req)).

Definition _fetch (req : jsval) : M unit :=
  let collection := get_prop req "c" in
  let id := get_prop req "d" in
  let version := get_prop req "v" in
  if nullish version then emit (Backend (CallFetch collection id) (KFetch req))
  else emit (Backend (CallGetOps collection id version) (KGetOps req)).

Definition onFetch (req err data : jsval) : M unit :=
  if truthy err then _reply req err JUndef
  else _reply req JNull (JObj [("data", data)]).

Definition onGetOps (req err : jsval) (results : list jsval) : M unit :=
  if truthy err then _reply req err JUndef
  else
    for_each results (fun op => _sendOp (get_prop req "c") (get_prop req "d") op) ;;
    _reply req JUndef JUndef.

Definition _submit (req : jsval) : M unit :=
  ag ← get;
  let op := _createOp ag req in
  emit (Backend (CallSubmit (get_prop req "c") (get_prop req "d") op) (KSubmit req op)).

(** The callback [_submit] gives to [Backend.submit].  [op] is the
    object [_createOp] made as the Backend has left it: the Backend
    holds the same object and may have set its version. *)
Definition onSubmit (req op err : jsval) (ops : list jsval) : M unit :=
  deref op ;;
  let ack := JObj [("src", get_prop op "src"); ("seq", get_prop op "seq");
                   ("v", get_prop op "v")] in
  if truthy err then
    if strict_eq (get_prop err "code") (JNum 4001) then _reply req JNull ack
    else _reply req err JUndef
  else
    for_each ops (fun o => _sendOp (get_prop req "c") (get_prop req "d") o) ;;
    _reply req JNull ack.

Definition _handleMessage (req : jsval) : M unit :=
  deref req ;;
  let errMessage := _checkRequest req in
  if truthy errMessage
  then _reply req (JObj [("code", JNum 4000); ("message", errMessage)]) JUndef
  else if is_action req "qsub" then _querySubscribe req
  else if is_action req "qresub" then _queryResubscribe req
  else if is_action req "qunsub" then _queryUnsubscribe req
  else if is_action req "qfetch" then _queryFetch req
  else if is_action req "bs" then _bulkSubscribe req
  else if is_action req "sub" then _subscribe req
  else if is_action req "unsub" then _unsubscribe req
  else if is_action req "fetch" then _fetch req
  else if is_action req "op" then _submit req
  else _reply req (JObj [("code", JNum 4000); ("message", JStr "Invalid or unknown message")])
              JUndef.

Definition close (err : jsval) : M unit :=
  (if truthy err then
     emit (ConsoleWarn err) ;;
     emit (EmitError err) ;;
     if has_error_listener H then skip else throw (unhandled H err)
   else skip) ;;
  ag ← get;
  if closed ag then skip
  else
    emit EndStream ;;
    if end_emits_now H then _cleanup else skip.

(** One run of [pump], [read] being what [this.stream.read()] returns. *)
Definition pump (read : jsval) : M unit :=
  ag ← get;
  if closed ag then skip
  else if nullish read then emit OnceReadable
  else
    req ← match read with
          | JStr text =>
              match JSON_parse H text with
              | inl parsed => mret parsed
              | inr message =>
                  emit (ConsoleWarn (SyntaxError message)) ;;
                  close (SyntaxError message) ;;
                  mret read
              end
          | _ => mret read
          end;
    _handleMessage req ;;
    emit (NextTick KPump).

(** What the Backend passes to a callback: [(err, ...)]. *)
Inductive answer : Type :=
| AnsSubscribe (err : jsval) (stream : handle) (data : jsval)
| AnsSubscribeBulk (err : jsval) (streams : list (string * handle)) (snapshotMap : jsval)
| AnsFetch (err data : jsval)
| AnsGetOps (err : jsval) (ops : list jsval)
| AnsGetOpsBulk (err : jsval) (results : list (string * list jsval))
| AnsSubmit (err : jsval) (ops : list jsval) (op_now : jsval)
| AnsQuerySubscribe (err : jsval) (em : emitter) (results : list row) (extra : jsval)
| AnsQueryResubscribe (err : jsval)
| AnsQueryFetch (err : jsval) (results : list row) (extra : jsval).

(** The Backend calls a callback back. *)
Definition resume (k : continuation) (a : answer) : M unit :=
  match k, a with
  | KSubscribe req, AnsSubscribe err stream data => onSubscribe req err stream data
  | KBulkEach b collection, AnsSubscribeBulk err streams snapshotMap =>
      onSubscribeBulk b collection err streams snapshotMap
  | KFetch req, AnsFetch err data => onFetch req err data
  | KGetOps req, AnsGetOps err ops => onGetOps req err ops
  | KGetOpsBulk req collection res, AnsGetOpsBulk err results =>
      onGetOpsBulk req collection res err results
  | KSubmit req op, AnsSubmit err ops op_now =>
      onSubmit req (if nullish op then op else op_now) err ops
  | KQuerySubscribe req options, AnsQuerySubscribe err em results extra =>
      onQuerySubscribe req options err em results extra
  | KQueryResubscribe req, AnsQueryResubscribe err => onQueryResubscribe req err
  | KQueryFetch req options, AnsQueryFetch err results extra =>
      onQueryFetch req options err results extra
  | _, _ => skip
  end.

(** Everything that can happen to an Agent once constructed. *)
Inductive event : Type :=
| Readable (read : jsval)            (* pump runs and reads [read] *)
| StreamEnd                          (* 'end' on the client stream *)
| DocData (collection id data : jsval)
| DocEnd (collection id : jsval)
| QueryExtra (queryId extra : jsval)
| QueryDiff (queryId : jsval) (diff : list jsval)
| QueryError (collection query err : jsval)
| QueryOp (collection op : jsval)
| Answer (k : continuation) (a : answer)
| TickReply (req : jsval).

Definition step (ev : event) : M unit :=
  match ev with
  | Readable read => pump read
  | StreamEnd => _cleanup
  | DocData collection id data => onStreamData collection id data
  | DocEnd collection id => onStreamEnd collection id
  | QueryExtra queryId extra => onExtra queryId extra
  | QueryDiff queryId diff => onDiff queryId diff
  | QueryError collection query err => onError collection query err
  | QueryOp collection op => onOp collection op
  | Answer k a => resume k a
  | TickReply req => _reply req JUndef JUndef
  end.

(** A run of the event loop: an exception ends the handler that threw
    it, and the loop goes on with the next event (as it does, in this
    model, after a handler it has stopped following). *)
Fixpoint run (evs : list event) (ag : Agent) : Agent * list effect :=
  match evs with
  | [] => (ag, [])
  | ev :: rest =>
      let r := step ev ag in
      let r' := run rest (agent_of r) in
      (fst r', effects_of r ++ snd r')
  end.

End WithHost.

(** [new Agent(backend, stream)], [id] being what [hat()] returns. *)
Definition new_Agent (id : string) : Agent * list effect :=
  let ag := mkAgent id false ∅ ∅ [] in
  (ag, [Write (JObj [("a", JStr "init"); ("protocol", JNum 0); ("id", JStr id)])]).

(** A host for running examples: [JSON.parse] knows a few texts, [>]
    is false unless both operands are numbers, ['end'] is emitted after
    [end()] returns, ['error'] has a listener, and an object stands for
    an Error. *)
Definition example_host : host :=
  mkHost (fun text =>
            if String.eqb text "null" then inl JNull
            else if String.eqb text "{}" then inl (JObj [])
            else inr "Unexpected token")
         (fun a b => false)
         false true
         (fun err => match err with
                     | JObj _ => err
                     | _ => JObj [("name", JStr "Error"); ("context", err)]
                     end)
         (fun message => eq_refl).

(** ** The vocabulary of the specification *)

(** The wire form of a Backend op for document [(collection, id)]:
    [{a:"op", c, d, v, src, seq}], then [op] and [create] carried over
    when present, and [del:true] when [del] is set. *)
Definition op_push (collection id op : jsval) : jsval :=
  JObj ([("a", JStr "op"); ("c", collection); ("d", id); ("v", get_prop op "v");
         ("src", get_prop op "src"); ("seq", get_prop op "seq")]
        ++ (if truthy (get_prop op "op") then [("op", get_prop op "op")] else [])
        ++ (if truthy (get_prop op "create") then [("create", get_prop op "create")] else [])
        ++ (if truthy (get_prop op "del") then [("del", JBool true)] else [])).

(** The collection an op was submitted through: [i] when it is present
    (a present field being a truthy one, as in the reply framing), else
    [c]. *)
Definition source_collection (op : jsval) : jsval :=
  if truthy (get_prop op "i") then get_prop op "i" else get_prop op "c".

(** An op of this Agent's own client, on the collection of the
    subscription it arrives on. *)
Definition own_op (ag : Agent) (collection op : jsval) : Prop :=
  get_prop op "src" = JStr (clientId ag) /\ collection = source_collection op.

(** Undefined, null, booleans, numbers and strings. *)
Definition primitive (v : jsval) : bool :=
  match v with
  | JArr _ | JObj _ => false
  | _ => true
  end.

(** Nothing stays subscribed on a closed Agent. *)
Definition agent_inv (ag : Agent) : Prop :=
  closed ag = true -> subscribedDocs ag = ∅ /\ subscribedQueries ag = ∅.

(** A method that leaves [closed] and both subscription maps alone. *)
Definition quiet {A : Type} (m : M A) : Prop :=
  forall ag,
    closed (agent_of (m ag)) = closed ag
    /\ subscribedDocs (agent_of (m ag)) = subscribedDocs ag
    /\ subscribedQueries (agent_of (m ag)) = subscribedQueries ag.

Definition preserves {A : Type} (m : M A) : Prop :=
  forall ag, agent_inv ag -> agent_inv (agent_of (m ag)).

(** The effects that write a message to the client. *)
Definition is_write (e : effect) : bool :=
  match e with
  | Write _ => true
  | _ => false
  end.

(** The stream installations of one loop, each of a stream for a
    document [(collection, id)]: one that throws ends the loop. *)
Definition install_all (installs : list (jsval * jsval * handle)) : M unit :=
  for_each installs (fun i => _subscribeToStream (fst (fst i)) (snd (fst i)) (snd i)).

(** A sequence of stream installations, each the call of a callback of
    its own: whatever way one ends, the next starts from the Agent it
    left.  The result is the Agent after the last and the effects of
    all. *)
Fixpoint installations (installs : list (jsval * jsval * handle)) (ag : Agent)
  : Agent * list effect :=
  match installs with
  | [] => (ag, [])
  | i :: rest =>
      let r := _subscribeToStream (fst (fst i)) (snd (fst i)) (snd i) ag in
      let r' := installations rest (agent_of r) in
      (fst r', effects_of r ++ snd r')
  end.

(** The stream has had its [destroy()] called. *)
Definition destroyed (h : handle) (trace : list effect) : Prop :=
  In (DestroyStream h) trace.

(** Reply framing: onto the body, [a] of the request, and its [c], [d]
    and [id] where present. *)
Definition framed (req body : jsval) : jsval :=
  fold_left (fun m k => if truthy (get_prop req k) then set_prop m k (get_prop req k) else m)
            ["c"; "d"; "id"]
            (set_prop body "a" (get_prop req "a")).

Definition error_reply (req err : jsval) : jsval := framed req (JObj [("error", err)]).

(** The streams registered for the documents a bulk request names:
    for every collection of the request, every docId listed under it. *)
Definition sweep_targets (ag : Agent) (request : jsval) : list handle :=
  flat_map (fun c =>
              match subscribedDocs ag !! c with
              | None => []
              | Some docs =>
                  flat_map (fun d => match docs !! d with
                                     | Some stream => [stream]
                                     | None => []
                                     end)
                           (for_in_keys (get_prop request c))
              end)
           (for_in_keys request).

(** No collection the request names, and no docId it lists, is the
    name of a member of [Object.prototype]. *)
Definition ordinary_request (request : jsval) : Prop :=
  Forall (fun c => inherited c = false
                   /\ Forall (fun d => inherited d = false)
                             (for_in_keys (get_prop request c)))
         (for_in_keys request).

(** The error of a failed validation. *)
Definition malformed (message : string) : jsval :=
  JObj [("code", JNum 4000); ("message", JStr message)].

(** The type of the result before the [i]-th, [lastType] standing
    before the first. *)
Definition previous_type_from (lastType : jsval) (results : list row) (i : nat) : jsval :=
  match i with
  | O => lastType
  | S j => default JNull (r_type <$> results !! j)
  end.

Definition previous_type (results : list row) (i : nat) : jsval :=
  previous_type_from JNull results i.

(** The caller has no prior version of document [id]: no versions map
    was given, or [versions[id]], as the engine reads it, is null or
    undefined. *)
Definition no_prior_version (versions id : jsval) : Prop :=
  truthy versions = false \/ found_nullish (index versions (to_key id)) = true.

(** The item of the [data] array for one result: [{d, v}], then [type]
    when it differs from the previous result's, then [data] when the
    caller has no prior version. *)
Definition result_item (versions previous : jsval) (result : row) : jsval :=
  JObj ([("d", r_id result); ("v", r_v result)]
        ++ (if strict_eq previous (r_type result) then [] else [("type", r_type result)])
        ++ (if negb (truthy versions)
               || found_nullish (index versions (to_key (r_id result)))
            then [("data", r_data result)] else [])).

(** The entries of an ops request. *)
Definition entries_of (request : jsval) : list (string * jsval) :=
  match request with
  | JObj props => props
  | _ => []
  end.

(** The client's version of the result's document is set and older
    than the result. *)
Definition needs_catch_up (H : host) (versions : jsval) (result : row) : Prop :=
  exists from,
    index versions (to_key (r_id result)) = Own from
    /\ nullish from = false
    /\ js_gt H (r_v result) from = true.

(** The body of the reply to a query subscribe or fetch. *)
Definition query_reply (queryId : jsval) (results : list row) (versions extra : jsval) : jsval :=
  JObj [("id", queryId); ("data", JArr (getResultsData results versions)); ("extra", extra)].

(** A method that, run on a closed Agent, leaves it closed and writes
    nothing to the client. *)
Definition mute {A : Type} (m : M A) : Prop :=
  forall ag,
    closed ag = true ->
    closed (agent_of (m ag)) = true
    /\ forall msg, ~ In (Write msg) (effects_of (m ag)).

(** ** Example data *)

Module Ex.

Definition me : Agent := fst (new_Agent "me").

Definition sub_fred : jsval :=
  JObj [("a", JStr "sub"); ("c", JStr "users"); ("d", JStr "fred")].

Definition snapshot_fred : jsval := JObj [("v", JNum 5); ("data", JStr "hi")].

Definition qsub7 : jsval :=
  JObj [("a", JStr "qsub"); ("id", JNum 7); ("c", JStr "users"); ("q", JObj [])].

Definition emitter7 : emitter := mkEmitter 2%nat (JStr "users") (getQueryOptions qsub7).

(** The client subscribes to [users/fred] and to query 7, and the
    Backend grants both. *)
Definition subscribed_run : list event :=
  [ Readable sub_fred;
    Answer (KSubscribe sub_fred) (AnsSubscribe JNull 1%nat snapshot_fred);
    Readable qsub7;
    Answer (KQuerySubscribe qsub7 (getQueryOptions qsub7))
           (AnsQuerySubscribe JNull emitter7 [] JNull) ].

Definition subscribed : Agent := fst (run example_host subscribed_run me).

(** An op another client submitted to [users/fred]. *)
Definition their_op : jsval :=
  JObj [("src", JStr "them"); ("seq", JNum 3); ("v", JNum 5); ("c", JStr "users");
        ("d", JStr "fred"); ("op", JArr [JNum 1])].

(** A bulk subscribe for [A/x] and [B/y]; the Backend has granted
    collection [A] with stream 5 and not yet answered for [B]. *)
Definition bs_AB : jsval :=
  JObj [("a", JStr "bs");
        ("s", JObj [("A", JObj [("x", JNull)]); ("B", JObj [("y", JNull)])])].

Definition bulk_half_run : list event :=
  [ Readable bs_AB;
    Answer (KBulkEach 0 (JStr "A")) (AnsSubscribeBulk JNull [("x", 5%nat)] (JObj [])) ].

Definition bulk_half : Agent := fst (run example_host bulk_half_run me).

Definition bulk_AB_pending : bulk :=
  mkBulk bs_AB (JObj [("A", JObj [("x", JBool true)])]) 1 false.

Definition backend_error : jsval :=
  JObj [("code", JNum 5000); ("message", JStr "backend failure")].

(** A submit request that carries none of [op], [create], [del]. *)
Definition op_without_op : jsval :=
  JObj [("a", JStr "op"); ("c", JStr "users"); ("d", JStr "fred"); ("seq", JNum 1)].

Definition already_submitted : jsval :=
  JObj [("code", JNum 4001); ("message", JStr "Op already submitted")].

(** A text message that is not JSON. *)
Definition broken_text : string := "{".

(** A query subscribe from a client that holds version 1 of [a] and
    version 2 of [b]; the Backend's results have [a] at version 3 and
    [b] at version 2. *)
Definition versions_ab : jsval := JObj [("a", JNum 1); ("b", JNum 2)].

Definition qsub_ab : jsval :=
  JObj [("a", JStr "qsub"); ("id", JNum 7); ("c", JStr "c"); ("q", JObj []);
        ("vs", versions_ab)].

Definition results_ab : list row :=
  [ mkRow (JStr "a") (JNum 3) (JStr "T") (JStr "D1");
    mkRow (JStr "b") (JNum 2) (JStr "T") (JStr "D2") ].

Definition bs_null : jsval := JObj [("a", JStr "bs"); ("s", JNull)].

Definition bs_array : jsval := JObj [("a", JStr "bs"); ("s", JArr [JStr "x"])].

Definition qresub7 : jsval := JObj [("a", JStr "qresub"); ("id", JNum 7); ("q", JObj [])].

(** Submit requests without [op], [create] or [del]: one with a
    negative version, one with a valid version. *)
Definition op_negative_version : jsval := JObj [("a", JStr "op"); ("v", JNum (-1))].

Definition op_nothing : jsval :=
  JObj [("a", JStr "op"); ("c", JStr "users"); ("d", JStr "fred"); ("v", JNum 5);
        ("seq", JNum 1)].

(** A submit of an edit to [users/fred], and the op the Backend echoes
    on the document's stream once it is accepted. *)
Definition op_edit : jsval :=
  JObj [("a", JStr "op"); ("c", JStr "users"); ("d", JStr "fred"); ("v", JNum 5);
        ("seq", JNum 1); ("op", JArr [JNum 1])].

Definition my_op : jsval := _createOp me op_edit.

Definition echoed_op : jsval :=
  JObj [("src", JStr "me"); ("seq", JNum 1); ("v", JNum 5); ("c", JStr "users");
        ("d", JStr "fred"); ("op", JArr [JNum 1])].

(** The Agent of [subscribed] after the client stream has ended. *)
Definition ended : Agent := fst (run example_host [StreamEnd] subscribed).

Definition unsub_fred : jsval :=
  JObj [("a", JStr "unsub"); ("c", JStr "users"); ("d", JStr "fred")].

Definition qunsub7 : jsval := JObj [("a", JStr "qunsub"); ("id", JNum 7)].

(** A fetch of the ops of [users/fred] from version 0 on. *)
Definition fetch_from_0 : jsval :=
  JObj [("a", JStr "fetch"); ("c", JStr "users"); ("d", JStr "fred"); ("v", JNum 0)].

(** A query diff: one result inserted at index 0, one removed. *)
Definition diff_insert_remove : list jsval :=
  [ JObj [("type", JStr "insert"); ("index", JNum 0);
          ("values", JArr [JObj [("id", JStr "fred"); ("v", JNum 3); ("type", JStr "json0");
                                 ("data", snapshot_fred)]])];
    JObj [("type", JStr "remove"); ("index", JNum 1); ("howMany", JNum 1)] ].

Definition qfetch7 : jsval :=
  JObj [("a", JStr "qfetch"); ("id", JNum 7); ("c", JStr "users"); ("q", JObj [])].

(** A bulk subscribe to the document of [users] called [constructor]. *)
Definition bs_constructor : jsval :=
  JObj [("a", JStr "bs"); ("s", JObj [("users", JObj [("constructor", JNull)])])].

Definition bulk_constructor : Agent :=
  fst (run example_host [Readable bs_constructor] subscribed).

(** A fetch of a query by a client that holds version 1 of the
    document called [__proto__]. *)
Definition qfetch_proto : jsval :=
  JObj [("a", JStr "qfetch"); ("id", JNum 7); ("c", JStr "users"); ("q", JObj []);
        ("vs", JObj [("__proto__", JNum 1)])].

End Ex.

(** The method the [switch] of [_handleMessage] calls for an action. *)
Definition handler_of (a : string) : option (jsval -> M unit) :=
  if String.eqb a "qsub" then Some _querySubscribe
  else if String.eqb a "qresub" then Some _queryResubscribe
  else if String.eqb a "qunsub" then Some _queryUnsubscribe
  else if String.eqb a "qfetch" then Some _queryFetch
  else if String.eqb a "bs" then Some _bulkSubscribe
  else if String.eqb a "sub" then Some _subscribe
  else if String.eqb a "unsub" then Some _unsubscribe
  else if String.eqb a "fetch" then Some _fetch
  else if String.eqb a "op" then Some _submit
  else None.

(** An item of a query diff as the Backend emits it: an object, whose
    [values], when it is an insert, is an array of results. *)
Definition diff_item (item : jsval) : Prop :=
  (exists props, item = JObj props)
  /\ (strict_eq (get_prop item "type") (JStr "insert") = true ->
      exists values, get_prop item "values" = JArr values
                     /\ Forall (fun v => nullish v = false) values).

(** A loop whose every round either goes through or throws a
    TypeError, leaving the Agent as it is and doing only what [P]
    allows. *)
Definition rounds (P : effect -> Prop) (m : M unit) (ag : Agent) : Prop :=
  exists t, (m ag = (Normal tt, ag, t) \/ m ag = (Thrown TypeError, ag, t)) /\ Forall P t.

(** ** Laws of the method monad *)

Ltac unfold_m :=
  unfold mbind, M_bind, mret, M_ret, get, emit, modify, throw, beyond, skip,
    effects_of, agent_of, outcome_of in *.

Lemma bind_normal {A B : Type} (m : M A) (f : A -> M B) ag a ag1 t1 :
  m ag = (Normal a, ag1, t1) ->
  (m ≫= f) ag = (outcome_of (f a ag1), agent_of (f a ag1), t1 ++ effects_of (f a ag1)).
Proof.
  intros Hm. unfold_m. rewrite Hm. destruct (f a ag1) as [[o ag2] t2]. reflexivity.
Qed.

Lemma bind_pure {A B : Type} (m : M A) (f : A -> M B) ag a :
  m ag = (Normal a, ag, []) -> (m ≫= f) ag = f a ag.
Proof.
  intros Hm. unfold_m. rewrite Hm. destruct (f a ag) as [[o ag2] t2]. reflexivity.
Qed.

Lemma bind_thrown {A B : Type} (m : M A) (f : A -> M B) ag e ag1 t1 :
  m ag = (Thrown e, ag1, t1) -> (m ≫= f) ag = (Thrown e, ag1, t1).
Proof. intros Hm. unfold_m. rewrite Hm. reflexivity. Qed.

Lemma deref_ok (v : jsval) ag : nullish v = false -> deref v ag = (Normal tt, ag, []).
Proof. intros Hv. unfold deref. rewrite Hv. reflexivity. Qed.

Lemma _send_open msg ag : closed ag = false -> _send msg ag = (Normal tt, ag, [Write msg]).
Proof. intros Hc. unfold _send. unfold_m. rewrite Hc. reflexivity. Qed.

Lemma _send_closed msg ag : closed ag = true -> _send msg ag = (Normal tt, ag, []).
Proof. intros Hc. unfold _send. unfold_m. rewrite Hc. reflexivity. Qed.

(** [_sendOp] builds the wire form of the specification. *)
Lemma _sendOp_message collection id op ag :
  nullish op = false -> _sendOp collection id op ag = _send (op_push collection id op) ag.
Proof.
  intros Hop. unfold _sendOp. erewrite bind_normal by (apply deref_ok; exact Hop).
  unfold op_push.
  destruct (truthy (get_prop op "op")), (truthy (get_prop op "create")),
    (truthy (get_prop op "del")); simpl;
    destruct (_send _ ag) as [[o a] t]; reflexivity.
Qed.

Lemma _sendOp_open collection id op ag :
  nullish op = false -> closed ag = false ->
  _sendOp collection id op ag = (Normal tt, ag, [Write (op_push collection id op)]).
Proof. intros Hop Hc. rewrite _sendOp_message by exact Hop. apply _send_open, Hc. Qed.

Lemma strict_eq_true a b : strict_eq a b = true -> a = b.
Proof.
  destruct a, b; simpl; try discriminate; try reflexivity; intros Heq.
  - apply Bool.eqb_prop in Heq. congruence.
  - apply Z.eqb_eq in Heq. congruence.
  - apply String.eqb_eq in Heq. congruence.
Qed.

Lemma strict_eq_refl a : primitive a = true -> strict_eq a a = true.
Proof.
  destruct a; simpl; try discriminate; try reflexivity; intros _.
  - apply Bool.eqb_reflx.
  - apply Z.eqb_refl.
  - apply String.eqb_refl.
Qed.

(** On a collection that is not an object, [_isOwnOp] decides [own_op]. *)
Lemma _isOwnOp_spec ag collection op :
  primitive collection = true ->
  _isOwnOp ag collection op = true <-> own_op ag collection op.
Proof.
  intros Hprim. unfold _isOwnOp, own_op, source_collection, js_or.
  rewrite andb_true_iff. split.
  - intros [Hsrc Hcol]. apply strict_eq_true in Hsrc. apply strict_eq_true in Hcol.
    split; congruence.
  - intros [Hsrc Hcol]. rewrite Hsrc. split.
    + simpl. apply String.eqb_refl.
    + rewrite <- Hcol. apply strict_eq_refl, Hprim.
Qed.

(** ** Which methods touch the subscription state *)

Create HintDb quiet.

Lemma quiet_ret {A : Type} (a : A) : quiet (mret a).
Proof. intros ag. unfold_m. simpl. auto. Qed.

Lemma quiet_bind {A B : Type} (m : M A) (f : A -> M B) :
  quiet m -> (forall a, quiet (f a)) -> quiet (m ≫= f).
Proof.
  intros Hm Hf ag. specialize (Hm ag). unfold_m.
  destruct (m ag) as [[[a | e |] ag1] t1]; simpl in *; [| exact Hm | exact Hm].
  specialize (Hf a ag1). destruct (f a ag1) as [[o ag2] t2].
  unfold agent_of in Hf. simpl in *.
  destruct Hm as (E1 & E2 & E3), Hf as (F1 & F2 & F3).
  repeat split; congruence.
Qed.

Lemma quiet_get : quiet get.
Proof. intros ag. unfold_m. simpl. auto. Qed.

Lemma quiet_emit e : quiet (emit e).
Proof. intros ag. unfold_m. simpl. auto. Qed.

Lemma quiet_beyond {A : Type} : quiet (@beyond A).
Proof. intros ag. unfold_m. simpl. auto. Qed.

Lemma quiet_throw {A : Type} e : quiet (@throw A e).
Proof. intros ag. unfold_m. simpl. auto. Qed.

Lemma quiet_skip : quiet skip.
Proof. apply quiet_ret. Qed.

Lemma quiet_deref v : quiet (deref v).
Proof. unfold deref. destruct (nullish v); [apply quiet_throw | apply quiet_skip]. Qed.

Lemma quiet_set_bulks (f : Agent -> list bulk) : quiet (modify (fun ag => set_bulks (f ag) ag)).
Proof. intros ag. unfold_m. simpl. auto. Qed.

Lemma quiet_for_each {A : Type} (l : list A) (body : A -> M unit) :
  (forall x, quiet (body x)) -> quiet (for_each l body).
Proof.
  intros Hbody. induction l as [| x l IH]; simpl.
  - apply quiet_skip.
  - apply quiet_bind; [apply Hbody | intros _; exact IH].
Qed.

#[global] Hint Resolve quiet_ret quiet_get quiet_emit quiet_throw quiet_beyond quiet_skip
  quiet_deref quiet_set_bulks : quiet.

(** Takes a method apart along its binds, loops and branches. *)
Ltac quiet_auto :=
  repeat first
    [ solve [auto with quiet]
    | apply quiet_bind; [| intros ?]
    | apply quiet_for_each; intros ?
    | match goal with
      | |- quiet (if ?c then _ else _) => destruct c
      | |- quiet (match ?x with _ => _ end) => destruct x
      end ].

Lemma quiet__send msg : quiet (_send msg).
Proof. unfold _send. quiet_auto. Qed.
#[global] Hint Resolve quiet__send : quiet.

Lemma quiet__sendOp collection id op : quiet (_sendOp collection id op).
Proof. unfold _sendOp. quiet_auto. Qed.
#[global] Hint Resolve quiet__sendOp : quiet.

Lemma quiet__reply req err msg : quiet (_reply req err msg).
Proof. unfold _reply. quiet_auto. Qed.
#[global] Hint Resolve quiet__reply : quiet.

Lemma quiet_onStreamData collection id data : quiet (onStreamData collection id data).
Proof. unfold onStreamData. quiet_auto. Qed.

Lemma quiet_onOp collection op : quiet (onOp collection op).
Proof. unfold onOp. quiet_auto. Qed.

Lemma quiet_onExtra queryId extra : quiet (onExtra queryId extra).
Proof. unfold onExtra. quiet_auto. Qed.

Lemma quiet_onDiff queryId diff : quiet (onDiff queryId diff).
Proof. unfold onDiff. quiet_auto. Qed.

Lemma quiet_onError collection query err : quiet (onError collection query err).
Proof. unfold onError. quiet_auto. Qed.

Lemma quiet_onBulkFinal req response err : quiet (onBulkFinal req response err).
Proof. unfold onBulkFinal. quiet_auto. Qed.
#[global] Hint Resolve quiet_onBulkFinal : quiet.

Lemma quiet_eachCb b err : quiet (eachCb b err).
Proof.
  unfold eachCb. apply quiet_bind; [auto with quiet | intros ag].
  destruct (bulks ag !! b) as [bk |]; [| auto with quiet].
  apply quiet_bind.
  - intros ag'. unfold_m. simpl. auto.
  - intros _. quiet_auto.
Qed.
#[global] Hint Resolve quiet_eachCb : quiet.

Lemma quiet__bulkSubscribe req : quiet (_bulkSubscribe req).
Proof.
  unfold _bulkSubscribe. apply quiet_bind; [auto with quiet | intros ag].
  apply quiet_bind.
  - intros ag'. unfold_m. simpl. auto.
  - intros _. quiet_auto.
Qed.

Lemma quiet__subscribe req : quiet (_subscribe req).
Proof. unfold _subscribe. quiet_auto. Qed.

Lemma quiet__unsubscribe req : quiet (_unsubscribe req).
Proof. unfold _unsubscribe. quiet_auto. Qed.

Lemma quiet__fetch req : quiet (_fetch req).
Proof. unfold _fetch. quiet_auto. Qed.

Lemma quiet_onFetch req err data : quiet (onFetch req err data).
Proof. unfold onFetch. quiet_auto. Qed.

Lemma quiet_onGetOps req err results : quiet (onGetOps req err results).
Proof. unfold onGetOps. quiet_auto. Qed.

Lemma quiet__submit req : quiet (_submit req).
Proof. unfold _submit. quiet_auto. Qed.

Lemma quiet_onSubmit req op err ops : quiet (onSubmit req op err ops).
Proof. unfold onSubmit. quiet_auto. Qed.

Lemma quiet__sendQueryResults H req queryId collection options results extra :
  quiet (_sendQueryResults H req queryId collection options results extra).
Proof. unfold _sendQueryResults. quiet_auto. Qed.
#[global] Hint Resolve quiet__sendQueryResults : quiet.

Lemma quiet_onGetOpsBulk req collection res err results :
  quiet (onGetOpsBulk req collection res err results).
Proof. unfold onGetOpsBulk. quiet_auto. Qed.

Lemma quiet__queryResubscribe req : quiet (_queryResubscribe req).
Proof. unfold _queryResubscribe. quiet_auto. Qed.

Lemma quiet_onQueryResubscribe req err : quiet (onQueryResubscribe req err).
Proof. unfold onQueryResubscribe. quiet_auto. Qed.

Lemma quiet__querySubscribe req : quiet (_querySubscribe req).
Proof. unfold _querySubscribe. quiet_auto. Qed.

Lemma quiet__queryFetch req : quiet (_queryFetch req).
Proof. unfold _queryFetch. quiet_auto. Qed.

Lemma quiet_onQueryFetch H req options err results extra :
  quiet (onQueryFetch H req options err results extra).
Proof. unfold onQueryFetch. quiet_auto. Qed.

(** ** Nothing is subscribed on a closed Agent *)

Lemma preserves_of_quiet {A : Type} (m : M A) : quiet m -> preserves m.
Proof.
  intros Hq ag Hinv. destruct (Hq ag) as (E1 & E2 & E3).
  unfold agent_inv in *. rewrite E1, E2, E3. exact Hinv.
Qed.

Lemma preserves_bind {A B : Type} (m : M A) (f : A -> M B) :
  preserves m -> (forall a, preserves (f a)) -> preserves (m ≫= f).
Proof.
  intros Hm Hf ag Hinv. specialize (Hm ag Hinv). unfold_m.
  destruct (m ag) as [[[a | e |] ag1] t1]; simpl in *; [| exact Hm | exact Hm].
  specialize (Hf a ag1 Hm). destruct (f a ag1) as [[o ag2] t2].
  unfold agent_of in Hf. exact Hf.
Qed.

Lemma preserves_for_each {A : Type} (l : list A) (body : A -> M unit) :
  (forall x, preserves (body x)) -> preserves (for_each l body).
Proof.
  intros Hbody. induction l as [| x l IH]; simpl.
  - apply preserves_of_quiet, quiet_skip.
  - apply preserves_bind; [apply Hbody | intros _; exact IH].
Qed.

Lemma preserves__subscribeToStream collection id stream :
  preserves (_subscribeToStream collection id stream).
Proof.
  intros ag Hinv. unfold _subscribeToStream. unfold_m.
  destruct (closed ag) eqn:Hc; simpl; [exact Hinv |].
  destruct (entry (subscribedDocs ag) (to_key collection)) as [streams | |]; simpl;
    [destruct (entry streams (to_key id)) | exact Hinv | destruct (entry ∅ (to_key id))];
    simpl; intros Hc'; simpl in Hc'; congruence.
Qed.

Lemma preserves_onStreamEnd collection id : preserves (onStreamEnd collection id).
Proof.
  intros ag Hinv. unfold onStreamEnd. unfold_m.
  destruct (subscribedDocs ag !! to_key collection) as [streams |] eqn:Hl;
    simpl; [| exact Hinv].
  assert (Hopen : closed ag = false).
  { destruct (closed ag) eqn:Hc; [| reflexivity].
    destruct (Hinv Hc) as [Hd _]. rewrite Hd, lookup_empty in Hl. discriminate. }
  destruct (hasKeys (delete (to_key id) streams)); simpl;
    intros Hc'; simpl in Hc'; congruence.
Qed.

Lemma preserves__subscribeToQuery em queryId collection query :
  preserves (_subscribeToQuery em queryId collection query).
Proof.
  intros ag Hinv. unfold _subscribeToQuery. unfold_m.
  destruct (closed ag) eqn:Hc; simpl; [exact Hinv |].
  destruct (subscribedQueries ag !! to_key queryId);
    simpl; intros Hc'; simpl in Hc'; congruence.
Qed.

Lemma for_each_emit_agent {A : Type} (l : list A) (e : A -> effect) ag :
  for_each l (fun x => emit (e x)) ag = (Normal tt, ag, map e l).
Proof.
  revert ag. induction l as [| x l IH]; intros ag; simpl; [reflexivity |].
  erewrite bind_normal by reflexivity. rewrite IH. reflexivity.
Qed.

Lemma for_each_nested_emit {A B : Type} (l : list A) (inner : A -> list B)
    (e : B -> effect) ag :
  for_each l (fun x => for_each (inner x) (fun y => emit (e y))) ag
  = (Normal tt, ag, flat_map (fun x => map e (inner x)) l).
Proof.
  revert ag. induction l as [| x l IH]; intros ag; simpl; [reflexivity |].
  erewrite bind_normal by apply for_each_emit_agent. rewrite IH. reflexivity.
Qed.

(** What [_cleanup] does, in closed form. *)
Lemma _cleanup_eq ag :
  _cleanup ag =
  if closed ag then (Normal tt, ag, [])
  else (Normal tt, mkAgent (clientId ag) true ∅ ∅ (bulks ag),
        RemoveReadable
        :: flat_map (fun entry => map (fun doc => DestroyStream (snd doc))
                                      (map_to_list (snd entry)))
                    (map_to_list (subscribedDocs ag))
        ++ map (fun q => DestroyEmitter (em_handle (snd q)))
               (map_to_list (subscribedQueries ag))).
Proof.
  unfold _cleanup. erewrite bind_normal by reflexivity.
  destruct (closed ag) eqn:Hc; [reflexivity |].
  erewrite bind_normal by reflexivity.
  erewrite bind_normal by reflexivity.
  erewrite bind_normal by apply for_each_nested_emit.
  erewrite bind_normal by reflexivity.
  erewrite bind_normal by apply for_each_emit_agent.
  unfold_m. simpl. rewrite app_nil_r. reflexivity.
Qed.

Lemma preserves__cleanup : preserves _cleanup.
Proof.
  intros ag Hinv. rewrite _cleanup_eq. unfold agent_of.
  destruct (closed ag); simpl; [exact Hinv |].
  intros _. simpl. auto.
Qed.

Lemma preserves__queryUnsubscribe req : preserves (_queryUnsubscribe req).
Proof.
  intros ag Hinv. unfold _queryUnsubscribe. unfold_m.
  destruct (subscribedQueries ag !! to_key (get_prop req "id")) as [em |] eqn:Hl;
    simpl; [| exact Hinv].
  assert (Hopen : closed ag = false).
  { destruct (closed ag) eqn:Hc; [| reflexivity].
    destruct (Hinv Hc) as [_ Hq]. rewrite Hq, lookup_empty in Hl. discriminate. }
  intros Hc'. simpl in Hc'. congruence.
Qed.

#[global] Hint Resolve preserves__subscribeToStream preserves_onStreamEnd
  preserves__subscribeToQuery preserves__cleanup preserves__queryUnsubscribe : quiet.

Lemma quiet_modify (f : Agent -> Agent) :
  (forall ag, closed (f ag) = closed ag
              /\ subscribedDocs (f ag) = subscribedDocs ag
              /\ subscribedQueries (f ag) = subscribedQueries ag) ->
  quiet (modify f).
Proof. intros Hf ag. unfold_m. simpl. apply Hf. Qed.

Ltac preserves_auto :=
  repeat first
    [ solve [auto with quiet]
    | solve [apply preserves_of_quiet; quiet_auto]
    | apply preserves_bind; [| intros ?]
    | apply preserves_for_each; intros ?
    | match goal with
      | |- preserves (if ?c then _ else _) => destruct c
      | |- preserves (match ?x with _ => _ end) => destruct x
      end ].

Lemma preserves_onSubscribe req err stream data :
  preserves (onSubscribe req err stream data).
Proof. unfold onSubscribe. preserves_auto. Qed.

Lemma preserves_onSubscribeBulk b collection err streams snapshotMap :
  preserves (onSubscribeBulk b collection err streams snapshotMap).
Proof.
  unfold onSubscribeBulk. destruct (truthy err).
  - apply preserves_of_quiet, quiet_eachCb.
  - apply preserves_bind; [preserves_auto | intros _].
    apply preserves_bind; [| intros _; apply preserves_of_quiet, quiet_eachCb].
    apply preserves_of_quiet, quiet_modify. intros ag.
    destruct (bulks ag !! b); simpl; auto.
Qed.

Lemma preserves_onQuerySubscribe H req options err em results extra :
  preserves (onQuerySubscribe H req options err em results extra).
Proof. unfold onQuerySubscribe. preserves_auto. Qed.

Lemma preserves__handleMessage req : preserves (_handleMessage req).
Proof.
  unfold _handleMessage.
  apply preserves_bind; [preserves_auto | intros _].
  pose proof (quiet__querySubscribe req). pose proof (quiet__queryResubscribe req).
  pose proof (quiet__queryFetch req). pose proof (quiet__bulkSubscribe req).
  pose proof (quiet__subscribe req). pose proof (quiet__unsubscribe req).
  pose proof (quiet__fetch req). pose proof (quiet__submit req).
  repeat match goal with
         | |- preserves (if ?c then _ else _) => destruct c
         end; auto using preserves_of_quiet with quiet.
Qed.

Lemma preserves_close H err : preserves (close H err).
Proof. unfold close. preserves_auto. Qed.

Lemma preserves_pump H read : preserves (pump H read).
Proof.
  unfold pump.
  apply preserves_bind; [preserves_auto | intros ag].
  destruct (closed ag); [preserves_auto |].
  destruct (nullish read); [preserves_auto |].
  apply preserves_bind.
  - destruct read; solve [preserves_auto].
  - intros req. apply preserves_bind; [apply preserves__handleMessage | intros _].
    preserves_auto.
Qed.

Lemma preserves_resume H k a : preserves (resume H k a).
Proof.
  destruct k, a; simpl;
    auto using preserves_of_quiet, quiet_skip, preserves_onSubscribe,
      preserves_onSubscribeBulk, quiet_onFetch, quiet_onGetOps, quiet_onSubmit,
      preserves_onQuerySubscribe, quiet_onQueryResubscribe, quiet_onQueryFetch,
      quiet_onGetOpsBulk.
Qed.

Lemma preserves_step H ev : preserves (step H ev).
Proof.
  destruct ev; simpl;
    auto using preserves_of_quiet, preserves_pump, preserves__cleanup,
      quiet_onStreamData, preserves_onStreamEnd, quiet_onExtra, quiet_onDiff,
      quiet_onError, quiet_onOp, preserves_resume, quiet__reply.
Qed.

Lemma new_Agent_inv id : agent_inv (fst (new_Agent id)).
Proof. intros Hc. simpl in Hc. discriminate. Qed.

(** The invariant holds in every state the event loop reaches. *)
Lemma run_inv H evs ag : agent_inv ag -> agent_inv (fst (run H evs ag)).
Proof.
  revert ag. induction evs as [| ev evs IH]; intros ag Hinv; simpl; [exact Hinv |].
  apply IH, preserves_step, Hinv.
Qed.

Lemma subscribed_doc_open ag collection id stream :
  agent_inv ag -> lookup_doc ag collection id = Some stream -> closed ag = false.
Proof.
  intros Hinv Hl. destruct (closed ag) eqn:Hc; [| reflexivity].
  destruct (Hinv Hc) as [Hd _]. unfold lookup_doc in Hl.
  rewrite Hd, lookup_empty in Hl. discriminate.
Qed.

Lemma subscribed_query_open ag queryId em :
  agent_inv ag -> subscribedQueries ag !! queryId = Some em -> closed ag = false.
Proof.
  intros Hinv Hl. destruct (closed ag) eqn:Hc; [| reflexivity].
  destruct (Hinv Hc) as [_ Hq]. rewrite Hq, lookup_empty in Hl. discriminate.
Qed.

(** ** A closed Agent stays closed and writes nothing *)

Create HintDb mute.

Lemma mute_ret {A : Type} (a : A) : mute (mret a).
Proof. intros ag Hc. unfold_m. simpl. auto. Qed.

Lemma mute_bind {A B : Type} (m : M A) (f : A -> M B) :
  mute m -> (forall a, mute (f a)) -> mute (m ≫= f).
Proof.
  intros Hm Hf ag Hc. specialize (Hm ag Hc). unfold_m.
  destruct (m ag) as [[[a | e |] ag1] t1]; simpl in *; [| exact Hm | exact Hm].
  destruct Hm as [Hc1 Ht1]. specialize (Hf a ag1 Hc1).
  destruct (f a ag1) as [[o ag2] t2]. unfold agent_of, effects_of in Hf. simpl in *.
  destruct Hf as [Hc2 Ht2]. split; [exact Hc2 |].
  intros msg Hin. apply in_app_or in Hin. destruct Hin as [Hin | Hin].
  - exact (Ht1 msg Hin).
  - exact (Ht2 msg Hin).
Qed.

Lemma mute_get : mute get.
Proof. intros ag Hc. unfold_m. simpl. auto. Qed.

Lemma mute_emit e : is_write e = false -> mute (emit e).
Proof.
  intros He ag Hc. unfold_m. simpl. split; [exact Hc |].
  intros msg [Heq | []]. subst e. discriminate He.
Qed.

Lemma mute_throw {A : Type} e : mute (@throw A e).
Proof. intros ag Hc. unfold_m. simpl. auto. Qed.

Lemma mute_skip : mute skip.
Proof. apply mute_ret. Qed.

Lemma mute_deref v : mute (deref v).
Proof. unfold deref. destruct (nullish v); [apply mute_throw | apply mute_skip]. Qed.

Lemma mute_modify (f : Agent -> Agent) :
  (forall ag, closed ag = true -> closed (f ag) = true) -> mute (modify f).
Proof. intros Hf ag Hc. unfold_m. simpl. auto. Qed.

Lemma mute_for_each {A : Type} (l : list A) (body : A -> M unit) :
  (forall x, mute (body x)) -> mute (for_each l body).
Proof.
  intros Hbody. induction l as [| x l IH]; simpl.
  - apply mute_skip.
  - apply mute_bind; [apply Hbody | intros _; exact IH].
Qed.

Lemma mute__send msg : mute (_send msg).
Proof. intros ag Hc. rewrite _send_closed by exact Hc. simpl. auto. Qed.

#[global] Hint Resolve mute_ret mute_get mute_throw mute_skip mute_deref mute__send : mute.

Ltac mute_auto :=
  repeat first
    [ solve [auto with mute]
    | apply mute_emit; reflexivity
    | apply mute_modify; intros ? ?; simpl; solve [auto | destruct_all; auto]
    | apply mute_bind; [| intros ?]
    | apply mute_for_each; intros ?
    | match goal with
      | |- mute (if ?c then _ else _) => destruct c
      | |- mute (match ?x with _ => _ end) => destruct x
      end ].

Lemma mute_modify_bulks b (f : bulk -> bulk) :
  mute (modify (fun ag => match bulks ag !! b with
                          | None => ag
                          | Some bk => set_bulks (<[b := f bk]> (bulks ag)) ag
                          end)).
Proof. apply mute_modify. intros ag Hc. destruct (bulks ag !! b); exact Hc. Qed.

(** Invariants 1 and 2 of the data model: no event reopens a closed
    Agent or makes it write to the client. *)
Lemma closed_agent_is_mute H ev : mute (step H ev).
Proof.
  assert (Hsend : forall collection id op, mute (_sendOp collection id op))
    by (intros; unfold _sendOp; mute_auto).
  assert (Hreply : forall req err msg, mute (_reply req err msg))
    by (intros; unfold _reply; mute_auto).
  assert (Hfinal : forall req response err, mute (onBulkFinal req response err))
    by (intros; unfold onBulkFinal; mute_auto).
  assert (Heach : forall b err, mute (eachCb b err))
    by (intros; unfold eachCb; mute_auto).
  assert (Hstream : forall collection id stream,
             mute (_subscribeToStream collection id stream))
    by (intros; unfold _subscribeToStream; mute_auto).
  assert (Hquery : forall em queryId collection query,
             mute (_subscribeToQuery em queryId collection query))
    by (intros; unfold _subscribeToQuery; mute_auto).
  assert (Hresults : forall req queryId collection options results extra,
             mute (_sendQueryResults H req queryId collection options results extra))
    by (intros; unfold _sendQueryResults; mute_auto).
  assert (Hcleanup : mute _cleanup) by (unfold _cleanup; mute_auto).
  assert (Hhandle : forall req, mute (_handleMessage req)).
  { intros req. unfold _handleMessage, _querySubscribe, _queryResubscribe,
      _queryUnsubscribe, _queryFetch, _bulkSubscribe, _subscribe, _unsubscribe,
      _fetch, _submit. mute_auto. }
  destruct ev as [read | | | | | | | | k a |]; simpl.
  - unfold pump, close. mute_auto.
  - exact Hcleanup.
  - unfold onStreamData. mute_auto.
  - unfold onStreamEnd. mute_auto.
  - unfold onExtra. mute_auto.
  - unfold onDiff. mute_auto.
  - unfold onError. mute_auto.
  - unfold onOp. mute_auto.
  - destruct k, a; simpl; try apply mute_skip.
    + unfold onSubscribe. mute_auto.
    + unfold onSubscribeBulk. destruct (truthy err); [apply Heach |].
      apply mute_bind; [mute_auto | intros _].
      apply mute_bind; [apply mute_modify_bulks | intros _; apply Heach].
    + unfold onFetch. mute_auto.
    + unfold onGetOps. mute_auto.
    + unfold onSubmit. mute_auto.
    + unfold onQuerySubscribe. mute_auto.
    + unfold onQueryResubscribe. mute_auto.
    + unfold onQueryFetch. mute_auto.
    + unfold onGetOpsBulk. mute_auto.
  - apply Hreply.
Qed.

(** ** Own ops are not echoed (C1) *)

Lemma onStreamData_own ag collection id op :
  primitive collection = true -> nullish op = false -> own_op ag collection op ->
  forall msg, ~ In (Write msg) (effects_of (onStreamData collection id op ag)).
Proof.
  intros Hprim Hop Hown msg. apply _isOwnOp_spec in Hown; [| exact Hprim].
  unfold onStreamData. erewrite bind_normal by (apply deref_ok; exact Hop).
  destruct (truthy (get_prop op "error")).
  - unfold_m. simpl. intros [Habs | []]. discriminate.
  - erewrite bind_normal by reflexivity. rewrite Hown. unfold_m. simpl. tauto.
Qed.

Lemma onStreamData_other ag collection id op :
  primitive collection = true -> nullish op = false -> closed ag = false ->
  ~ own_op ag collection op -> truthy (get_prop op "error") = false ->
  onStreamData collection id op ag = (Normal tt, ag, [Write (op_push collection id op)]).
Proof.
  intros Hprim Hop Hc Hown Herr.
  assert (Hno : _isOwnOp ag collection op = false).
  { destruct (_isOwnOp ag collection op) eqn:E; [| reflexivity].
    exfalso. apply Hown, _isOwnOp_spec; assumption. }
  unfold onStreamData. erewrite bind_normal by (apply deref_ok; exact Hop).
  rewrite Herr. erewrite bind_normal by reflexivity. rewrite Hno.
  rewrite _sendOp_open by assumption. reflexivity.
Qed.

Lemma onOp_own ag collection op :
  primitive collection = true -> nullish op = false -> own_op ag collection op ->
  forall msg, ~ In (Write msg) (effects_of (onOp collection op ag)).
Proof.
  intros Hprim Hop Hown msg. apply _isOwnOp_spec in Hown; [| exact Hprim].
  unfold onOp. erewrite bind_normal by (apply deref_ok; exact Hop).
  erewrite bind_normal by reflexivity. rewrite Hown. unfold_m. simpl. tauto.
Qed.

Lemma onOp_other ag collection op :
  primitive collection = true -> nullish op = false -> closed ag = false ->
  ~ own_op ag collection op ->
  onOp collection op ag
  = (Normal tt, ag, [Write (op_push collection (get_prop op "d") op)]).
Proof.
  intros Hprim Hop Hc Hown.
  assert (Hno : _isOwnOp ag collection op = false).
  { destruct (_isOwnOp ag collection op) eqn:E; [| reflexivity].
    exfalso. apply Hown, _isOwnOp_spec; assumption. }
  unfold onOp. erewrite bind_normal by (apply deref_ok; exact Hop).
  erewrite bind_normal by reflexivity. rewrite Hno.
  rewrite _sendOp_open by assumption. reflexivity.
Qed.



(** ** One stream per document (C2) *)

Lemma lookup_doc_default ag c d :
  default ∅ (subscribedDocs ag !! c) !! d = lookup_doc ag c d.
Proof.
  unfold lookup_doc. destruct (subscribedDocs ag !! c); simpl; [reflexivity |].
  apply lookup_empty.
Qed.

Lemma entry_own {A : Type} (map : gmap string A) k a :
  map !! k = Some a -> entry map k = Own a.
Proof. intros E. unfold entry. rewrite E. reflexivity. Qed.

Lemma entry_ordinary {A : Type} (map : gmap string A) k :
  inherited k = false ->
  entry map k = match map !! k with
                | Some a => Own a
                | None => Missing
                end.
Proof. intros Hk. unfold entry. rewrite Hk. reflexivity. Qed.

Lemma entry_inherited {A : Type} (map : gmap string A) k :
  map !! k = None -> inherited k = true -> entry map k = Inherited.
Proof. intros E Hk. unfold entry. rewrite E, Hk. reflexivity. Qed.

Lemma _subscribeToStream_closed collection id stream ag :
  closed ag = true ->
  _subscribeToStream collection id stream ag = (Normal tt, ag, [DestroyStream stream]).
Proof. intros Hc. unfold _subscribeToStream. unfold_m. rewrite Hc. reflexivity. Qed.

(** On an open Agent an installation registers the stream, unless it
    meets a member of [Object.prototype] where it looks for the
    collection's map or for the previous stream. *)
Lemma _subscribeToStream_registers collection id stream ag :
  closed ag = false ->
  entry (subscribedDocs ag) (to_key collection) <> Inherited ->
  entry (default ∅ (subscribedDocs ag !! to_key collection)) (to_key id) <> Inherited ->
  _subscribeToStream collection id stream ag
  = (Normal tt,
     set_subscribedDocs
       (<[to_key collection :=
            <[to_key id := stream]> (default ∅ (subscribedDocs ag !! to_key collection))]>
          (subscribedDocs ag)) ag,
     match lookup_doc ag (to_key collection) (to_key id) with
     | Some previous => [DestroyStream previous]
     | None => []
     end).
Proof.
  intros Hc Hcol Hid. unfold _subscribeToStream. unfold_m. rewrite Hc.
  rewrite <- lookup_doc_default. unfold entry in *.
  destruct (subscribedDocs ag !! to_key collection) as [streams |]; simpl in *.
  - destruct (streams !! to_key id); simpl; [reflexivity |].
    destruct (inherited (to_key id)); [contradiction | reflexivity].
  - destruct (inherited (to_key collection)); [contradiction |].
    destruct (∅ !! to_key id) as [previous |]; simpl; [reflexivity |].
    destruct (inherited (to_key id)); [contradiction | reflexivity].
Qed.

Lemma _subscribeToStream_open collection id stream ag :
  closed ag = false ->
  inherited (to_key collection) = false ->
  inherited (to_key id) = false ->
  _subscribeToStream collection id stream ag
  = (Normal tt,
     set_subscribedDocs
       (<[to_key collection :=
            <[to_key id := stream]> (default ∅ (subscribedDocs ag !! to_key collection))]>
          (subscribedDocs ag)) ag,
     match lookup_doc ag (to_key collection) (to_key id) with
     | Some previous => [DestroyStream previous]
     | None => []
     end).
Proof.
  intros Hc Hcol Hid. apply _subscribeToStream_registers; [exact Hc | |];
    rewrite entry_ordinary by assumption;
    match goal with |- context [match ?x with _ => _ end] => destruct x end;
    discriminate.
Qed.

(** Over a stream that is registered, it does so whatever the names. *)
Lemma _subscribeToStream_replaces collection id stream previous ag :
  closed ag = false ->
  lookup_doc ag (to_key collection) (to_key id) = Some previous ->
  _subscribeToStream collection id stream ag
  = (Normal tt,
     set_subscribedDocs
       (<[to_key collection :=
            <[to_key id := stream]> (default ∅ (subscribedDocs ag !! to_key collection))]>
          (subscribedDocs ag)) ag,
     [DestroyStream previous]).
Proof.
  intros Hc Hprev. rewrite _subscribeToStream_registers; [rewrite Hprev; reflexivity | exact Hc | |].
  - unfold lookup_doc in Hprev.
    destruct (subscribedDocs ag !! to_key collection) as [streams |] eqn:E;
      [| discriminate Hprev].
    rewrite (entry_own _ _ _ E). discriminate.
  - rewrite <- lookup_doc_default in Hprev. rewrite (entry_own _ _ _ Hprev). discriminate.
Qed.

Lemma lookup_doc_empty_map ag c c' d' :
  subscribedDocs ag !! c = None ->
  lookup_doc (set_subscribedDocs (<[c := ∅]> (subscribedDocs ag)) ag) c' d'
  = lookup_doc ag c' d'.
Proof.
  intros E. unfold lookup_doc. simpl. destruct (decide (c = c')) as [<- | Hne].
  - rewrite lookup_insert_eq, E. simpl. apply lookup_empty.
  - rewrite lookup_insert_ne by exact Hne. reflexivity.
Qed.

(** Where no stream is registered for the document and its id names a
    member of [Object.prototype], the installation takes that member
    for the previous stream and throws: nothing is destroyed and
    nothing is registered. *)
Lemma _subscribeToStream_throws collection id stream ag :
  closed ag = false ->
  entry (subscribedDocs ag) (to_key collection) <> Inherited ->
  lookup_doc ag (to_key collection) (to_key id) = None ->
  inherited (to_key id) = true ->
  let r := _subscribeToStream collection id stream ag in
  outcome_of r = Thrown TypeError
  /\ effects_of r = []
  /\ closed (agent_of r) = false
  /\ subscribedQueries (agent_of r) = subscribedQueries ag
  /\ (forall c' d', lookup_doc (agent_of r) c' d' = lookup_doc ag c' d').
Proof.
  intros Hc Hcol Hnone Hid. unfold _subscribeToStream. unfold_m. rewrite Hc.
  rewrite <- lookup_doc_default in Hnone. unfold entry in *.
  destruct (subscribedDocs ag !! to_key collection) as [streams |] eqn:E; simpl in *.
  - rewrite Hnone, Hid. simpl. repeat split; assumption.
  - destruct (inherited (to_key collection)); [contradiction |].
    rewrite lookup_empty, Hid. simpl. repeat split; try assumption.
    intros c' d'. apply lookup_doc_empty_map, E.
Qed.

Lemma lookup_doc_installed ag c d stream :
  lookup_doc
    (set_subscribedDocs
       (<[c := <[d := stream]> (default ∅ (subscribedDocs ag !! c))]> (subscribedDocs ag)) ag)
    c d = Some stream.
Proof.
  unfold lookup_doc. simpl. rewrite lookup_insert_eq. simpl. apply lookup_insert_eq.
Qed.

Lemma lookup_doc_elsewhere ag c d stream c' d' :
  (c', d') <> (c, d) ->
  lookup_doc
    (set_subscribedDocs
       (<[c := <[d := stream]> (default ∅ (subscribedDocs ag !! c))]> (subscribedDocs ag)) ag)
    c' d' = lookup_doc ag c' d'.
Proof.
  intros Hne. unfold lookup_doc. simpl.
  destruct (decide (c = c')) as [<- | Hc].
  - rewrite lookup_insert_eq. simpl.
    rewrite lookup_insert_ne by congruence. apply lookup_doc_default.
  - rewrite lookup_insert_ne by exact Hc. reflexivity.
Qed.

Lemma effects_of_triple {A : Type} (o : outcome A) ag t : effects_of (o, ag, t) = t.
Proof. reflexivity. Qed.

Lemma agent_of_triple {A : Type} (o : outcome A) ag t : agent_of (o, ag, t) = ag.
Proof. reflexivity. Qed.

Lemma install_all_cons_closed c d h rest ag :
  closed ag = true ->
  install_all ((c, d, h) :: rest) ag
  = (outcome_of (install_all rest ag), agent_of (install_all rest ag),
     DestroyStream h :: effects_of (install_all rest ag)).
Proof.
  intros Hc. unfold install_all at 1. simpl.
  erewrite bind_normal by (apply _subscribeToStream_closed; exact Hc). reflexivity.
Qed.

Lemma install_all_cons_open c d h rest ag ag1 :
  closed ag = false ->
  inherited (to_key c) = false ->
  inherited (to_key d) = false ->
  ag1 = set_subscribedDocs
          (<[to_key c := <[to_key d := h]> (default ∅ (subscribedDocs ag !! to_key c))]>
             (subscribedDocs ag)) ag ->
  install_all ((c, d, h) :: rest) ag
  = (outcome_of (install_all rest ag1), agent_of (install_all rest ag1),
     match lookup_doc ag (to_key c) (to_key d) with
     | Some previous => [DestroyStream previous]
     | None => []
     end ++ effects_of (install_all rest ag1)).
Proof.
  intros Hc Hcol Hid ->. unfold install_all at 1. simpl.
  erewrite bind_normal by (apply _subscribeToStream_open; assumption). reflexivity.
Qed.

(** The three ways an installation ends when the collection's map is
    looked up among the Agent's own: on a closed Agent the stream is
    destroyed; on an open one it is registered, or the installation
    throws over a member of [Object.prototype]. *)
Lemma _subscribeToStream_cases collection id stream ag :
  entry (subscribedDocs ag) (to_key collection) <> Inherited ->
  let r := _subscribeToStream collection id stream ag in
  (closed ag = true /\ r = (Normal tt, ag, [DestroyStream stream]))
  \/ (closed ag = false
      /\ (lookup_doc ag (to_key collection) (to_key id) <> None
          \/ inherited (to_key id) = false)
      /\ r = (Normal tt,
              set_subscribedDocs
                (<[to_key collection :=
                     <[to_key id := stream]>
                       (default ∅ (subscribedDocs ag !! to_key collection))]>
                   (subscribedDocs ag)) ag,
              match lookup_doc ag (to_key collection) (to_key id) with
              | Some previous => [DestroyStream previous]
              | None => []
              end))
  \/ (closed ag = false
      /\ lookup_doc ag (to_key collection) (to_key id) = None
      /\ inherited (to_key id) = true
      /\ outcome_of r = Thrown TypeError
      /\ effects_of r = []
      /\ closed (agent_of r) = false
      /\ forall c' d', lookup_doc (agent_of r) c' d' = lookup_doc ag c' d').
Proof.
  intros Hcol r. destruct (closed ag) eqn:Hc.
  - left. split; [reflexivity |]. apply _subscribeToStream_closed, Hc.
  - right. destruct (lookup_doc ag (to_key collection) (to_key id)) as [previous |] eqn:Hprev.
    + left. split; [reflexivity |]. split; [left; discriminate |].
      subst r. rewrite (_subscribeToStream_replaces _ _ _ previous) by assumption.
      reflexivity.
    + destruct (inherited (to_key id)) eqn:Hid.
      * right. split; [reflexivity |]. split; [reflexivity |]. split; [reflexivity |].
        destruct (_subscribeToStream_throws collection id stream ag Hc Hcol Hprev Hid)
          as (Ho & He & Hcl & _ & Hl).
        repeat split; assumption.
      * left. split; [reflexivity |]. split; [right; reflexivity |].
        subst r. rewrite _subscribeToStream_registers; [rewrite Hprev; reflexivity | exact Hc | exact Hcol |].
        rewrite entry_ordinary by exact Hid.
        destruct (default ∅ (subscribedDocs ag !! to_key collection) !! to_key id);
          discriminate.
Qed.

Lemma entry_not_inherited {A : Type} (map : gmap string A) k :
  inherited k = false -> entry map k <> Inherited.
Proof.
  intros Hk. rewrite entry_ordinary by exact Hk. destruct (map !! k); discriminate.
Qed.

(** A registered stream stays registered until it is destroyed. *)
Lemma installations_keeps installs : forall ag c d h,
  Forall (fun i => inherited (to_key (fst (fst i))) = false) installs ->
  lookup_doc ag c d = Some h ->
  destroyed h (snd (installations installs ag))
  \/ lookup_doc (fst (installations installs ag)) c d = Some h.
Proof.
  induction installs as [| [[c1 d1] h1] rest IH]; intros ag c d h Hcols Hreg.
  - right. exact Hreg.
  - apply Forall_cons in Hcols as [Hcol Hcols]. cbn [fst snd] in Hcol.
    unfold destroyed in *. cbn [installations fst snd].
    destruct (_subscribeToStream_cases c1 d1 h1 ag (entry_not_inherited _ _ Hcol))
      as [[Hc ->] | [(Hc & _ & ->) | (Hc & Hnone & Hid & _ & -> & _ & Hl)]];
      rewrite ?effects_of_triple, ?agent_of_triple.
    + destruct (IH ag c d h Hcols Hreg) as [Hd | Hr];
        [left; right; exact Hd | right; exact Hr].
    + destruct (decide ((c, d) = (to_key c1, to_key d1))) as [Heq | Hne].
      * injection Heq as -> ->. rewrite Hreg. left. left. reflexivity.
      * match goal with
        | |- context [installations rest ?ag1] =>
            assert (Hreg1 : lookup_doc ag1 c d = Some h)
              by (rewrite lookup_doc_elsewhere by exact Hne; exact Hreg);
            destruct (IH ag1 c d h Hcols Hreg1) as [Hd | Hr]
        end.
        -- left. apply in_or_app. right. exact Hd.
        -- right. exact Hr.
    + rewrite <- Hl in Hreg. apply (IH _ c d h Hcols Hreg).
Qed.

(** Every stream installed is afterwards destroyed or the one
    registered for its document, unless its id names a member of
    [Object.prototype]. *)
Lemma installations_live installs : forall ag c d h,
  Forall (fun i => inherited (to_key (fst (fst i))) = false) installs ->
  In (c, d, h) installs ->
  inherited (to_key d) = false ->
  destroyed h (snd (installations installs ag))
  \/ lookup_doc (fst (installations installs ag)) (to_key c) (to_key d) = Some h.
Proof.
  induction installs as [| [[c1 d1] h1] rest IH]; intros ag c d h Hcols Hin Hd;
    [destruct Hin |].
  apply Forall_cons in Hcols as [Hcol Hcols]. cbn [fst snd] in Hcol.
  unfold destroyed in *. cbn [installations fst snd].
  destruct Hin as [Heq | Hin].
  - injection Heq as -> -> ->.
    destruct (_subscribeToStream_cases c d h ag (entry_not_inherited _ _ Hcol))
      as [[Hc ->] | [(Hc & _ & ->) | (_ & _ & Hid & _)]];
      rewrite ?effects_of_triple, ?agent_of_triple.
    + left. left. reflexivity.
    + match goal with
      | |- context [installations rest ?ag1] =>
          destruct (installations_keeps rest ag1 (to_key c) (to_key d) h Hcols
                      (lookup_doc_installed _ _ _ _)) as [Hdes | Hr]
      end.
      * left. apply in_or_app. right. exact Hdes.
      * right. exact Hr.
    + congruence.
  - destruct (IH (agent_of (_subscribeToStream c1 d1 h1 ag)) c d h Hcols Hin Hd)
      as [Hdes | Hr].
    + left. apply in_or_app. right. exact Hdes.
    + right. exact Hr.
Qed.



(** ** Bulk subscribe: the sweep after a failure (C3) *)

Lemma _reply_framed req err msg ag :
  _reply req err msg ag
  = _send (framed req (if truthy err then JObj [("error", err)] else js_or msg (JObj []))) ag.
Proof.
  unfold _reply, framed. simpl.
  destruct (truthy (get_prop req "c")), (truthy (get_prop req "d")),
    (truthy (get_prop req "id")); reflexivity.
Qed.

Lemma assoc_set_same k x props : assoc k (assoc_set k x props) = Some x.
Proof.
  induction props as [| [k' v] rest IH]; simpl.
  - rewrite String.eqb_refl. reflexivity.
  - destruct (String.eqb k' k) eqn:E; simpl; rewrite E; [reflexivity | exact IH].
Qed.

Lemma assoc_set_other k k' x props :
  k <> k' -> assoc k' (assoc_set k x props) = assoc k' props.
Proof.
  intros Hne. induction props as [| [k0 v] rest IH]; simpl.
  - destruct (String.eqb k k') eqn:E; [| reflexivity].
    apply String.eqb_eq in E. contradiction.
  - destruct (String.eqb k0 k) eqn:E; simpl.
    + apply String.eqb_eq in E. subst k0.
      destruct (String.eqb k k') eqn:E'; [| reflexivity].
      apply String.eqb_eq in E'. contradiction.
    + destruct (String.eqb k0 k'); [reflexivity | exact IH].
Qed.

(** Framing changes no field of the body but [a], [c], [d], [id]. *)
Lemma framed_keeps req props k :
  k <> "a" -> k <> "c" -> k <> "d" -> k <> "id" ->
  get_prop (framed req (JObj props)) k = get_prop (JObj props) k.
Proof.
  intros Ha Hc Hd Hid. unfold framed. simpl fold_left.
  destruct (truthy (get_prop req "c")), (truthy (get_prop req "d")),
    (truthy (get_prop req "id")); simpl;
    repeat (rewrite assoc_set_other by congruence); reflexivity.
Qed.

Lemma framed_action req props :
  get_prop (framed req (JObj props)) "a" = get_prop req "a".
Proof.
  unfold framed. simpl fold_left.
  destruct (truthy (get_prop req "c")), (truthy (get_prop req "d")),
    (truthy (get_prop req "id")); simpl;
    repeat (rewrite assoc_set_other by discriminate);
    rewrite assoc_set_same; reflexivity.
Qed.

Lemma for_each_pure {A : Type} (l : list A) (body : A -> M unit)
    (t : A -> list effect) ag :
  (forall x, body x ag = (Normal tt, ag, t x)) ->
  for_each l body ag = (Normal tt, ag, flat_map t l).
Proof.
  intros Hbody. induction l as [| x l IH]; simpl; [reflexivity |].
  erewrite bind_normal by apply Hbody. rewrite IH. reflexivity.
Qed.

Lemma for_each_pure_Forall {A : Type} (l : list A) (body : A -> M unit)
    (t : A -> list effect) ag :
  Forall (fun x => body x ag = (Normal tt, ag, t x)) l ->
  for_each l body ag = (Normal tt, ag, flat_map t l).
Proof.
  intros Hbody. induction Hbody as [| x l Hx _ IH]; simpl; [reflexivity |].
  erewrite bind_normal by exact Hx. rewrite IH. reflexivity.
Qed.

Lemma map_flat_map_comm {A B C : Type} (f : B -> C) (g : A -> list B) (l : list A) :
  map f (flat_map g l) = flat_map (fun x => map f (g x)) l.
Proof.
  induction l as [| x l IH]; simpl; [reflexivity |]. rewrite map_app, IH. reflexivity.
Qed.

Lemma sweep_effects ag request :
  ordinary_request request ->
  for_each (for_in_keys request) (fun collection =>
    match entry (subscribedDocs ag) collection with
    | Missing => skip
    | Own docs =>
        for_each (for_in_keys (get_prop request collection)) (fun id =>
          match entry docs id with
          | Own stream => emit (DestroyStream stream)
          | Inherited => throw TypeError
          | Missing => skip
          end)
    | Inherited =>
        for_each (for_in_keys (get_prop request collection)) (fun id => beyond)
    end) ag
  = (Normal tt, ag, map DestroyStream (sweep_targets ag request)).
Proof.
  intros Hord. unfold sweep_targets. rewrite map_flat_map_comm.
  apply for_each_pure_Forall. eapply Forall_impl; [exact Hord |].
  intros c [Hc Hds]. simpl. rewrite entry_ordinary by exact Hc.
  destruct (subscribedDocs ag !! c) as [docs |]; [| reflexivity].
  rewrite map_flat_map_comm. apply for_each_pure_Forall.
  eapply Forall_impl; [exact Hds |].
  intros d Hd. simpl. rewrite entry_ordinary by exact Hd.
  destruct (docs !! d); reflexivity.
Qed.

Lemma sweep_targets_spec ag request h :
  In h (sweep_targets ag request)
  <-> exists c d, In c (for_in_keys request)
                  /\ In d (for_in_keys (get_prop request c))
                  /\ lookup_doc ag c d = Some h.
Proof.
  unfold sweep_targets, lookup_doc. rewrite in_flat_map. split.
  - intros (c & Hc & Hin). destruct (subscribedDocs ag !! c) as [docs |] eqn:E; [| destruct Hin].
    apply in_flat_map in Hin. destruct Hin as (d & Hd & Hin).
    destruct (docs !! d) as [s |] eqn:E'; [| destruct Hin].
    destruct Hin as [<- | []]. exists c, d. rewrite E. simpl. auto.
  - intros (c & d & Hc & Hd & Hl). exists c. split; [exact Hc |].
    destruct (subscribedDocs ag !! c) as [docs |]; simpl in Hl; [| discriminate].
    apply in_flat_map. exists d. split; [exact Hd |]. rewrite Hl. left. reflexivity.
Qed.

Lemma onBulkFinal_error req response err ag :
  truthy err = true ->
  ordinary_request (get_prop req "s") ->
  onBulkFinal req response err ag
  = (Normal tt, ag,
     map DestroyStream (sweep_targets ag (get_prop req "s"))
     ++ (if closed ag then [] else [Write (error_reply req err)])).
Proof.
  intros Herr Hord. unfold onBulkFinal. rewrite Herr.
  erewrite bind_normal by reflexivity.
  erewrite bind_normal by (apply sweep_effects; exact Hord).
  rewrite _reply_framed, Herr. unfold error_reply.
  destruct (closed ag) eqn:Hc.
  - rewrite _send_closed by exact Hc. reflexivity.
  - rewrite _send_open by exact Hc. reflexivity.
Qed.

Lemma eachCb_first_error b bk err ag :
  bulks ag !! b = Some bk -> bk_called bk = false -> truthy err = true ->
  ordinary_request (get_prop (bk_req bk) "s") ->
  eachCb b err ag
  = (Normal tt,
     set_bulks (<[b := mkBulk (bk_req bk) (bk_response bk) (pred (bk_running bk)) true]>
                  (bulks ag)) ag,
     map DestroyStream (sweep_targets ag (get_prop (bk_req bk) "s"))
     ++ (if closed ag then [] else [Write (error_reply (bk_req bk) err)])).
Proof.
  intros Hb Hcalled Herr Hord. unfold eachCb.
  erewrite bind_normal by reflexivity. rewrite Hb, Hcalled, Herr. simpl orb. simpl andb.
  erewrite bind_normal by reflexivity.
  rewrite onBulkFinal_error by assumption. reflexivity.
Qed.

Lemma eachCb_already_called b bk err ag :
  bulks ag !! b = Some bk -> bk_called bk = true -> effects_of (eachCb b err ag) = [].
Proof.
  intros Hb Hcalled. unfold eachCb.
  erewrite bind_normal by reflexivity. rewrite Hb, Hcalled.
  erewrite bind_normal by reflexivity.
  rewrite andb_false_r. reflexivity.
Qed.

(** Where the request names ordinary collections and docIds, the code
    does what the specification asks.  A bulk subscribe [b] is in
    flight, no failure has been reported for it yet, and the Backend's
    [subscribeBulk] for one of its collections calls back with an
    error.  Then the Agent first calls [destroy()] on exactly the
    streams registered in [subscribedDocs] under a requested collection
    and a docId the request lists for it, and after that replies: the
    one message, the request's framing around [{error: err}], written
    unless the Agent is closed.  Errors reported for [b] later cause no
    further reply. *)
Lemma bulk_failure_sweeps_then_replies (H : host) (ag : Agent) (b : nat) (bk : bulk)
    (collection err : jsval) (streams : list (string * handle)) (snapshotMap : jsval) :
  bulks ag !! b = Some bk ->
  bk_called bk = false ->
  truthy err = true ->
  let request := get_prop (bk_req bk) "s" in
  ordinary_request request ->
  let r := step H (Answer (KBulkEach b collection) (AnsSubscribeBulk err streams snapshotMap))
                ag in
  exists swept,
    r = (Normal tt,
         set_bulks (<[b := mkBulk (bk_req bk) (bk_response bk) (pred (bk_running bk)) true]>
                      (bulks ag)) ag,
         map DestroyStream swept
         ++ (if closed ag then [] else [Write (error_reply (bk_req bk) err)]))
    /\ (forall h, In h swept <->
                  exists c d, In c (for_in_keys request)
                              /\ In d (for_in_keys (get_prop request c))
                              /\ lookup_doc ag c d = Some h)
    /\ get_prop (error_reply (bk_req bk) err) "error" = err
    /\ get_prop (error_reply (bk_req bk) err) "a" = get_prop (bk_req bk) "a"
    /\ (forall ag' collection' err' streams' snapshotMap',
           bulks ag' !! b = bulks (agent_of r) !! b ->
           truthy err' = true ->
           effects_of (step H (Answer (KBulkEach b collection')
                                      (AnsSubscribeBulk err' streams' snapshotMap')) ag')
           = []).
Proof.
  intros Hb Hcalled Herr request Hord r.
  assert (Hr : r = eachCb b err ag).
  { subst r. simpl. unfold onSubscribeBulk. rewrite Herr. reflexivity. }
  rewrite Hr, (eachCb_first_error b bk err ag Hb Hcalled Herr Hord).
  exists (sweep_targets ag request). rewrite agent_of_triple.
  split; [reflexivity |]. split; [apply sweep_targets_spec |].
  split; [unfold error_reply; rewrite framed_keeps by discriminate; reflexivity |].
  split; [apply framed_action |].
  intros ag' collection' err' streams' snapshotMap' Hb' Herr'.
  simpl. unfold onSubscribeBulk. rewrite Herr'.
  simpl in Hb'. rewrite list_lookup_insert_eq in Hb'
    by (apply lookup_lt_Some in Hb; exact Hb).
  eapply eachCb_already_called; [exact Hb' | reflexivity].
Qed.

Example sweep_then_reply :
  exists swept,
    effects_of (step example_host
                  (Answer (KBulkEach 0 (JStr "B"))
                          (AnsSubscribeBulk Ex.backend_error [] JUndef))
                  Ex.bulk_half)
    = map DestroyStream swept ++ [Write (error_reply Ex.bs_AB Ex.backend_error)]
    /\ In 5%nat swept.
Proof.
  destruct (bulk_failure_sweeps_then_replies example_host Ex.bulk_half 0
              Ex.bulk_AB_pending (JStr "B") Ex.backend_error [] JUndef)
    as (swept & Heff & Hswept & _).
  - vm_compute. reflexivity.
  - reflexivity.
  - reflexivity.
  - repeat constructor.
  - exists swept. split; [rewrite Heff; reflexivity |].
    apply Hswept. exists "A", "x". split; [| split].
    + vm_compute. left. reflexivity.
    + vm_compute. left. reflexivity.
    + vm_compute. reflexivity.
Qed.

Lemma rounds_for_each {A : Type} (P : effect -> Prop) (l : list A) (body : A -> M unit) ag :
  (forall x, In x l -> rounds P (body x) ag) -> rounds P (for_each l body) ag.
Proof.
  induction l as [| x l IH]; intros Hbody; simpl.
  - exists []. split; [left; reflexivity | constructor].
  - destruct (Hbody x (or_introl eq_refl)) as (t & [E | E] & Ht).
    + destruct IH as (t' & E' & Ht'); [intros y Hy; apply Hbody; right; exact Hy |].
      exists (t ++ t'). split; [| apply Forall_app; split; assumption].
      erewrite bind_normal by exact E.
      destruct E' as [-> | ->]; [left | right]; reflexivity.
    + exists t. split; [right; apply bind_thrown, E | exact Ht].
Qed.

Lemma for_each_throws {A : Type} (P : effect -> Prop) (l : list A) (body : A -> M unit) ag x :
  (forall y, In y l -> rounds P (body y) ag) ->
  In x l ->
  (exists t, body x ag = (Thrown TypeError, ag, t)) ->
  exists t, for_each l body ag = (Thrown TypeError, ag, t) /\ Forall P t.
Proof.
  induction l as [| y l IH]; intros Hbody Hin Hx; [destruct Hin |]. simpl.
  destruct (Hbody y (or_introl eq_refl)) as (t & [E | E] & Ht).
  - destruct Hin as [-> | Hin].
    + destruct Hx as (t' & E'). rewrite E in E'. discriminate E'.
    + destruct IH as (t' & E' & Ht'); [intros z Hz; apply Hbody; right; exact Hz | exact Hin
                                      | exact Hx |].
      exists (t ++ t'). split; [| apply Forall_app; split; assumption].
      erewrite bind_normal by exact E. rewrite E'. reflexivity.
  - exists t. split; [apply bind_thrown, E | exact Ht].
Qed.

(** The sweep throws where the request lists, under a collection the
    Agent has streams of, a docId that names a member of
    [Object.prototype] and no stream. *)
Lemma sweep_throws ag request c docs d :
  Forall (fun c => inherited c = false) (for_in_keys request) ->
  In c (for_in_keys request) ->
  subscribedDocs ag !! c = Some docs ->
  In d (for_in_keys (get_prop request c)) ->
  docs !! d = None ->
  inherited d = true ->
  exists t,
    for_each (for_in_keys request) (fun collection =>
      match entry (subscribedDocs ag) collection with
      | Missing => skip
      | Own docs =>
          for_each (for_in_keys (get_prop request collection)) (fun id =>
            match entry docs id with
            | Own stream => emit (DestroyStream stream)
            | Inherited => throw TypeError
            | Missing => skip
            end)
      | Inherited =>
          for_each (for_in_keys (get_prop request collection)) (fun id => beyond)
      end) ag
    = (Thrown TypeError, ag, t)
    /\ Forall (fun e => exists h, e = DestroyStream h) t.
Proof.
  intros Hcols Hc Hdocs Hd Hnone Hinh.
  assert (Hinner : forall (docs' : gmap string handle) ids,
             rounds (fun e => exists h, e = DestroyStream h)
               (for_each ids (fun id =>
                  match entry docs' id with
                  | Own stream => emit (DestroyStream stream)
                  | Inherited => throw TypeError
                  | Missing => skip
                  end)) ag).
  { intros docs' ids. apply rounds_for_each. intros id _.
    destruct (entry docs' id) as [stream | |].
    - exists [DestroyStream stream]. split; [left; reflexivity |].
      constructor; [eexists; reflexivity | constructor].
    - exists []. split; [right; reflexivity | constructor].
    - exists []. split; [left; reflexivity | constructor]. }
  apply (for_each_throws _ _ _ _ c).
  - intros c' Hc'. rewrite Forall_forall in Hcols.
    rewrite entry_ordinary by (apply Hcols, list_elem_of_In, Hc').
    destruct (subscribedDocs ag !! c') as [docs' |]; [apply Hinner |].
    exists []. split; [left; reflexivity | constructor].
  - exact Hc.
  - rewrite (entry_own _ _ _ Hdocs).
    destruct (for_each_throws (fun e => exists h, e = DestroyStream h)
                (for_in_keys (get_prop request c))
                (fun id => match entry docs id with
                           | Own stream => emit (DestroyStream stream)
                           | Inherited => throw TypeError
                           | Missing => skip
                           end) ag d) as (t & E & _).
    + intros id _. destruct (entry docs id) as [stream | |].
      * exists [DestroyStream stream]. split; [left; reflexivity |].
        constructor; [eexists; reflexivity | constructor].
      * exists []. split; [right; reflexivity | constructor].
      * exists []. split; [left; reflexivity | constructor].
    + exact Hd.
    + rewrite (entry_inherited _ _ Hnone Hinh). exists []. reflexivity.
    + exists t. exact E.
Qed.

(** C3, where the code departs from it.  A bulk subscribe [b] is in
    flight, no failure has been reported for it yet, and the Backend's
    [subscribeBulk] for one of its collections calls back with an
    error.  The request lists, under a collection [c] the Agent has
    streams of, a docId [d] that names a member of [Object.prototype]
    (and no stream).  The sweep reads [docs[d]] through the prototype
    chain, takes the member for a stream and calls its [destroy]: a
    TypeError is thrown out of the callback, and the error reply is
    never written.  What the callback did before that is destroying
    streams. *)
Theorem C3_sweep_throws_before_the_reply (H : host) (ag : Agent) (b : nat) (bk : bulk)
    (collection err : jsval) (streams : list (string * handle)) (snapshotMap : jsval)
    (c d : string) (docs : gmap string handle) :
  bulks ag !! b = Some bk ->
  bk_called bk = false ->
  truthy err = true ->
  let request := get_prop (bk_req bk) "s" in
  Forall (fun c => inherited c = false) (for_in_keys request) ->
  In c (for_in_keys request) ->
  subscribedDocs ag !! c = Some docs ->
  In d (for_in_keys (get_prop request c)) ->
  docs !! d = None ->
  inherited d = true ->
  let r := step H (Answer (KBulkEach b collection) (AnsSubscribeBulk err streams snapshotMap))
                ag in
  outcome_of r = Thrown TypeError
  /\ (forall msg, ~ In (Write msg) (effects_of r))
  /\ (forall e, In e (effects_of r) -> exists h, e = DestroyStream h).
Proof.
  intros Hb Hcalled Herr request Hcols Hc Hdocs Hd Hnone Hinh r.
  assert (Hr : r = eachCb b err ag).
  { subst r. simpl. unfold onSubscribeBulk. rewrite Herr. reflexivity. }
  set (ag1 := set_bulks (<[b := mkBulk (bk_req bk) (bk_response bk)
                                       (pred (bk_running bk)) true]> (bulks ag)) ag).
  destruct (sweep_throws ag1 request c docs d Hcols Hc Hdocs Hd Hnone Hinh)
    as (t & Hsweep & Ht).
  assert (E : r = (Thrown TypeError, ag1, t)).
  { rewrite Hr. unfold eachCb.
    erewrite bind_normal by reflexivity. rewrite Hb, Hcalled, Herr. simpl orb. simpl andb.
    erewrite bind_normal by reflexivity.
    unfold onBulkFinal. rewrite Herr.
    erewrite bind_normal by reflexivity.
    fold ag1. fold request.
    erewrite bind_thrown by exact Hsweep. reflexivity. }
  rewrite E. rewrite Forall_forall in Ht.
  split; [reflexivity |]. split.
  - intros msg Hin. apply list_elem_of_In, Ht in Hin. destruct Hin as (h & Hh).
    discriminate Hh.
  - intros e Hin. apply Ht, list_elem_of_In, Hin.
Qed.

Lemma C3_witness :
  outcome_of (step example_host
                (Answer (KBulkEach 0 (JStr "users"))
                        (AnsSubscribeBulk Ex.backend_error [] JUndef))
                Ex.bulk_constructor)
  = Thrown TypeError
  /\ forall msg,
       ~ In (Write msg)
            (effects_of (step example_host
                           (Answer (KBulkEach 0 (JStr "users"))
                                   (AnsSubscribeBulk Ex.backend_error [] JUndef))
                           Ex.bulk_constructor)).
Proof.
  destruct (C3_sweep_throws_before_the_reply example_host Ex.bulk_constructor 0
              (mkBulk Ex.bs_constructor (JObj []) 1 false) (JStr "users")
              Ex.backend_error [] JUndef "users" "constructor" {["fred" := 1%nat]})
    as (Hthrown & Hwrites & _).
  - reflexivity.
  - reflexivity.
  - reflexivity.
  - repeat constructor.
  - left. reflexivity.
  - vm_compute. reflexivity.
  - left. reflexivity.
  - reflexivity.
  - reflexivity.
  - split; [exact Hthrown | exact Hwrites].
Defined.

(** ** Submit and its acknowledgement (C4) *)

Lemma for_each_sendOp collection id ops ag :
  closed ag = false ->
  Forall (fun o => nullish o = false) ops ->
  for_each ops (fun o => _sendOp collection id o) ag
  = (Normal tt, ag, map (fun o => Write (op_push collection id o)) ops).
Proof.
  intros Hc Hops. induction Hops as [| o ops Ho _ IH]; simpl; [reflexivity |].
  erewrite bind_normal by (apply _sendOp_open; assumption). rewrite IH. reflexivity.
Qed.

Lemma _reply_open req err msg ag :
  closed ag = false ->
  _reply req err msg ag
  = (Normal tt, ag,
     [Write (framed req (if truthy err then JObj [("error", err)]
                         else js_or msg (JObj [])))]).
Proof. intros Hc. rewrite _reply_framed. apply _send_open, Hc. Qed.

(** What the callback of [_submit] does when [_createOp] has made an
    op: the acknowledgement [{src, seq, v}] of the op on an error of
    code 4001, the error on any other error, and on success the missed
    ops in their wire form followed by the acknowledgement. *)
Lemma onSubmit_with_op req op err ops ag :
  nullish op = false ->
  Forall (fun o => nullish o = false) ops ->
  closed ag = false ->
  let ack := framed req (JObj [("src", get_prop op "src"); ("seq", get_prop op "seq");
                               ("v", get_prop op "v")]) in
  onSubmit req op err ops ag
  = (Normal tt, ag,
     if truthy err then
       if strict_eq (get_prop err "code") (JNum 4001) then [Write ack]
       else [Write (error_reply req err)]
     else map (fun o => Write (op_push (get_prop req "c") (get_prop req "d") o)) ops
          ++ [Write ack]).
Proof.
  intros Hop Hops Hc ack. unfold onSubmit.
  erewrite bind_normal by (apply deref_ok; exact Hop).
  destruct (truthy err) eqn:Herr.
  - destruct (strict_eq (get_prop err "code") (JNum 4001)).
    + rewrite _reply_open by exact Hc. reflexivity.
    + rewrite _reply_open by exact Hc. rewrite Herr. reflexivity.
  - erewrite bind_normal by (apply for_each_sendOp; assumption).
    rewrite _reply_open by exact Hc. reflexivity.
Qed.

Lemma _createOp_nothing ag req :
  truthy (get_prop req "op") = false ->
  truthy (get_prop req "create") = false ->
  truthy (get_prop req "del") = false ->
  _createOp ag req = JUndef.
Proof. intros Hop Hcreate Hdel. unfold _createOp. rewrite Hop, Hcreate, Hdel. reflexivity. Qed.

(** C4, where the code departs from it.  For a submit request with
    none of [op], [create] and [del] set, [_createOp] makes no op; when
    the Backend then completes the submit, with whatever error or list
    of ops, the callback throws a TypeError on reading [op.src]:
    nothing is written to the client, neither the acknowledgement nor
    the error. *)
Theorem C4_submit_callback_throws_without_op (H : host) (ag0 ag : Agent)
    (req err : jsval) (ops : list jsval) (op_now : jsval) :
  truthy (get_prop req "op") = false ->
  truthy (get_prop req "create") = false ->
  truthy (get_prop req "del") = false ->
  effects_of (_submit req ag0)
  = [Backend (CallSubmit (get_prop req "c") (get_prop req "d") JUndef) (KSubmit req JUndef)]
  /\ step H (Answer (KSubmit req JUndef) (AnsSubmit err ops op_now)) ag
     = (Thrown TypeError, ag, []).
Proof.
  intros Hop Hcreate Hdel. split.
  - unfold _submit. erewrite bind_normal by reflexivity.
    rewrite _createOp_nothing by assumption. reflexivity.
  - reflexivity.
Qed.

Lemma C4_witness :
  effects_of (_submit Ex.op_without_op Ex.me)
  = [Backend (CallSubmit (JStr "users") (JStr "fred") JUndef)
             (KSubmit Ex.op_without_op JUndef)]
  /\ step example_host
          (Answer (KSubmit Ex.op_without_op JUndef)
                  (AnsSubmit Ex.already_submitted [] JUndef)) Ex.me
     = (Thrown TypeError, Ex.me, []).
Proof.
  exact (C4_submit_callback_throws_without_op example_host Ex.me Ex.me Ex.op_without_op
           Ex.already_submitted [] JUndef eq_refl eq_refl eq_refl).
Defined.

(** ** Text that is not JSON (C5) *)

Lemma bind_assoc {A B C : Type} (m : M A) (f : A -> M B) (g : B -> M C) ag :
  ((m ≫= f) ≫= g) ag = (m ≫= fun a => f a ≫= g) ag.
Proof.
  unfold_m. destruct (m ag) as [[[a | e |] ag1] t1]; [| reflexivity | reflexivity].
  destruct (f a ag1) as [[[b | e |] ag2] t2]; [| reflexivity | reflexivity].
  destruct (g b ag2) as [[o ag3] t3]. rewrite app_assoc. reflexivity.
Qed.

Lemma bind_ret_l {A B : Type} (a : A) (f : A -> M B) ag : (mret a ≫= f) ag = f a ag.
Proof. unfold_m. destruct (f a ag) as [[o ag1] t1]. reflexivity. Qed.

Lemma bind_ext {A B : Type} (m : M A) (f g : A -> M B) ag :
  (forall a ag1, f a ag1 = g a ag1) -> (m ≫= f) ag = (m ≫= g) ag.
Proof.
  intros Hfg. unfold_m. destruct (m ag) as [[[a | e |] ag1] t1]; [| reflexivity | reflexivity].
  rewrite Hfg. reflexivity.
Qed.

Lemma bind_ext_l {A B : Type} (m m' : M A) (f : A -> M B) ag :
  m ag = m' ag -> (m ≫= f) ag = (m' ≫= f) ag.
Proof. intros Hm. unfold_m. rewrite Hm. reflexivity. Qed.

Lemma find_all_false {A : Type} (f : A -> bool) (l : list A) :
  (forall x, f x = false) -> find f l = None.
Proof.
  intros Hf. induction l as [| x l IH]; simpl; [reflexivity |]. rewrite Hf. exact IH.
Qed.

Lemma pretty_N_go_not_a x s : s <> "a" -> pretty_N_go x s <> "a".
Proof.
  revert s. induction (N.lt_wf_0 x) as [x _ IH]; intros s Hs.
  assert (x = 0 \/ 0 < x)%N as [-> | Hpos] by lia.
  - rewrite pretty_N_go_0. exact Hs.
  - rewrite pretty_N_go_step by exact Hpos. apply IH.
    + apply N.div_lt; [exact Hpos | reflexivity].
    + unfold pretty_N_char. repeat case_match; discriminate.
Qed.

(** No array index is spelled ["a"]. *)
Lemma index_of_key_a len : index_of_key "a" len = None.
Proof.
  unfold index_of_key. apply find_all_false. intros i.
  apply String.eqb_neq. unfold pretty, pretty_nat, pretty, pretty_N.
  destruct (decide (N.of_nat i = 0%N)); [discriminate |].
  apply pretty_N_go_not_a. discriminate.
Qed.

(** A string has no property [a]. *)
Lemma text_has_no_action text : get_prop (JStr text) "a" = JUndef.
Proof. simpl. rewrite index_of_key_a. reflexivity. Qed.

Lemma _checkRequest_text text : _checkRequest (JStr text) = JStr "Invalid action".
Proof.
  unfold _checkRequest, is_action. rewrite text_has_no_action. reflexivity.
Qed.

Lemma _handleMessage_text text ag :
  _handleMessage (JStr text) ag = _reply (JStr text) (malformed "Invalid action") JUndef ag.
Proof.
  unfold _handleMessage. erewrite bind_pure by reflexivity.
  rewrite _checkRequest_text. reflexivity.
Qed.

(** C5, where the code departs from it.  When a text message does not
    parse, [pump] does close the Agent with the parse error, but there
    is no [return] after that: it goes on to [_handleMessage] with the
    unparsed text, which validation answers with error 4000 ("Invalid
    action").  On a transport whose [end()] emits ['end'] later, the
    Agent is still open at that point and the error reply is written
    to the stream it has just ended (the stream having a listener for
    the ['error'] that [close] emits; without one, [emit] throws the
    error and [close] never gets to end the stream). *)
Theorem C5_unparsable_text_is_still_dispatched (H : host) (ag : Agent)
    (text message : string) :
  closed ag = false ->
  JSON_parse H text = inr message ->
  let e := SyntaxError message in
  step H (Readable (JStr text)) ag
  = (emit (ConsoleWarn e) ;; close H e ;; _handleMessage (JStr text) ;;
     emit (NextTick KPump)) ag
  /\ (forall ag1,
         _handleMessage (JStr text) ag1
         = _reply (JStr text) (malformed "Invalid action") JUndef ag1)
  /\ (has_error_listener H = true -> end_emits_now H = false ->
      effects_of (step H (Readable (JStr text)) ag)
      = [ConsoleWarn e; ConsoleWarn e; EmitError e; EndStream;
         Write (error_reply (JStr text) (malformed "Invalid action"));
         NextTick KPump])
  /\ (has_error_listener H = false ->
      step H (Readable (JStr text)) ag
      = (Thrown e, ag, [ConsoleWarn e; ConsoleWarn e; EmitError e])).
Proof.
  intros Hc Hparse e.
  assert (Hpump : step H (Readable (JStr text)) ag
                  = (emit (ConsoleWarn e) ;; close H e ;; _handleMessage (JStr text) ;;
                     emit (NextTick KPump)) ag).
  { simpl. unfold pump. erewrite bind_pure by reflexivity.
    rewrite Hc, Hparse. change (nullish (JStr text)) with false. cbv iota.
    rewrite bind_assoc. apply bind_ext. intros [] ag1.
    rewrite bind_assoc. apply bind_ext. intros [] ag2.
    rewrite bind_ret_l. reflexivity. }
  split; [exact Hpump |]. split; [intros ag1; apply _handleMessage_text |].
  split.
  2:{ intros Hnobody. rewrite Hpump.
      erewrite bind_normal by reflexivity.
      erewrite bind_thrown; [reflexivity |].
      unfold close. change (truthy e) with true. cbv iota. rewrite Hnobody.
      unfold e. rewrite unhandled_Error. reflexivity. }
  intros Hlistener Hasync. rewrite Hpump.
  erewrite bind_normal by reflexivity.
  assert (Hclose : close H e ag = (Normal tt, ag, [ConsoleWarn e; EmitError e; EndStream])).
  { unfold close. change (truthy e) with true. cbv iota. rewrite Hlistener.
    erewrite bind_normal by reflexivity.
    erewrite bind_normal by reflexivity.
    rewrite Hc, Hasync. reflexivity. }
  erewrite bind_normal by exact Hclose.
  erewrite bind_normal
    by (rewrite _handleMessage_text; apply _reply_open; exact Hc).
  reflexivity.
Qed.

Lemma C5_witness :
  effects_of (step example_host (Readable (JStr Ex.broken_text)) Ex.me)
  = [ConsoleWarn (SyntaxError "Unexpected token");
     ConsoleWarn (SyntaxError "Unexpected token");
     EmitError (SyntaxError "Unexpected token"); EndStream;
     Write (JObj [("error", malformed "Invalid action"); ("a", JUndef)]);
     NextTick KPump].
Proof.
  destruct (C5_unparsable_text_is_still_dispatched example_host Ex.me Ex.broken_text
              "Unexpected token" eq_refl eq_refl) as (_ & _ & Hasync & _).
  exact (Hasync eq_refl eq_refl).
Defined.

(** ** Query results on the wire (C6) *)

Lemma getResultsData_from_length versions results :
  forall lastType, length (getResultsData_from lastType results versions) = length results.
Proof.
  induction results as [| result rest IH]; intros lastType; simpl; [reflexivity |].
  rewrite IH. reflexivity.
Qed.

Lemma getResultsData_from_lookup versions results :
  forall lastType i result,
    results !! i = Some result ->
    getResultsData_from lastType results versions !! i
    = Some (result_item versions (previous_type_from lastType results i) result).
Proof.
  induction results as [| head rest IH]; intros lastType i result Hi; [discriminate |].
  destruct i as [| j].
  - injection Hi as ->. simpl. unfold result_item. f_equal.
    destruct (strict_eq lastType (r_type result)),
      (negb (truthy versions) || found_nullish (index versions (to_key (r_id result))));
      reflexivity.
  - simpl in Hi. simpl getResultsData_from. rewrite lookup_cons.
    rewrite (IH _ j result Hi). f_equal. f_equal.
    destruct j as [| j']; simpl; [| reflexivity].
    destruct (strict_eq lastType (r_type head)) eqn:E; simpl; [| reflexivity].
    apply strict_eq_true in E. exact E.
Qed.

Lemma has_prop_in props k : has_prop (JObj props) k = true -> In k (map fst props).
Proof.
  unfold has_prop. intros Hk. apply bool_decide_eq_true in Hk. destruct Hk as [x Hx].
  induction props as [| [k' v] rest IH]; [discriminate |].
  simpl in Hx. destruct (String.eqb k' k) eqn:E.
  - apply String.eqb_eq in E. left. exact E.
  - right. apply IH, Hx.
Qed.

Lemma result_item_fields versions previous result :
  let item := result_item versions previous result in
  get_prop item "d" = r_id result
  /\ get_prop item "v" = r_v result
  /\ (has_prop item "data" = true <-> no_prior_version versions (r_id result))
  /\ (has_prop item "data" = true -> get_prop item "data" = r_data result)
  /\ (has_prop item "type" = true <-> strict_eq previous (r_type result) = false)
  /\ (has_prop item "type" = true -> get_prop item "type" = r_type result)
  /\ (forall k, has_prop item k = true -> In k ["d"; "v"; "type"; "data"]).
Proof.
  unfold result_item, no_prior_version.
  destruct (strict_eq previous (r_type result)) eqn:Etype;
    destruct (truthy versions) eqn:Ev;
    destruct (found_nullish (index versions (to_key (r_id result)))) eqn:En;
    cbn [negb orb app];
    (repeat split;
     [ .. | intros k Hk; apply has_prop_in in Hk; cbn [map fst] in Hk; cbn [In] in *; tauto ]);
    try reflexivity; try (intros; discriminate); auto;
    try (intros [? | ?]; discriminate).
Qed.

(** On a type that is a name, [!==] is difference. *)
Lemma strict_eq_differs a b :
  primitive b = true -> strict_eq a b = false <-> a <> b.
Proof.
  intros Hb. split.
  - intros Hne ->. rewrite strict_eq_refl in Hne by exact Hb. discriminate.
  - intros Hne. destruct (strict_eq a b) eqn:E; [| reflexivity].
    apply strict_eq_true in E. contradiction.
Qed.



(** The client holds version 1 of [fred] and nothing of the document
    called [constructor]; the data of [constructor] is left out all the
    same, since [versions['constructor']] is a function. *)
Example data_of_constructor_is_left_out :
  getResultsData [mkRow (JStr "constructor") (JNum 3) (JStr "T") (JStr "D")]
                 (JObj [("fred", JNum 1)])
  = [JObj [("d", JStr "constructor"); ("v", JNum 3); ("type", JStr "T")]].
Proof. reflexivity. Qed.

(** ** Catching a query's documents up (C7) *)

Lemma index_own props k x : index (JObj props) k = Own x <-> assoc k props = Some x.
Proof.
  simpl. destruct (assoc k props) as [y |].
  - split; intros [= ->]; reflexivity.
  - destruct (inherited k); split; discriminate.
Qed.

Lemma assign_elsewhere v k x : k <> "__proto__" -> assign v k x = set_prop v k x.
Proof.
  intros Hk. unfold assign. destruct (String.eqb k "__proto__") eqn:E; [| reflexivity].
  apply String.eqb_eq in E. contradiction.
Qed.

(** What the loop of [getResultsOpsRequest] builds, for a versions map
    that is a plain object with no entry called [__proto__]. *)
Lemma getResultsOpsRequest_from_spec H props results :
  assoc "__proto__" props = None ->
  forall request,
    (request = JUndef \/ exists entries, request = JObj entries) ->
    (forall k x, assoc k (entries_of request) = Some x -> assoc k props = Some x) ->
    let final := getResultsOpsRequest_from H request results (JObj props) in
    (final = JUndef \/ exists entries, final = JObj entries)
    /\ (truthy final = true <->
        truthy request = true
        \/ exists result, In result results /\ needs_catch_up H (JObj props) result)
    /\ (forall k x,
           assoc k (entries_of final) = Some x <->
           assoc k props = Some x
           /\ (is_Some (assoc k (entries_of request))
               \/ exists result,
                    In result results /\ to_key (r_id result) = k
                    /\ needs_catch_up H (JObj props) result)).
Proof.
  intros Hproto.
  induction results as [| result rest IH]; intros request Hshape Hvals;
    cbn [getResultsOpsRequest_from].
  - split; [exact Hshape |]. split.
    + split; [auto | intros [Ht | (r & [] & _)]; exact Ht].
    + intros k x. split.
      * intros Hk. split; [apply Hvals, Hk |]. left. eauto.
      * intros (Hx & [[y Hy] | (r & [] & _)]). rewrite Hy. f_equal.
        apply Hvals in Hy. congruence.
  - set (key := to_key (r_id result)).
    assert (Hskip : ~ needs_catch_up H (JObj props) result ->
              let final := getResultsOpsRequest_from H request rest (JObj props) in
              (final = JUndef \/ exists entries, final = JObj entries)
              /\ (truthy final = true <->
                  truthy request = true
                  \/ exists r, In r (result :: rest) /\ needs_catch_up H (JObj props) r)
              /\ (forall k x,
                     assoc k (entries_of final) = Some x <->
                     assoc k props = Some x
                     /\ (is_Some (assoc k (entries_of request))
                         \/ exists r,
                              In r (result :: rest) /\ to_key (r_id r) = k
                              /\ needs_catch_up H (JObj props) r))).
    { intros Hthis. specialize (IH request Hshape Hvals).
      destruct IH as (IHshape & IHtruthy & IHentries).
      split; [exact IHshape |]. split.
      * rewrite IHtruthy. split; (intros [Ht | (r & Hin & Hr)]; [left; exact Ht |]).
        -- right. exists r. split; [right; exact Hin | exact Hr].
        -- destruct Hin as [<- | Hin]; [contradiction |]. right. eauto.
      * intros k x. rewrite IHentries.
        split; intros (Hx & Hwhy); (split; [exact Hx |]);
          (destruct Hwhy as [Hacc | (r & Hin & Hk & Hr)]; [left; exact Hacc |]).
        -- right. exists r. split; [right; exact Hin | auto].
        -- destruct Hin as [<- | Hin]; [contradiction |]. right. exists r. auto. }
    destruct (index (JObj props) key) as [from | |] eqn:Hindex.
    2, 3: apply Hskip; intros (from & Hfrom & _); fold key in Hfrom; congruence.
    destruct (negb (nullish from) && js_gt H (r_v result) from) eqn:Hneed.
    2: { apply Hskip. intros (from' & Hfrom & Hnn & Hgt). fold key in Hfrom.
         assert (from' = from) by congruence. subst from'.
         rewrite Hnn, Hgt in Hneed. discriminate. }
    clear Hskip.
    apply andb_true_iff in Hneed. destruct Hneed as [Hnn Hgt].
    apply negb_true_iff in Hnn.
    assert (Hthis : needs_catch_up H (JObj props) result)
      by (exists from; repeat split; assumption).
    apply index_own in Hindex.
    assert (Hkey : key <> "__proto__") by (intros E; rewrite E in Hindex; congruence).
    rewrite assign_elsewhere by exact Hkey.
    set (base := if truthy request then request else JObj []).
    assert (Hbase : exists entries, base = JObj entries /\ entries_of request = entries).
    { subst base. destruct Hshape as [-> | [entries ->]]; simpl; eauto. }
    destruct Hbase as (entries & Hbase & Hentries). rewrite Hbase.
    specialize (IH (set_prop (JObj entries) key from)).
    destruct IH as (IHshape & IHtruthy & IHentries).
    { right. simpl. eauto. }
    { intros k x. simpl.
      destruct (decide (key = k)) as [<- | Hne].
      - rewrite assoc_set_same. intros [= <-]. exact Hindex.
      - rewrite assoc_set_other by exact Hne. rewrite <- Hentries. apply Hvals. }
    split; [exact IHshape |]. split.
    * split; [intros _ | intros _; apply IHtruthy; left; reflexivity].
      right. exists result. split; [left; reflexivity | exact Hthis].
    * intros k x. rewrite IHentries. simpl entries_of. rewrite Hentries.
      split; intros (Hx & Hwhy); (split; [exact Hx |]).
      -- destruct Hwhy as [Hacc | (r & Hin & Hk & Hr)].
         ++ destruct (decide (key = k)) as [<- | Hne].
            ** right. exists result. split; [left; reflexivity | auto].
            ** rewrite assoc_set_other in Hacc by exact Hne. left. exact Hacc.
         ++ right. exists r. split; [right; exact Hin | auto].
      -- destruct Hwhy as [Hacc | (r & [<- | Hin] & Hk & Hr)].
         ++ left. destruct (decide (key = k)) as [<- | Hne].
            ** rewrite assoc_set_same. eauto.
            ** rewrite assoc_set_other by exact Hne. exact Hacc.
         ++ left. fold key in Hk. rewrite <- Hk, assoc_set_same. eauto.
         ++ right. exists r. auto.
Qed.

Lemma onGetOpsBulk_success req collection res err results ag :
  truthy err = false ->
  closed ag = false ->
  Forall (fun entry => Forall (fun o => nullish o = false) (snd entry)) results ->
  onGetOpsBulk req collection res err results ag
  = (Normal tt, ag,
     flat_map (fun entry =>
                 map (fun o => Write (op_push collection (JStr (fst entry)) o)) (snd entry))
              results
     ++ [Write (framed req (js_or res (JObj [])))]).
Proof.
  intros Herr Hc Hops. unfold onGetOpsBulk. rewrite Herr.
  erewrite bind_normal.
  2:{ apply for_each_pure_Forall. eapply Forall_impl; [exact Hops |].
      intros entry Hentry. simpl. apply for_each_sendOp; assumption. }
  rewrite _reply_open by exact Hc. reflexivity.
Qed.

(** Where the versions map has no entry called [__proto__], the code
    does what the specification asks.  A query fetch came with a
    versions map, and the Backend has returned [results].  (a) The ops
    request holds, for a key [k], exactly [versions[k]], and it holds
    one for [k] exactly when [k] is the id of a result whose
    [versions[id]] is neither null nor undefined and whose [v] is
    greater.  (b) If there is such a result, the callback of the fetch
    calls [getOpsBulk] with that request and writes nothing yet; when
    the call succeeds, every returned op is written as an op push, and
    the query reply after them.  (c) If there is none, the request is
    [undefined] and the callback replies at once, without a Backend
    call.  A query subscribe does the same once it has registered the
    emitter. *)
Lemma query_catch_up (H : host) (req err extra : jsval) (props : list (string * jsval))
    (em : emitter) (results : list row) (ag : Agent) :
  get_prop req "vs" = JObj props ->
  assoc "__proto__" props = None ->
  truthy err = false ->
  let versions := JObj props in
  let collection := get_prop req "c" in
  let options := getQueryOptions req in
  let opsRequest := getResultsOpsRequest H results versions in
  let res := query_reply (get_prop req "id") results versions extra in
  let fetched := step H (Answer (KQueryFetch req options) (AnsQueryFetch err results extra))
                      ag in
  (forall k x,
      assoc k (entries_of opsRequest) = Some x <->
      assoc k props = Some x
      /\ exists result,
           In result results /\ to_key (r_id result) = k
           /\ needs_catch_up H versions result)
  /\ ((exists result, In result results /\ needs_catch_up H versions result) ->
      fetched = (Normal tt, ag,
                 [Backend (CallGetOpsBulk collection opsRequest)
                          (KGetOpsBulk req collection res)])
      /\ forall ag' err' returned,
           truthy err' = false ->
           closed ag' = false ->
           Forall (fun entry => Forall (fun o => nullish o = false) (snd entry)) returned ->
           step H (Answer (KGetOpsBulk req collection res) (AnsGetOpsBulk err' returned)) ag'
           = (Normal tt, ag',
              flat_map (fun entry =>
                          map (fun o => Write (op_push collection (JStr (fst entry)) o))
                              (snd entry))
                       returned
              ++ [Write (framed req res)]))
  /\ (~ (exists result, In result results /\ needs_catch_up H versions result) ->
      opsRequest = JUndef
      /\ fetched = _reply req JNull res ag
      /\ (closed ag = false -> fetched = (Normal tt, ag, [Write (framed req res)])))
  /\ step H (Answer (KQuerySubscribe req options) (AnsQuerySubscribe err em results extra)) ag
     = (_subscribeToQuery em (get_prop req "id") collection (get_prop req "q") ;;
        step H (Answer (KQueryFetch req options) (AnsQueryFetch err results extra))) ag.
Proof.
  intros Hvs Hproto Herr versions collection options opsRequest res fetched.
  destruct (getResultsOpsRequest_from_spec H props results Hproto JUndef)
    as (Hshape & Htruthy & Hentries).
  { left. reflexivity. }
  { intros k x Hk. discriminate Hk. }
  cbv zeta in Hshape, Htruthy, Hentries.
  change (getResultsOpsRequest_from H JUndef results (JObj props)) with opsRequest
    in Hshape, Htruthy, Hentries.
  assert (Hfetched : fetched
                     = _sendQueryResults H req (get_prop req "id") collection options
                         results extra ag).
  { subst fetched. simpl. unfold onQueryFetch. rewrite Herr. reflexivity. }
  assert (Hsend : _sendQueryResults H req (get_prop req "id") collection options
                    results extra ag
                  = if negb (truthy opsRequest) then _reply req JNull res ag
                    else emit (Backend (CallGetOpsBulk collection opsRequest)
                                       (KGetOpsBulk req collection res)) ag).
  { unfold _sendQueryResults.
    change (get_prop options "versions") with (get_prop req "vs"). rewrite Hvs.
    fold versions. fold opsRequest. fold res.
    destruct (negb (truthy opsRequest)); reflexivity. }
  split; [| split; [| split]].
  - intros k x. rewrite Hentries. split; intros (Hx & Hwhy); (split; [exact Hx |]).
    + destruct Hwhy as [[y Hy] | Hex]; [discriminate Hy | exact Hex].
    + right. exact Hwhy.
  - intros Hsome.
    assert (Ht : truthy opsRequest = true) by (apply Htruthy; right; exact Hsome).
    split.
    + rewrite Hfetched, Hsend, Ht. reflexivity.
    + intros ag' err' returned Herr' Hc Hops. simpl.
      rewrite onGetOpsBulk_success by assumption. reflexivity.
  - intros Hnone.
    assert (Ht : truthy opsRequest = false).
    { apply not_true_is_false. intros E.
      apply Htruthy in E. destruct E as [E | E]; [discriminate E | contradiction]. }
    assert (Hsent : fetched = _reply req JNull res ag).
    { rewrite Hfetched, Hsend, Ht. reflexivity. }
    split; [| split; [exact Hsent |]].
    + destruct Hshape as [E | [entries E]]; [exact E |]. rewrite E in Ht. discriminate Ht.
    + intros Hc. rewrite Hsent, _reply_open by exact Hc. reflexivity.
  - simpl. unfold onQuerySubscribe, onQueryFetch. rewrite Herr. reflexivity.
Qed.

Example catch_up_of_a :
  getResultsOpsRequest example_host Ex.results_ab Ex.versions_ab = JObj [("a", JNum 1)]
  /\ effects_of (step example_host
                   (Answer (KQueryFetch Ex.qsub_ab (getQueryOptions Ex.qsub_ab))
                           (AnsQueryFetch JNull Ex.results_ab JNull))
                   Ex.me)
     = [Backend (CallGetOpsBulk (JStr "c") (JObj [("a", JNum 1)]))
                (KGetOpsBulk Ex.qsub_ab (JStr "c")
                   (query_reply (JNum 7) Ex.results_ab Ex.versions_ab JNull))].
Proof.
  destruct (query_catch_up example_host Ex.qsub_ab JNull JNull
              [("a", JNum 1); ("b", JNum 2)] Ex.emitter7 Ex.results_ab Ex.me
              eq_refl eq_refl eq_refl)
    as (_ & Hsome & _).
  destruct Hsome as [Hsent _].
  - exists (mkRow (JStr "a") (JNum 3) (JStr "T") (JStr "D1")).
    split; [left; reflexivity |]. exists (JNum 1). repeat split; reflexivity.
  - split; [reflexivity |]. rewrite Hsent. reflexivity.
Qed.

(** C7, where the code departs from it.  The client holds version
    [from] of the document called [__proto__] and says so in its
    versions map; the Backend returns that document at a later version
    [v].  The result needs catching up, but [request['__proto__'] =
    from] does not make an entry: on a plain object it is the setter of
    [Object.prototype] that runs, and for a number it does nothing.
    The request stays [{}], which is truthy: the callback of the fetch
    calls [getOpsBulk] with a request that names no document, and the
    ops the client misses are never asked for.  The callback of a
    subscribe does the same once it has registered the emitter. *)
Theorem C7_catch_up_for_proto_is_lost (H : host) (req err extra type data : jsval)
    (props : list (string * jsval)) (from v : Z) (ag : Agent) :
  get_prop req "vs" = JObj props ->
  assoc "__proto__" props = Some (JNum from) ->
  from < v ->
  truthy err = false ->
  let versions := JObj props in
  let result := mkRow (JStr "__proto__") (JNum v) type data in
  let collection := get_prop req "c" in
  needs_catch_up H versions result
  /\ getResultsOpsRequest H [result] versions = JObj []
  /\ step H (Answer (KQueryFetch req (getQueryOptions req))
                    (AnsQueryFetch err [result] extra)) ag
     = (Normal tt, ag,
        [Backend (CallGetOpsBulk collection (JObj []))
                 (KGetOpsBulk req collection
                    (query_reply (get_prop req "id") [result] versions extra))])
  /\ (forall em,
         closed ag = false ->
         is_typeof (get_prop req "id") "number" = true ->
         let r := step H (Answer (KQuerySubscribe req (getQueryOptions req))
                                 (AnsQuerySubscribe err em [result] extra)) ag in
         outcome_of r = Normal tt
         /\ subscribedQueries (agent_of r) !! to_key (get_prop req "id") = Some em
         /\ effects_of r
            = match subscribedQueries ag !! to_key (get_prop req "id") with
              | Some previous => [DestroyEmitter (em_handle previous)]
              | None => []
              end
              ++ [Backend (CallGetOpsBulk collection (JObj []))
                          (KGetOpsBulk req collection
                             (query_reply (get_prop req "id") [result] versions extra))]).
Proof.
  intros Hvs Hproto Hlt Herr versions result collection.
  assert (Hindex : index versions "__proto__" = Own (JNum from))
    by (apply index_own; exact Hproto).
  assert (Hgt : js_gt H (JNum v) (JNum from) = true).
  { simpl. apply Z.gtb_lt. exact Hlt. }
  assert (Hrequest : getResultsOpsRequest H [result] versions = JObj []).
  { unfold getResultsOpsRequest. cbn [truthy versions negb getResultsOpsRequest_from].
    cbn [r_id r_v result to_key]. rewrite Hindex, Hgt. reflexivity. }
  assert (Hsend : forall ag',
             _sendQueryResults H req (get_prop req "id") collection (getQueryOptions req)
               [result] extra ag'
             = (Normal tt, ag',
                [Backend (CallGetOpsBulk collection (JObj []))
                         (KGetOpsBulk req collection
                            (query_reply (get_prop req "id") [result] versions extra))])).
  { intros ag'. unfold _sendQueryResults.
    change (get_prop (getQueryOptions req) "versions") with (get_prop req "vs").
    rewrite Hvs. fold versions. rewrite Hrequest. reflexivity. }
  split; [| split; [exact Hrequest | split]].
  - exists (JNum from). repeat split; assumption.
  - simpl. unfold onQueryFetch. rewrite Herr. apply Hsend.
  - intros em Hc _ r. subst r. simpl. unfold onQuerySubscribe. rewrite Herr.
    assert (Hq : _subscribeToQuery em (get_prop req "id") (get_prop req "c")
                   (get_prop req "q") ag
                 = (Normal tt,
                    set_subscribedQueries
                      (<[to_key (get_prop req "id") := em]> (subscribedQueries ag)) ag,
                    match subscribedQueries ag !! to_key (get_prop req "id") with
                    | Some previous => [DestroyEmitter (em_handle previous)]
                    | None => []
                    end)).
    { unfold _subscribeToQuery. unfold_m. rewrite Hc.
      destruct (subscribedQueries ag !! to_key (get_prop req "id")); reflexivity. }
    erewrite bind_normal by exact Hq. fold collection. rewrite Hsend.
    rewrite effects_of_triple, agent_of_triple.
    split; [reflexivity |]. split; [| reflexivity].
    simpl. apply lookup_insert_eq.
Qed.

Lemma C7_witness :
  step example_host
    (Answer (KQueryFetch Ex.qfetch_proto (getQueryOptions Ex.qfetch_proto))
            (AnsQueryFetch JNull [mkRow (JStr "__proto__") (JNum 2) (JStr "T") (JStr "D")]
                           JNull))
    Ex.me
  = (Normal tt, Ex.me,
     [Backend (CallGetOpsBulk (JStr "users") (JObj []))
              (KGetOpsBulk Ex.qfetch_proto (JStr "users")
                 (query_reply (JNum 7)
                    [mkRow (JStr "__proto__") (JNum 2) (JStr "T") (JStr "D")]
                    (JObj [("__proto__", JNum 1)]) JNull))]).
Proof.
  destruct (C7_catch_up_for_proto_is_lost example_host Ex.qfetch_proto JNull JNull
              (JStr "T") (JStr "D") [("__proto__", JNum 1)] 1 2 Ex.me
              eq_refl eq_refl eq_refl eq_refl) as (_ & _ & Hcall & _).
  exact Hcall.
Defined.

(** ** Validation of bulk subscribes (C8) *)

Lemma action_is req a : is_action req a = true -> get_prop req "a" = JStr a.
Proof. unfold is_action. intros Ha. apply strict_eq_true in Ha. exact Ha. Qed.

(** Settles the comparisons of the action tag of a request, once the
    tag is known. *)
Ltac decide_actions Ha :=
  unfold is_action; rewrite (action_is _ _ Ha);
  repeat match goal with
         | |- context [strict_eq (JStr ?a) (JStr ?b)] =>
             let v := eval vm_compute in (strict_eq (JStr a) (JStr b)) in
             change (strict_eq (JStr a) (JStr b)) with v
         end;
  cbv iota.

(** A message that arrives structured goes to [_handleMessage] as it is. *)
Lemma pump_structured H read ag :
  closed ag = false -> nullish read = false -> typeof read <> "string" ->
  pump H read ag = (_handleMessage read ;; emit (NextTick KPump)) ag.
Proof.
  intros Hc Hn Hs. unfold pump. erewrite bind_pure by reflexivity. rewrite Hc, Hn.
  destruct read; try (rewrite bind_ret_l; reflexivity).
  exfalso. apply Hs. reflexivity.
Qed.

Lemma action_not_text req a : is_action req a = true -> typeof req <> "string".
Proof.
  intros Ha. apply action_is in Ha. destruct req; try discriminate.
  rewrite text_has_no_action in Ha. discriminate Ha.
Qed.

Lemma action_not_nullish req a : is_action req a = true -> nullish req = false.
Proof. intros Ha. apply action_is in Ha. destruct req; try reflexivity; discriminate Ha. Qed.

(** A request that reached [pump] with an action tag is handled by
    [_handleMessage]. *)
Lemma step_request H req a ag :
  closed ag = false -> is_action req a = true ->
  step H (Readable req) ag = (_handleMessage req ;; emit (NextTick KPump)) ag.
Proof.
  intros Hc Ha. simpl. apply pump_structured; [exact Hc | |].
  - eapply action_not_nullish, Ha.
  - eapply action_not_text, Ha.
Qed.

(** What validation does reject: an [s] whose [typeof] is not
    ["object"] gets error 4000 and no Backend call. *)
Lemma bs_rejected H req ag :
  closed ag = false -> is_action req "bs" = true ->
  is_typeof (get_prop req "s") "object" = false ->
  effects_of (step H (Readable req) ag)
  = [Write (error_reply req (malformed "Invalid bulk subscribe data")); NextTick KPump].
Proof.
  intros Hc Ha Hs. rewrite (step_request H req "bs") by assumption.
  assert (Hcheck : _checkRequest req = JStr "Invalid bulk subscribe data").
  { unfold _checkRequest, is_action. rewrite (action_is _ _ Ha). simpl. rewrite Hs.
    reflexivity. }
  erewrite bind_normal.
  2:{ unfold _handleMessage. erewrite bind_pure
        by (apply deref_ok; eapply action_not_nullish, Ha).
      rewrite Hcheck. simpl truthy. cbv iota. apply _reply_open, Hc. }
  reflexivity.
Qed.

Lemma map_imap {A B C : Type} (g : B -> C) (l : list A) :
  forall f : nat -> A -> B, map g (imap f l) = imap (fun i x => g (f i x)) l.
Proof.
  induction l as [| x l IH]; intros f; [reflexivity |].
  rewrite !imap_cons. simpl. f_equal. apply IH.
Qed.

Lemma _bulkSubscribe_effects req ag :
  closed ag = false ->
  effects_of (_bulkSubscribe req ag)
  = map (fun entry => Backend (CallSubscribeBulk (fst entry) (snd entry))
                              (KBulkEach (length (bulks ag)) (fst entry)))
        (forEachOf_entries (get_prop req "s"))
    ++ (if bool_decide (forEachOf_entries (get_prop req "s") = [])
        then [Write (framed req (JObj [("s", JObj [])]))] else []).
Proof.
  intros Hc. unfold _bulkSubscribe.
  erewrite bind_normal by reflexivity.
  erewrite bind_normal by reflexivity.
  erewrite bind_normal by apply for_each_emit_agent.
  destruct (bool_decide (forEachOf_entries (get_prop req "s") = [])).
  - rewrite effects_of_triple. simpl app at 1.
    unfold onBulkFinal. change (truthy JNull) with false. cbv iota.
    rewrite _reply_open by exact Hc. reflexivity.
  - reflexivity.
Qed.

(** C8, where the code departs from it.  [typeof null] is ["object"],
    and so is [typeof] of an array: a bulk subscribe whose [s] is
    [null] or an array passes validation and reaches [_bulkSubscribe].
    For [null] the Agent answers with the success reply [{s: {}}], not
    with error 4000; for an array it calls [subscribeBulk] once per
    element, the element's index serving as the collection. *)
Theorem C8_null_and_arrays_pass_validation (H : host) (ag : Agent) (req : jsval) :
  closed ag = false ->
  is_action req "bs" = true ->
  (get_prop req "s" = JNull ->
   _checkRequest req = JUndef
   /\ effects_of (step H (Readable req) ag)
      = [Write (framed req (JObj [("s", JObj [])])); NextTick KPump])
  /\ (forall item items,
         get_prop req "s" = JArr (item :: items) ->
         _checkRequest req = JUndef
         /\ effects_of (step H (Readable req) ag)
            = imap (fun i x => Backend (CallSubscribeBulk (JNum (Z.of_nat i)) x)
                                      (KBulkEach (length (bulks ag)) (JNum (Z.of_nat i))))
                   (item :: items)
              ++ [NextTick KPump]).
Proof.
  intros Hc Ha.
  assert (Hpass : is_typeof (get_prop req "s") "object" = true ->
                  _checkRequest req = JUndef
                  /\ effects_of (step H (Readable req) ag)
                     = effects_of (_bulkSubscribe req ag) ++ [NextTick KPump]).
  { intros Hs.
    assert (Hcheck : _checkRequest req = JUndef).
    { unfold _checkRequest, is_action. rewrite (action_is _ _ Ha). simpl. rewrite Hs.
      reflexivity. }
    split; [exact Hcheck |].
    rewrite (step_request H req "bs") by assumption.
    assert (Hhandle : _handleMessage req ag = _bulkSubscribe req ag).
    { unfold _handleMessage. erewrite bind_pure
        by (apply deref_ok; eapply action_not_nullish, Ha).
      rewrite Hcheck. unfold is_action. rewrite (action_is _ _ Ha). reflexivity. }
    unfold_m. rewrite Hhandle.
    destruct (_bulkSubscribe req ag) as [[[[] | e |] ag1] t1] eqn:E;
      [reflexivity | exfalso ..];
      revert E; unfold _bulkSubscribe;
      (erewrite bind_normal by reflexivity);
      (erewrite bind_normal by reflexivity);
      (erewrite bind_normal by apply for_each_emit_agent);
      (destruct (bool_decide _); [| discriminate]);
      unfold onBulkFinal; change (truthy JNull) with false; cbv iota;
      (rewrite _reply_open by exact Hc); discriminate. }
  split.
  - intros Hs. rewrite Hs in Hpass. destruct (Hpass eq_refl) as [Hcheck Heff].
    split; [exact Hcheck |]. rewrite Heff, _bulkSubscribe_effects by exact Hc.
    rewrite Hs. reflexivity.
  - intros item items Hs. rewrite Hs in Hpass. destruct (Hpass eq_refl) as [Hcheck Heff].
    split; [exact Hcheck |]. rewrite Heff, _bulkSubscribe_effects by exact Hc.
    rewrite Hs. unfold forEachOf_entries. rewrite map_imap.
    rewrite bool_decide_eq_false_2 by (rewrite imap_cons; discriminate).
    rewrite app_nil_r. reflexivity.
Qed.

Lemma C8_witness :
  effects_of (step example_host (Readable Ex.bs_null) Ex.me)
  = [Write (JObj [("s", JObj []); ("a", JStr "bs")]); NextTick KPump]
  /\ effects_of (step example_host (Readable Ex.bs_array) Ex.me)
     = [Backend (CallSubscribeBulk (JNum 0) (JStr "x")) (KBulkEach 0 (JNum 0));
        NextTick KPump].
Proof.
  split.
  - destruct (C8_null_and_arrays_pass_validation example_host Ex.me Ex.bs_null
                eq_refl eq_refl) as [Hnull _].
    destruct (Hnull eq_refl) as [_ Heff]. exact Heff.
  - destruct (C8_null_and_arrays_pass_validation example_host Ex.me Ex.bs_array
                eq_refl eq_refl) as [_ Harr].
    destruct (Harr (JStr "x") [] eq_refl) as [_ Heff]. exact Heff.
Defined.

(** ** The error of a resubscribe to an unknown query (C9) *)

Lemma _handleMessage_valid req ag :
  nullish req = false -> _checkRequest req = JUndef ->
  _handleMessage req ag
  = (if is_action req "qsub" then _querySubscribe req
     else if is_action req "qresub" then _queryResubscribe req
     else if is_action req "qunsub" then _queryUnsubscribe req
     else if is_action req "qfetch" then _queryFetch req
     else if is_action req "bs" then _bulkSubscribe req
     else if is_action req "sub" then _subscribe req
     else if is_action req "unsub" then _unsubscribe req
     else if is_action req "fetch" then _fetch req
     else if is_action req "op" then _submit req
     else _reply req (malformed "Invalid or unknown message") JUndef) ag.
Proof.
  intros Hn Hcheck. unfold _handleMessage.
  erewrite bind_pure by (apply deref_ok; exact Hn). rewrite Hcheck. reflexivity.
Qed.

(** C9, where the code departs from it.  A [qresub] whose query id has
    no emitter registered passes validation and is answered with the
    error object [{message: "Can not find query to resubscribe"}]:
    it has a message and no [code] field at all, unlike the errors of
    validation, which carry code 4000. *)
Theorem C9_resubscribe_error_has_no_code (H : host) (ag : Agent) (req : jsval) :
  closed ag = false ->
  is_action req "qresub" = true ->
  is_typeof (get_prop req "id") "number" = true ->
  subscribedQueries ag !! to_key (get_prop req "id") = None ->
  let err := JObj [("message", JStr "Can not find query to resubscribe")] in
  effects_of (step H (Readable req) ag) = [Write (error_reply req err); NextTick KPump]
  /\ get_prop (error_reply req err) "error" = err
  /\ has_prop err "code" = false
  /\ typeof (get_prop err "code") = "undefined".
Proof.
  intros Hc Ha Hid Hnone err.
  split; [| split; [| split; reflexivity]].
  - rewrite (step_request H req "qresub") by assumption.
    assert (Hcheck : _checkRequest req = JUndef).
    { unfold _checkRequest, is_action. rewrite (action_is _ _ Ha). simpl. rewrite Hid.
      reflexivity. }
    erewrite bind_normal.
    2:{ rewrite _handleMessage_valid
          by (try exact Hcheck; eapply action_not_nullish, Ha).
        decide_actions Ha.
        unfold _queryResubscribe. erewrite bind_pure by reflexivity.
        rewrite Hnone. apply _reply_open, Hc. }
    reflexivity.
  - unfold error_reply. rewrite framed_keeps by discriminate. reflexivity.
Qed.

Lemma C9_witness :
  effects_of (step example_host (Readable Ex.qresub7) Ex.me)
  = [Write (JObj [("error", JObj [("message", JStr "Can not find query to resubscribe")]);
                  ("a", JStr "qresub"); ("id", JNum 7)]);
     NextTick KPump].
Proof.
  destruct (C9_resubscribe_error_has_no_code example_host Ex.me Ex.qresub7
              eq_refl eq_refl eq_refl) as [Heff _].
  - vm_compute. reflexivity.
  - exact Heff.
Defined.

(** ** Submits that carry no op (C10) *)

(** C10 as amended.  A submit request that has none of the fields
    [op], [create] and [del], and whose [c] and [d] are absent or
    strings and whose [v] is absent or a number not below zero, passes
    validation; [_createOp] makes no op for it; and the Agent calls
    [Backend.submit] with [undefined] in the place of the op (and
    writes nothing to the client). *)
Theorem C10_submit_without_op_reaches_backend (H : host) (ag : Agent) (req : jsval) :
  closed ag = false ->
  is_action req "op" = true ->
  get_prop req "op" = JUndef ->
  get_prop req "create" = JUndef ->
  get_prop req "del" = JUndef ->
  nullish (get_prop req "c") = true \/ is_typeof (get_prop req "c") "string" = true ->
  nullish (get_prop req "d") = true \/ is_typeof (get_prop req "d") "string" = true ->
  nullish (get_prop req "v") = true
  \/ (is_typeof (get_prop req "v") "number" = true /\ negative (get_prop req "v") = false) ->
  _checkRequest req = JUndef
  /\ _createOp ag req = JUndef
  /\ effects_of (step H (Readable req) ag)
     = [Backend (CallSubmit (get_prop req "c") (get_prop req "d") JUndef)
                (KSubmit req JUndef);
        NextTick KPump].
Proof.
  intros Hc Ha Hop Hcreate Hdel Hcol Hdoc Hver.
  assert (Hcheck : _checkRequest req = JUndef).
  { unfold _checkRequest, is_action. rewrite (action_is _ _ Ha). simpl.
    destruct Hcol as [-> | ->], Hdoc as [-> | ->], Hver as [-> | [-> ->]];
      simpl; rewrite ?andb_false_r; reflexivity. }
  assert (Hnone : _createOp ag req = JUndef).
  { apply _createOp_nothing; [rewrite Hop | rewrite Hcreate | rewrite Hdel]; reflexivity. }
  split; [exact Hcheck |]. split; [exact Hnone |].
  rewrite (step_request H req "op") by assumption.
  erewrite bind_normal.
  2:{ rewrite _handleMessage_valid
        by (try exact Hcheck; eapply action_not_nullish, Ha).
      decide_actions Ha.
      unfold _submit. erewrite bind_pure by reflexivity. rewrite Hnone. reflexivity. }
  reflexivity.
Qed.

Lemma C10_witness :
  effects_of (step example_host (Readable Ex.op_nothing) Ex.me)
  = [Backend (CallSubmit (JStr "users") (JStr "fred") JUndef) (KSubmit Ex.op_nothing JUndef);
     NextTick KPump].
Proof.
  destruct (C10_submit_without_op_reaches_backend example_host Ex.me Ex.op_nothing
              eq_refl eq_refl eq_refl eq_refl eq_refl)
    as (_ & _ & Heff).
  - right. reflexivity.
  - right. reflexivity.
  - right. split; reflexivity.
  - exact Heff.
Defined.

(** C10 as stated fails: this submit request has none of [op],
    [create], [del], and validation turns it down with error 4000,
    for its negative version; the Backend is not called. *)
Lemma C10_counterexample :
  is_action Ex.op_negative_version "op" = true
  /\ has_prop Ex.op_negative_version "op" = false
  /\ has_prop Ex.op_negative_version "create" = false
  /\ has_prop Ex.op_negative_version "del" = false
  /\ _checkRequest Ex.op_negative_version = JStr "Invalid version"
  /\ effects_of (step example_host (Readable Ex.op_negative_version) Ex.me)
     = [Write (JObj [("error", malformed "Invalid version"); ("a", JStr "op")]);
        NextTick KPump].
Proof. repeat split; vm_compute; reflexivity. Qed.

(** ** Two scenarios of the specification, run *)

(** Subscribe, submit, and the own op echoed on the DocStream: the
    client gets the subscribe reply with the snapshot and the
    acknowledgement, and no op push. *)
Example scenario_own_op_filtering :
  filter (fun e => is_write e)
    (snd (run example_host
            [ Readable Ex.sub_fred;
              Answer (KSubscribe Ex.sub_fred) (AnsSubscribe JNull 1%nat Ex.snapshot_fred);
              Readable Ex.op_edit;
              Answer (KSubmit Ex.op_edit Ex.my_op) (AnsSubmit JNull [] Ex.my_op);
              DocData (JStr "users") (JStr "fred") Ex.echoed_op ]
            Ex.me))
  = [ Write (JObj [("data", Ex.snapshot_fred); ("a", JStr "sub"); ("c", JStr "users");
                   ("d", JStr "fred")]);
      Write (JObj [("src", JStr "me"); ("seq", JNum 1); ("v", JNum 5); ("a", JStr "op");
                   ("c", JStr "users"); ("d", JStr "fred")]) ].
Proof. vm_compute. reflexivity. Qed.

(** The same submit answered with "Op already submitted": the
    acknowledgement is still delivered. *)
Example scenario_duplicate_submit :
  effects_of (step example_host
                (Answer (KSubmit Ex.op_edit Ex.my_op)
                        (AnsSubmit Ex.already_submitted [] Ex.my_op))
                Ex.me)
  = [ Write (JObj [("src", JStr "me"); ("seq", JNum 1); ("v", JNum 5); ("a", JStr "op");
                   ("c", JStr "users"); ("d", JStr "fred")]) ].
Proof. vm_compute. reflexivity. Qed.

(** * Further properties of the Agent *)

(** ** The life cycle: [_send], [_cleanup], [close] *)

(** X1.  Once the Agent is closed, whatever happens next (messages
    read, Backend callbacks, stream and query events, ticks) leaves it
    closed and writes nothing to the client. *)
Theorem X1_closed_agent_stays_closed_and_silent (H : host) (evs : list event) (ag : Agent) :
  closed ag = true ->
  closed (fst (run H evs ag)) = true
  /\ forall msg, ~ In (Write msg) (snd (run H evs ag)).
Proof.
  revert ag. induction evs as [| ev evs IH]; intros ag Hc; simpl.
  - split; [exact Hc | intros msg []].
  - destruct (closed_agent_is_mute H ev ag Hc) as [Hc1 Hquiet].
    destruct (IH _ Hc1) as [Hc2 Hrest].
    split; [exact Hc2 |].
    intros msg Hin. apply in_app_or in Hin. destruct Hin as [Hin | Hin].
    + exact (Hquiet msg Hin).
    + exact (Hrest msg Hin).
Qed.

Lemma X1_witness :
  closed (fst (run example_host
                 [Readable Ex.sub_fred; DocData (JStr "users") (JStr "fred") Ex.their_op]
                 Ex.ended)) = true
  /\ forall msg,
       ~ In (Write msg)
            (snd (run example_host
                    [Readable Ex.sub_fred; DocData (JStr "users") (JStr "fred") Ex.their_op]
                    Ex.ended)).
Proof.
  apply (X1_closed_agent_stays_closed_and_silent example_host
           [Readable Ex.sub_fred; DocData (JStr "users") (JStr "fred") Ex.their_op]
           Ex.ended).
  vm_compute. reflexivity.
Defined.



Lemma in_map_to_list {V : Type} (m : gmap string V) k v :
  In (k, v) (map_to_list m) <-> m !! k = Some v.
Proof. rewrite <- list_elem_of_In. apply elem_of_map_to_list. Qed.

(** The streams and the emitters [_cleanup] destroys on an open
    Agent, and what else it does. *)
Lemma _cleanup_destroys ag :
  closed ag = false ->
  (forall h, In (DestroyStream h) (effects_of (_cleanup ag))
             <-> exists c d, lookup_doc ag c d = Some h)
  /\ (forall h, In (DestroyEmitter h) (effects_of (_cleanup ag))
                <-> exists q em, subscribedQueries ag !! q = Some em /\ em_handle em = h)
  /\ (forall e, In e (effects_of (_cleanup ag)) ->
                e = RemoveReadable \/ (exists h, e = DestroyStream h)
                \/ (exists h, e = DestroyEmitter h)).
Proof.
  intros Hc. rewrite _cleanup_eq, Hc. rewrite effects_of_triple.
  set (streams := flat_map (fun entry : string * gmap string handle =>
                     map (fun doc : string * handle => DestroyStream (snd doc))
                         (map_to_list (snd entry)))
                   (map_to_list (subscribedDocs ag))).
  set (emitters := map (fun q : string * emitter => DestroyEmitter (em_handle (snd q)))
                       (map_to_list (subscribedQueries ag))).
  assert (Hstreams : forall e, In e streams <->
             exists c d h, lookup_doc ag c d = Some h /\ e = DestroyStream h).
  { intros e. subst streams. rewrite in_flat_map. split.
    - intros ([c docs] & Hin & He). apply in_map_to_list in Hin.
      apply in_map_iff in He. destruct He as ([d h] & <- & Hd).
      apply in_map_to_list in Hd. exists c, d, h. unfold lookup_doc.
      simpl in *. rewrite Hin. simpl. auto.
    - intros (c & d & h & Hl & ->). unfold lookup_doc in Hl.
      destruct (subscribedDocs ag !! c) as [docs |] eqn:E; [| discriminate].
      simpl in Hl. exists (c, docs). split; [apply in_map_to_list, E |].
      apply in_map_iff. exists (d, h). split; [reflexivity |].
      apply in_map_to_list, Hl. }
  assert (Hemitters : forall e, In e emitters <->
             exists q em, subscribedQueries ag !! q = Some em
                          /\ e = DestroyEmitter (em_handle em)).
  { intros e. subst emitters. rewrite in_map_iff. split.
    - intros ([q em] & <- & Hin). apply in_map_to_list in Hin. exists q, em. auto.
    - intros (q & em & Hl & ->). exists (q, em). split; [reflexivity |].
      apply in_map_to_list, Hl. }
  split; [| split].
  - intros h. split.
    + intros [Habs | Hin]; [discriminate |].
      apply in_app_or in Hin. destruct Hin as [Hin | Hin].
      * apply Hstreams in Hin. destruct Hin as (c & d & h' & Hl & [= ->]). eauto.
      * apply Hemitters in Hin. destruct Hin as (q & em & _ & Habs). discriminate.
    + intros (c & d & Hl). right. apply in_or_app. left. apply Hstreams. eauto.
  - intros h. split.
    + intros [Habs | Hin]; [discriminate |].
      apply in_app_or in Hin. destruct Hin as [Hin | Hin].
      * apply Hstreams in Hin. destruct Hin as (c & d & h' & _ & Habs). discriminate.
      * apply Hemitters in Hin. destruct Hin as (q & em & Hl & [= ->]). eauto.
    + intros (q & em & Hl & <-). right. apply in_or_app. right. apply Hemitters. eauto.
  - intros e [<- | Hin]; [left; reflexivity |].
    apply in_app_or in Hin. destruct Hin as [Hin | Hin].
    + apply Hstreams in Hin. destruct Hin as (c & d & h & _ & ->). right. left. eauto.
    + apply Hemitters in Hin. destruct Hin as (q & em & _ & ->). right. right. eauto.
Qed.

(** X3.  [_cleanup] on an open Agent: it closes the Agent, empties both
    maps, and calls [destroy()] on exactly the streams registered in
    [subscribedDocs] and exactly the emitters registered in
    [subscribedQueries]; it writes nothing to the client and calls no
    Backend operation.  A second [_cleanup] does nothing. *)
Theorem X3_cleanup_destroys_every_subscription (ag : Agent) :
  closed ag = false ->
  let r := _cleanup ag in
  outcome_of r = Normal tt
  /\ closed (agent_of r) = true
  /\ subscribedDocs (agent_of r) = ∅
  /\ subscribedQueries (agent_of r) = ∅
  /\ (forall h, In (DestroyStream h) (effects_of r)
                <-> exists c d, lookup_doc ag c d = Some h)
  /\ (forall h, In (DestroyEmitter h) (effects_of r)
                <-> exists q em, subscribedQueries ag !! q = Some em /\ em_handle em = h)
  /\ (forall e, In e (effects_of r) ->
                e = RemoveReadable \/ (exists h, e = DestroyStream h)
                \/ (exists h, e = DestroyEmitter h))
  /\ _cleanup (agent_of r) = (Normal tt, agent_of r, []).
Proof.
  intros Hc r. subst r.
  destruct (_cleanup_destroys ag Hc) as (Hstreams & Hemitters & Honly).
  assert (E : _cleanup ag
              = (Normal tt, mkAgent (clientId ag) true ∅ ∅ (bulks ag),
                 effects_of (_cleanup ag)))
    by (rewrite _cleanup_eq, Hc; reflexivity).
  split; [rewrite E; reflexivity |]. split; [rewrite E; reflexivity |].
  split; [rewrite E; reflexivity |]. split; [rewrite E; reflexivity |].
  split; [exact Hstreams |]. split; [exact Hemitters |]. split; [exact Honly |].
  rewrite E, agent_of_triple. rewrite _cleanup_eq. reflexivity.
Qed.

Lemma X3_witness :
  In (DestroyStream 1%nat) (effects_of (_cleanup Ex.subscribed))
  /\ In (DestroyEmitter 2%nat) (effects_of (_cleanup Ex.subscribed)).
Proof.
  destruct (X3_cleanup_destroys_every_subscription Ex.subscribed eq_refl)
    as (_ & _ & _ & _ & Hstreams & Hemitters & _).
  split.
  - apply Hstreams. exists "users", "fred". vm_compute. reflexivity.
  - apply Hemitters. exists "7", Ex.emitter7. split; vm_compute; reflexivity.
Defined.

(** X4.  [close(err)] ends the client stream only on an open Agent.  On
    a closed Agent it leaves the Agent as it is and, given an error,
    still logs and emits it; on an open Agent it ends the stream after
    that, and the Agent is closed on return exactly when the transport
    emits ['end'] from within [end()].  When nobody listens to
    ['error'], [close(err)] throws what [emit('error', err)] throws,
    [err] itself if it is an Error and a new Error around it
    otherwise, and never ends the stream. *)
Theorem X4_close_ends_only_an_open_stream (H : host) (err : jsval) (ag : Agent) :
  let announce := if truthy err then [ConsoleWarn err; EmitError err] else [] in
  (truthy err = true -> has_error_listener H = false ->
   close H err ag = (Thrown (unhandled H err), ag, announce))
  /\ (truthy err = false \/ has_error_listener H = true ->
      (closed ag = true -> close H err ag = (Normal tt, ag, announce))
      /\ (closed ag = false ->
          outcome_of (close H err ag) = Normal tt
          /\ closed (agent_of (close H err ag)) = end_emits_now H
          /\ effects_of (close H err ag)
             = announce ++ EndStream
                 :: (if end_emits_now H then effects_of (_cleanup ag) else []))).
Proof.
  intros announce. subst announce. split.
  - intros Herr Hnobody. unfold close. rewrite Herr, Hnobody.
    erewrite bind_thrown; [reflexivity |].
    erewrite bind_normal by reflexivity.
    erewrite bind_normal by reflexivity. reflexivity.
  - intros Hlisten.
    assert (Hann : (if truthy err
                    then emit (ConsoleWarn err) ;; emit (EmitError err) ;;
                         (if has_error_listener H then skip else throw (unhandled H err))
                    else skip) ag
                   = (Normal tt, ag,
                      if truthy err then [ConsoleWarn err; EmitError err] else [])).
    { destruct (truthy err) eqn:Herr; [| reflexivity].
      destruct Hlisten as [Habs | ->]; [discriminate | reflexivity]. }
    split.
    + intros Hc. unfold close. erewrite bind_normal by exact Hann.
      erewrite bind_pure by reflexivity. rewrite Hc.
      destruct (truthy err); reflexivity.
    + intros Hc.
      assert (Hend : (if end_emits_now H then _cleanup else skip) ag
                     = (Normal tt,
                        if end_emits_now H
                        then mkAgent (clientId ag) true ∅ ∅ (bulks ag) else ag,
                        if end_emits_now H then effects_of (_cleanup ag) else [])).
      { destruct (end_emits_now H); [| reflexivity].
        rewrite _cleanup_eq, Hc. reflexivity. }
      unfold close. erewrite bind_normal by exact Hann.
      erewrite bind_pure by reflexivity. rewrite Hc.
      erewrite bind_normal by reflexivity. rewrite Hend.
      destruct (end_emits_now H), (truthy err); repeat split; exact Hc.
Qed.

(** ** The ['end'] of a DocStream *)

Lemma onStreamEnd_result collection id ag :
  exists ag',
    onStreamEnd collection id ag = (Normal tt, ag', [])
    /\ closed ag' = closed ag
    /\ subscribedQueries ag' = subscribedQueries ag
    /\ lookup_doc ag' (to_key collection) (to_key id) = None
    /\ (forall c d h, lookup_doc ag' c d = Some h -> lookup_doc ag c d = Some h)
    /\ (forall c, c <> to_key collection ->
                  subscribedDocs ag' !! c = subscribedDocs ag !! c).
Proof.
  unfold onStreamEnd. erewrite bind_pure by reflexivity.
  destruct (subscribedDocs ag !! to_key collection) as [streams |] eqn:E.
  - destruct (hasKeys (delete (to_key id) streams)); eexists;
      (split; [reflexivity |]); simpl; (split; [reflexivity |]);
      (split; [reflexivity |]); unfold lookup_doc; simpl.
    + rewrite lookup_insert_eq. simpl. rewrite lookup_delete_eq.
      split; [reflexivity |]. split.
      * intros c d h. destruct (decide (to_key collection = c)) as [<- | Hne].
        -- rewrite lookup_insert_eq, E. simpl.
           destruct (decide (to_key id = d)) as [<- | Hd].
           ++ rewrite lookup_delete_eq. discriminate.
           ++ rewrite lookup_delete_ne by exact Hd. auto.
        -- rewrite lookup_insert_ne by exact Hne. auto.
      * intros c Hne. apply lookup_insert_ne. congruence.
    + rewrite lookup_delete_eq. split; [reflexivity |]. split.
      * intros c d h. destruct (decide (to_key collection = c)) as [<- | Hne].
        -- rewrite lookup_delete_eq. discriminate.
        -- rewrite lookup_delete_ne by exact Hne. auto.
      * intros c Hne. apply lookup_delete_ne. congruence.
  - exists ag. split; [reflexivity |]. split; [reflexivity |]. split; [reflexivity |].
    unfold lookup_doc. rewrite E. simpl. auto.
Qed.

(** X5.  The ['end'] listener of a DocStream, for a stream installed
    under [(collection, id)]: it unregisters whatever is registered
    under that pair, registers or changes nothing else (what is
    registered afterwards was registered before, and other collections
    keep their entries), and it destroys no stream and writes
    nothing. *)
Theorem X5_stream_end_unregisters_its_document (H : host) (collection id : jsval)
    (ag : Agent) :
  let r := step H (DocEnd collection id) ag in
  outcome_of r = Normal tt
  /\ effects_of r = []
  /\ closed (agent_of r) = closed ag
  /\ subscribedQueries (agent_of r) = subscribedQueries ag
  /\ lookup_doc (agent_of r) (to_key collection) (to_key id) = None
  /\ (forall c d h, lookup_doc (agent_of r) c d = Some h -> lookup_doc ag c d = Some h)
  /\ (forall c, c <> to_key collection ->
                subscribedDocs (agent_of r) !! c = subscribedDocs ag !! c).
Proof.
  intros r. subst r. simpl.
  destruct (onStreamEnd_result collection id ag) as (ag' & -> & Hrest).
  rewrite effects_of_triple, agent_of_triple.
  split; [reflexivity |]. split; [reflexivity |]. exact Hrest.
Qed.

(** X6.  Re-subscribing and a late ['end'].  The collection and the
    id are names of no member of [Object.prototype].  On an open Agent,
    a second stream installed for a document destroys the first; when
    the first stream's ['end'] then arrives, its listener removes the
    entry of the document, which by now is the second stream's.  The
    second stream is left unregistered without having been destroyed,
    and a later [_cleanup] does not destroy it either (it being
    registered nowhere else). *)
Theorem X6_late_end_unregisters_the_new_stream (ag : Agent) (collection id : jsval)
    (s1 s2 : handle) :
  closed ag = false ->
  inherited (to_key collection) = false ->
  inherited (to_key id) = false ->
  (forall c d, lookup_doc ag c d <> Some s2) ->
  let r1 := _subscribeToStream collection id s1 ag in
  let r2 := _subscribeToStream collection id s2 (agent_of r1) in
  let r3 := onStreamEnd collection id (agent_of r2) in
  effects_of r2 = [DestroyStream s1]
  /\ lookup_doc (agent_of r2) (to_key collection) (to_key id) = Some s2
  /\ effects_of r3 = []
  /\ lookup_doc (agent_of r3) (to_key collection) (to_key id) = None
  /\ (forall c d, lookup_doc (agent_of r3) c d <> Some s2)
  /\ ~ In (DestroyStream s2) (effects_of (_cleanup (agent_of r3))).
Proof.
  intros Hc Hcol Hid Hfresh r1 r2 r3.
  assert (E1 : r1 = _subscribeToStream collection id s1 ag) by reflexivity.
  rewrite _subscribeToStream_open in E1 by assumption.
  set (ag1 := agent_of r1) in *.
  assert (Hc1 : closed ag1 = false) by (subst ag1; rewrite E1; exact Hc).
  assert (Hl1 : lookup_doc ag1 (to_key collection) (to_key id) = Some s1)
    by (subst ag1; rewrite E1, agent_of_triple; apply lookup_doc_installed).
  assert (Hother1 : forall c d, (c, d) <> (to_key collection, to_key id) ->
                                lookup_doc ag1 c d = lookup_doc ag c d)
    by (intros c d Hne; subst ag1; rewrite E1, agent_of_triple;
        apply lookup_doc_elsewhere, Hne).
  assert (E2 : r2 = _subscribeToStream collection id s2 ag1) by reflexivity.
  rewrite _subscribeToStream_open in E2 by assumption. rewrite Hl1 in E2.
  set (ag2 := agent_of r2) in *.
  assert (Hc2 : closed ag2 = false) by (subst ag2; rewrite E2; exact Hc1).
  assert (Hl2 : lookup_doc ag2 (to_key collection) (to_key id) = Some s2)
    by (subst ag2; rewrite E2, agent_of_triple; apply lookup_doc_installed).
  assert (Hother2 : forall c d, (c, d) <> (to_key collection, to_key id) ->
                                lookup_doc ag2 c d = lookup_doc ag c d).
  { intros c d Hne. subst ag2. rewrite E2, agent_of_triple.
    rewrite lookup_doc_elsewhere by exact Hne. apply Hother1, Hne. }
  destruct (onStreamEnd_result collection id ag2)
    as (ag3 & E3 & Hc3 & _ & Hl3 & Hsub3 & _).
  assert (Hnone : forall c d, lookup_doc ag3 c d <> Some s2).
  { intros c d Hl.
    destruct (decide ((c, d) = (to_key collection, to_key id))) as [[= -> ->] | Hne].
    - rewrite Hl3 in Hl. discriminate.
    - apply Hsub3 in Hl. rewrite Hother2 in Hl by exact Hne. exact (Hfresh c d Hl). }
  subst r3. fold ag2. rewrite E3, E2, !effects_of_triple, agent_of_triple.
  split; [reflexivity |]. split; [exact Hl2 |]. split; [reflexivity |].
  split; [exact Hl3 |]. split; [exact Hnone |].
  rewrite Hc2 in Hc3.
  destruct (_cleanup_destroys ag3 Hc3) as (Hstreams & _).
  intros Hin. apply Hstreams in Hin. destruct Hin as (c & d & Hl).
  exact (Hnone c d Hl).
Qed.

Lemma X6_witness :
  lookup_doc
    (agent_of (onStreamEnd (JStr "users") (JStr "fred")
                 (agent_of (_subscribeToStream (JStr "users") (JStr "fred") 2%nat
                    (agent_of (_subscribeToStream (JStr "users") (JStr "fred") 1%nat
                                 Ex.me))))))
    "users" "fred" = None.
Proof.
  assert (Hfresh : forall c d, lookup_doc Ex.me c d <> Some 2%nat).
  { intros c d. unfold lookup_doc. simpl. rewrite lookup_empty. discriminate. }
  destruct (X6_late_end_unregisters_the_new_stream Ex.me (JStr "users") (JStr "fred")
              1%nat 2%nat eq_refl eq_refl eq_refl Hfresh) as (_ & _ & _ & Hnone & _).
  exact Hnone.
Defined.

(** ** Query subscriptions: [_subscribeToQuery], [_queryUnsubscribe] *)

(** X7.  [_subscribeToQuery] keeps one emitter per query id.  On a
    closed Agent it destroys the incoming emitter and registers
    nothing.  On an open Agent it destroys the emitter registered under
    the id so far, if any, and no other, registers the new one under
    the id (a number being used as its decimal string), and leaves
    every other query id as it was. *)
Theorem X7_one_emitter_per_query (em : emitter) (queryId collection query : jsval)
    (ag : Agent) :
  let r := _subscribeToQuery em queryId collection query ag in
  (closed ag = true -> r = (Normal tt, ag, [DestroyEmitter (em_handle em)]))
  /\ (closed ag = false ->
      outcome_of r = Normal tt
      /\ effects_of r
         = match subscribedQueries ag !! to_key queryId with
           | Some previous => [DestroyEmitter (em_handle previous)]
           | None => []
           end
      /\ subscribedQueries (agent_of r) !! to_key queryId = Some em
      /\ (forall q, q <> to_key queryId ->
                    subscribedQueries (agent_of r) !! q = subscribedQueries ag !! q)
      /\ subscribedDocs (agent_of r) = subscribedDocs ag
      /\ closed (agent_of r) = false).
Proof.
  intros r. subst r. unfold _subscribeToQuery. split; intros Hc.
  - erewrite bind_pure by reflexivity. rewrite Hc. reflexivity.
  - erewrite bind_pure by reflexivity. rewrite Hc.
    destruct (subscribedQueries ag !! to_key queryId) as [previous |];
      (erewrite bind_normal by reflexivity);
      rewrite effects_of_triple, agent_of_triple; simpl;
      (split; [reflexivity |]); (split; [reflexivity |]);
      (split; [apply lookup_insert_eq |]);
      (split; [intros q Hq; apply lookup_insert_ne; congruence |]);
      (split; [reflexivity | exact Hc]).
Qed.

Lemma query_request_valid req a :
  In a ["qsub"; "qfetch"; "qunsub"; "qresub"] ->
  is_action req a = true ->
  is_typeof (get_prop req "id") "number" = true ->
  _checkRequest req = JUndef.
Proof.
  intros Hin Ha Hid. unfold _checkRequest, is_action. rewrite (action_is _ _ Ha).
  simpl in Hin. destruct Hin as [<- | [<- | [<- | [<- | []]]]];
    simpl; rewrite Hid; reflexivity.
Qed.

Lemma doc_request_valid req a :
  In a ["sub"; "unsub"; "fetch"] ->
  is_action req a = true ->
  nullish (get_prop req "c") = true \/ is_typeof (get_prop req "c") "string" = true ->
  nullish (get_prop req "d") = true \/ is_typeof (get_prop req "d") "string" = true ->
  _checkRequest req = JUndef.
Proof.
  intros Hin Ha Hcol Hdoc. unfold _checkRequest, is_action. rewrite (action_is _ _ Ha).
  simpl in Hin. destruct Hin as [<- | [<- | [<- | []]]];
    simpl; destruct Hcol as [-> | ->], Hdoc as [-> | ->];
    simpl; rewrite ?andb_false_r; reflexivity.
Qed.

(** The reply a tick delivers for a request acknowledged without a
    body. *)
Lemma tick_reply H req ag :
  closed ag = false ->
  step H (TickReply req) ag = (Normal tt, ag, [Write (framed req (JObj []))]).
Proof. intros Hc. simpl. rewrite _reply_open by exact Hc. reflexivity. Qed.

Lemma _queryUnsubscribe_eq req ag :
  _queryUnsubscribe req ag
  = (Normal tt,
     match subscribedQueries ag !! to_key (get_prop req "id") with
     | Some em =>
         set_subscribedQueries
           (delete (to_key (get_prop req "id")) (subscribedQueries ag)) ag
     | None => ag
     end,
     match subscribedQueries ag !! to_key (get_prop req "id") with
     | Some em => [DestroyEmitter (em_handle em)]
     | None => []
     end ++ [NextTick (KReply req)]).
Proof.
  unfold _queryUnsubscribe. unfold_m.
  destruct (subscribedQueries ag !! to_key (get_prop req "id")); reflexivity.
Qed.

(** X8.  A [qunsub] request with a numeric id, on an open Agent: the
    emitter registered under the id, if there is one, is destroyed and
    its entry removed; no other query changes; nothing is written and
    no Backend operation is called while the request is handled; the
    acknowledgement [{a, id}] (framing only) is written by the tick that
    follows, whether or not the query was known. *)
Theorem X8_query_unsubscribe (H : host) (req : jsval) (ag : Agent) :
  closed ag = false ->
  is_action req "qunsub" = true ->
  is_typeof (get_prop req "id") "number" = true ->
  let q := to_key (get_prop req "id") in
  let r := step H (Readable req) ag in
  effects_of r
  = match subscribedQueries ag !! q with
    | Some em => [DestroyEmitter (em_handle em)]
    | None => []
    end ++ [NextTick (KReply req); NextTick KPump]
  /\ subscribedQueries (agent_of r) !! q = None
  /\ (forall q', q' <> q ->
                 subscribedQueries (agent_of r) !! q' = subscribedQueries ag !! q')
  /\ subscribedDocs (agent_of r) = subscribedDocs ag
  /\ effects_of (step H (TickReply req) (agent_of r)) = [Write (framed req (JObj []))].
Proof.
  intros Hc Ha Hid q r.
  assert (Hcheck : _checkRequest req = JUndef)
    by (apply (query_request_valid req "qunsub"); simpl; auto).
  assert (Hr : r = (_queryUnsubscribe req ;; emit (NextTick KPump)) ag).
  { subst r. rewrite (step_request H req "qunsub") by assumption.
    apply bind_ext_l. rewrite _handleMessage_valid
      by (try exact Hcheck; eapply action_not_nullish, Ha).
    decide_actions Ha. reflexivity. }
  rewrite Hr. erewrite bind_normal by apply _queryUnsubscribe_eq. fold q.
  rewrite effects_of_triple, agent_of_triple.
  destruct (subscribedQueries ag !! q) as [em |] eqn:E; simpl.
  - split; [reflexivity |]. split; [apply lookup_delete_eq |].
    split; [intros q' Hq'; apply lookup_delete_ne; congruence |].
    split; [reflexivity |]. rewrite _reply_open by exact Hc. reflexivity.
  - split; [reflexivity |]. split; [exact E |]. split; [reflexivity |].
    split; [reflexivity |]. rewrite _reply_open by exact Hc. reflexivity.
Qed.

Lemma X8_witness :
  effects_of (step example_host (Readable Ex.qunsub7) Ex.subscribed)
  = [DestroyEmitter 2%nat; NextTick (KReply Ex.qunsub7); NextTick KPump].
Proof.
  destruct (X8_query_unsubscribe example_host Ex.qunsub7 Ex.subscribed
              eq_refl eq_refl eq_refl) as (Heff & _).
  exact Heff.
Defined.

(** ** Document unsubscribe *)

Lemma _unsubscribe_eq req ag :
  inherited (to_key (get_prop req "c")) = false ->
  inherited (to_key (get_prop req "d")) = false ->
  _unsubscribe req ag
  = (Normal tt, ag,
     match lookup_doc ag (to_key (get_prop req "c")) (to_key (get_prop req "d")) with
     | Some stream => [DestroyStream stream]
     | None => []
     end ++ [NextTick (KReply req)]).
Proof.
  intros Hcol Hid. unfold _unsubscribe, lookup_doc. unfold_m.
  rewrite entry_ordinary by exact Hcol.
  destruct (subscribedDocs ag !! to_key (get_prop req "c")) as [docs |]; simpl;
    [| reflexivity].
  rewrite entry_ordinary by exact Hid.
  destruct (docs !! to_key (get_prop req "d")); reflexivity.
Qed.

(** X9.  An [unsub] request for a document, on an open Agent, the
    collection and the id being names of no member of
    [Object.prototype]: the
    stream registered for the document, if there is one, is destroyed,
    but the Agent itself is left exactly as it was, the entry in
    [subscribedDocs] included; the entry goes when the stream's ['end']
    arrives.  The acknowledgement is written by the tick that follows,
    also when no stream was registered. *)
Theorem X9_document_unsubscribe (H : host) (req : jsval) (ag : Agent) :
  closed ag = false ->
  is_action req "unsub" = true ->
  nullish (get_prop req "c") = true \/ is_typeof (get_prop req "c") "string" = true ->
  nullish (get_prop req "d") = true \/ is_typeof (get_prop req "d") "string" = true ->
  inherited (to_key (get_prop req "c")) = false ->
  inherited (to_key (get_prop req "d")) = false ->
  let c := get_prop req "c" in
  let d := get_prop req "d" in
  let r := step H (Readable req) ag in
  effects_of r
  = match lookup_doc ag (to_key c) (to_key d) with
    | Some stream => [DestroyStream stream]
    | None => []
    end ++ [NextTick (KReply req); NextTick KPump]
  /\ agent_of r = ag
  /\ lookup_doc (agent_of (step H (DocEnd c d) (agent_of r))) (to_key c) (to_key d) = None
  /\ effects_of (step H (TickReply req) (agent_of r)) = [Write (framed req (JObj []))].
Proof.
  intros Hc Ha Hcol Hdoc Hcname Hdname c d r.
  assert (Hcheck : _checkRequest req = JUndef)
    by (apply (doc_request_valid req "unsub"); simpl; auto).
  assert (Hr : r = (_unsubscribe req ;; emit (NextTick KPump)) ag).
  { subst r. rewrite (step_request H req "unsub") by assumption.
    apply bind_ext_l. rewrite _handleMessage_valid
      by (try exact Hcheck; eapply action_not_nullish, Ha).
    decide_actions Ha. reflexivity. }
  rewrite Hr. erewrite bind_normal by (apply _unsubscribe_eq; assumption).
  rewrite effects_of_triple, agent_of_triple. fold c d.
  split; [rewrite <- app_assoc; reflexivity |]. split; [reflexivity |].
  split.
  - change (agent_of (emit (NextTick KPump) ag)) with ag.
    destruct (onStreamEnd_result c d ag) as (ag' & E & _ & _ & Hnone & _).
    change (step H (DocEnd c d) ag) with (onStreamEnd c d ag). rewrite E.
    exact Hnone.
  - change (agent_of (emit (NextTick KPump) ag)) with ag.
    rewrite tick_reply by exact Hc. reflexivity.
Qed.

Lemma X9_witness :
  effects_of (step example_host (Readable Ex.unsub_fred) Ex.subscribed)
  = [DestroyStream 1%nat; NextTick (KReply Ex.unsub_fred); NextTick KPump]
  /\ agent_of (step example_host (Readable Ex.unsub_fred) Ex.subscribed) = Ex.subscribed.
Proof.
  destruct (X9_document_unsubscribe example_host Ex.unsub_fred Ex.subscribed
              eq_refl eq_refl) as (Heff & Hsame & _).
  - right. reflexivity.
  - right. reflexivity.
  - reflexivity.
  - reflexivity.
  - split; [exact Heff | exact Hsame].
Defined.

(** ** What goes on the wire: [_reply], [_sendOp] *)

Lemma framed_copies req props k :
  In k ["c"; "d"; "id"] ->
  get_prop (framed req (JObj props)) k
  = if truthy (get_prop req k) then get_prop req k else get_prop (JObj props) k.
Proof.
  intros Hk. unfold framed. simpl fold_left. simpl in Hk.
  destruct Hk as [<- | [<- | [<- | []]]];
    destruct (truthy (get_prop req "c")), (truthy (get_prop req "d")),
      (truthy (get_prop req "id")); simpl;
    repeat (rewrite assoc_set_other by discriminate);
    rewrite ?assoc_set_same; reflexivity.
Qed.

(** X10.  The message [_reply] writes on an open Agent, for a body that
    is an object or absent.  It starts from [{error: err}] when [err]
    is set, and from the body (or [{}]) otherwise; its [a] is the
    request's; its [c], [d] and [id] are the request's where those are
    truthy and the body's otherwise (so a query id 0 or an empty
    collection name is not echoed); every other field is the body's.
    With an error, nothing of the body given reaches the client. *)
Theorem X10_reply_framing (req err msg : jsval) (ag : Agent) :
  closed ag = false ->
  msg = JUndef \/ (exists props, msg = JObj props) ->
  let body := if truthy err then JObj [("error", err)]
              else if truthy msg then msg else JObj [] in
  exists m,
    _reply req err msg ag = (Normal tt, ag, [Write m])
    /\ get_prop m "a" = get_prop req "a"
    /\ (forall k, In k ["c"; "d"; "id"] ->
                  get_prop m k
                  = if truthy (get_prop req k) then get_prop req k else get_prop body k)
    /\ (forall k, ~ In k ["a"; "c"; "d"; "id"] -> get_prop m k = get_prop body k)
    /\ (truthy err = true ->
        get_prop m "error" = err
        /\ forall k, ~ In k ["a"; "c"; "d"; "id"; "error"] -> get_prop m k = JUndef).
Proof.
  intros Hc Hmsg body.
  assert (Hbody : exists props, body = JObj props
                    /\ body = (if truthy err then JObj [("error", err)]
                               else js_or msg (JObj []))).
  { subst body. unfold js_or.
    destruct (truthy err); [eauto |].
    destruct Hmsg as [-> | [props ->]]; simpl; eauto. }
  destruct Hbody as (props & Hprops & Hjs).
  exists (framed req body). rewrite _reply_open by exact Hc. rewrite <- Hjs.
  split; [reflexivity |]. rewrite Hprops.
  split; [apply framed_action |]. split; [apply framed_copies |].
  assert (Hkeeps : forall k, ~ In k ["a"; "c"; "d"; "id"] ->
                             get_prop (framed req (JObj props)) k = get_prop (JObj props) k).
  { intros k Hk. apply framed_keeps; intros ->; apply Hk; simpl; auto. }
  split; [exact Hkeeps |].
  intros Herr. subst body. rewrite Herr in Hprops. injection Hprops as <-.
  split.
  - rewrite Hkeeps by (simpl; intros [E | [E | [E | [E | []]]]]; discriminate E).
    reflexivity.
  - intros k Hk. rewrite Hkeeps by (intros Hin; apply Hk; simpl in *; tauto).
    change (get_prop (JObj [("error", err)]) k)
      with (default JUndef (if String.eqb "error" k then Some err else None)).
    destruct (String.eqb "error" k) eqn:E; [| reflexivity].
    apply String.eqb_eq in E. exfalso. apply Hk. simpl. tauto.
Qed.

Lemma X10_witness :
  exists m,
    _reply (JObj [("a", JStr "qunsub"); ("id", JNum 0)]) JUndef JUndef Ex.me
    = (Normal tt, Ex.me, [Write m])
    /\ get_prop m "a" = JStr "qunsub"
    /\ get_prop m "id" = JUndef.
Proof.
  destruct (X10_reply_framing (JObj [("a", JStr "qunsub"); ("id", JNum 0)]) JUndef JUndef
              Ex.me eq_refl (or_introl eq_refl))
    as (m & Hm & Ha & Hcopies & _).
  exists m. split; [exact Hm |]. split; [exact Ha |].
  rewrite (Hcopies "id") by (simpl; auto). reflexivity.
Defined.

(** X11.  [_sendOp].  Given [null] or [undefined] for the op it throws
    a TypeError and writes nothing.  Given an op, on an open Agent it
    writes one message: [a] is "op", [c] and [d] are the collection and
    id passed in, [v], [src] and [seq] are the op's; [op] and [create]
    are carried over exactly when truthy, [del] is set exactly when the
    op's is truthy and is then [true] itself; and the message has no
    other field, so the op's [m], [i], [c] and [d] never reach the
    client. *)
Theorem X11_op_push_fields (collection id op : jsval) (ag : Agent) :
  (nullish op = true -> _sendOp collection id op ag = (Thrown TypeError, ag, []))
  /\ (nullish op = false -> closed ag = false ->
      exists m,
        _sendOp collection id op ag = (Normal tt, ag, [Write m])
        /\ get_prop m "a" = JStr "op"
        /\ get_prop m "c" = collection
        /\ get_prop m "d" = id
        /\ get_prop m "v" = get_prop op "v"
        /\ get_prop m "src" = get_prop op "src"
        /\ get_prop m "seq" = get_prop op "seq"
        /\ has_prop m "op" = truthy (get_prop op "op")
        /\ (truthy (get_prop op "op") = true -> get_prop m "op" = get_prop op "op")
        /\ has_prop m "create" = truthy (get_prop op "create")
        /\ (truthy (get_prop op "create") = true ->
            get_prop m "create" = get_prop op "create")
        /\ has_prop m "del" = truthy (get_prop op "del")
        /\ (truthy (get_prop op "del") = true -> get_prop m "del" = JBool true)
        /\ (forall k, has_prop m k = true ->
                      In k ["a"; "c"; "d"; "v"; "src"; "seq"; "op"; "create"; "del"])).
Proof.
  split.
  - intros Hop. unfold _sendOp, deref. rewrite Hop. reflexivity.
  - intros Hop Hc. exists (op_push collection id op).
    split; [apply _sendOp_open; assumption |]. unfold op_push.
    destruct (truthy (get_prop op "op")) eqn:E1,
      (truthy (get_prop op "create")) eqn:E2,
      (truthy (get_prop op "del")) eqn:E3;
      cbn [app];
      (repeat split;
       [ .. | intros k Hk; apply has_prop_in in Hk; cbn [map fst] in Hk;
              cbn [In] in *; tauto ]);
      try reflexivity; intros; discriminate.
Qed.

Lemma X11_witness :
  exists m,
    _sendOp (JStr "users") (JStr "fred") Ex.my_op Ex.me = (Normal tt, Ex.me, [Write m])
    /\ has_prop m "m" = false.
Proof.
  destruct (X11_op_push_fields (JStr "users") (JStr "fred") Ex.my_op Ex.me) as [_ Hsend].
  destruct (Hsend eq_refl eq_refl) as (m & Hm & Hrest).
  exists m. split; [exact Hm |].
  destruct (has_prop m "m") eqn:E; [| reflexivity].
  do 12 destruct Hrest as [_ Hrest]. apply Hrest in E. simpl in E.
  repeat (destruct E as [E | E]; [discriminate E |]). destruct E.
Defined.

(** ** Validation and dispatch: [_checkRequest], [_handleMessage] *)

Lemma _checkRequest_messages req :
  _checkRequest req = JUndef
  \/ exists message,
       _checkRequest req = JStr message
       /\ In message ["Missing query ID"; "Invalid collection"; "Invalid id";
                      "Invalid version"; "Invalid bulk subscribe data"; "Invalid action"].
Proof.
  unfold _checkRequest.
  repeat match goal with
         | |- context [if ?c then _ else _] => destruct c
         end;
    first [ left; reflexivity | right; eexists; split; [reflexivity | simpl; tauto] ].
Qed.

(** X12.  A request that fails validation is answered and nothing
    else: the Agent writes one reply, [{error: {code: 4000, message}}]
    in the request's framing, the message being one of the six of
    [_checkRequest] (it writes nothing if it is closed), calls no
    Backend operation and does not change. *)
Theorem X12_invalid_request_is_only_answered (req : jsval) (ag : Agent) :
  nullish req = false ->
  truthy (_checkRequest req) = true ->
  exists message,
    _checkRequest req = JStr message
    /\ In message ["Missing query ID"; "Invalid collection"; "Invalid id";
                   "Invalid version"; "Invalid bulk subscribe data"; "Invalid action"]
    /\ _handleMessage req ag
       = (Normal tt, ag,
          if closed ag then [] else [Write (error_reply req (malformed message))]).
Proof.
  intros Hreq Hbad.
  destruct (_checkRequest_messages req) as [E | (message & E & Hin)].
  - rewrite E in Hbad. discriminate Hbad.
  - exists message. split; [exact E |]. split; [exact Hin |].
    unfold _handleMessage. erewrite bind_pure by (apply deref_ok; exact Hreq).
    rewrite Hbad, E. rewrite _reply_framed. unfold error_reply, malformed.
    change (truthy (JObj [("code", JNum 4000); ("message", JStr message)])) with true.
    cbv iota. destruct (closed ag) eqn:Hc.
    + apply _send_closed, Hc.
    + apply _send_open, Hc.
Qed.

Lemma X12_witness :
  _handleMessage (JObj [("a", JStr "sub"); ("c", JNum 5)]) Ex.me
  = (Normal tt, Ex.me,
     [Write (JObj [("error", malformed "Invalid collection"); ("a", JStr "sub");
                   ("c", JNum 5)])]).
Proof.
  destruct (X12_invalid_request_is_only_answered
              (JObj [("a", JStr "sub"); ("c", JNum 5)]) Ex.me eq_refl eq_refl)
    as (message & Hmsg & _ & Hhandle).
  rewrite Hhandle. injection Hmsg as <-. reflexivity.
Defined.

Lemma valid_request_action req :
  _checkRequest req = JUndef ->
  exists a,
    In a ["qsub"; "qfetch"; "qunsub"; "qresub"; "op"; "sub"; "unsub"; "fetch"; "bs"]
    /\ is_action req a = true.
Proof.
  unfold _checkRequest.
  repeat match goal with
         | |- context [is_action req ?a] =>
             destruct (is_action req a) eqn:?;
               [intros _; exists a; split; [simpl; tauto | assumption] |]
         end.
  simpl. discriminate.
Qed.

(** X13.  A request that passes validation carries one of the nine
    actions, and [_handleMessage] hands it to the method of that action
    and does nothing else: the last branch of its [switch], the reply
    "Invalid or unknown message", is never taken. *)
Theorem X13_valid_request_reaches_its_handler (req : jsval) (ag : Agent) :
  nullish req = false ->
  truthy (_checkRequest req) = false ->
  exists a handler,
    get_prop req "a" = JStr a
    /\ handler_of a = Some handler
    /\ _handleMessage req ag = handler req ag.
Proof.
  intros Hreq Hok.
  assert (Hcheck : _checkRequest req = JUndef).
  { destruct (_checkRequest_messages req) as [E | (message & E & Hin)]; [exact E |].
    rewrite E in Hok. simpl in Hin.
    repeat (destruct Hin as [<- | Hin]; [discriminate Hok |]). destruct Hin. }
  destruct (valid_request_action req Hcheck) as (a & Hin & Ha).
  exists a. simpl in Hin.
  repeat (destruct Hin as [<- | Hin];
          [eexists; split; [apply action_is, Ha |]; split; [reflexivity |];
           rewrite _handleMessage_valid by assumption;
           decide_actions Ha; reflexivity |]).
  destruct Hin.
Qed.

Lemma X13_witness :
  exists handler,
    handler_of "unsub" = Some handler
    /\ _handleMessage Ex.unsub_fred Ex.subscribed = handler Ex.unsub_fred Ex.subscribed.
Proof.
  destruct (X13_valid_request_reaches_its_handler Ex.unsub_fred Ex.subscribed
              eq_refl eq_refl) as (a & handler & Ha & Hhandler & Hmsg).
  injection Ha as <-. exists handler. split; [exact Hhandler | exact Hmsg].
Defined.

(** ** The op of a submit: [_createOp] *)

(** X14.  [_createOp] makes at most one kind of op, [op] before
    [create] before [del]: an edit when the request's [op] is truthy, else
    a create when its [create] is, else a delete when its [del] is, and
    nothing (undefined) when none is.  An op made has exactly the fields
    [src], [seq], [v], [m] and its one payload; [seq] and [v] are the
    request's, [m] is [null], and [src] is the request's when truthy
    and the Agent's [clientId] otherwise. *)
Theorem X14_createOp_makes_one_kind_of_op (ag : Agent) (req : jsval) :
  let op := _createOp ag req in
  let kind := if truthy (get_prop req "op") then Some "op"
              else if truthy (get_prop req "create") then Some "create"
              else if truthy (get_prop req "del") then Some "del"
              else None in
  match kind with
  | None => op = JUndef
  | Some payload =>
      nullish op = false
      /\ get_prop op "src"
         = (if truthy (get_prop req "src") then get_prop req "src"
            else JStr (clientId ag))
      /\ get_prop op "seq" = get_prop req "seq"
      /\ get_prop op "v" = get_prop req "v"
      /\ get_prop op "m" = JNull
      /\ get_prop op payload = get_prop req payload
      /\ (forall k, has_prop op k = true <-> In k ["src"; "seq"; "v"; payload; "m"])
  end.
Proof.
  intros op kind. subst op kind. unfold _createOp, js_or.
  assert (Hkeys : forall props k,
             has_prop (JObj props) k = true <-> In k (map fst props)).
  { intros props k. split; [apply has_prop_in |].
    unfold has_prop. intros Hin. apply bool_decide_eq_true.
    induction props as [| [k' v] rest IH]; [destruct Hin |].
    simpl. destruct (String.eqb k' k) eqn:E; [eauto |].
    destruct Hin as [Hk | Hin]; [| exact (IH Hin)].
    simpl in Hk. subst k'. rewrite String.eqb_refl in E. discriminate E. }
  destruct (truthy (get_prop req "op")); [| destruct (truthy (get_prop req "create"));
    [| destruct (truthy (get_prop req "del")); [| reflexivity]]];
    (repeat (split; [reflexivity |]); intros k; apply Hkeys).
Qed.

(** ** The pump *)

Lemma pump_parsed H text v ag :
  closed ag = false -> JSON_parse H text = inl v ->
  pump H (JStr text) ag = (_handleMessage v ;; emit (NextTick KPump)) ag.
Proof.
  intros Hc Hparse. unfold pump. erewrite bind_pure by reflexivity.
  rewrite Hc, Hparse. change (nullish (JStr text)) with false. cbv iota.
  rewrite bind_ret_l. reflexivity.
Qed.

(** X15.  A message that arrives as text and parses to a value other
    than a string, [null] or [undefined] is handled exactly as that
    value arriving already parsed: same outcome, same Agent afterwards,
    same effects. *)
Theorem X15_text_is_handled_as_its_parse (H : host) (text : string) (v : jsval)
    (ag : Agent) :
  closed ag = false ->
  JSON_parse H text = inl v ->
  nullish v = false ->
  typeof v <> "string" ->
  step H (Readable (JStr text)) ag = step H (Readable v) ag.
Proof.
  intros Hc Hparse Hv Hs. simpl.
  rewrite (pump_parsed H text v) by assumption.
  rewrite pump_structured by assumption. reflexivity.
Qed.

Lemma X15_witness :
  step example_host (Readable (JStr "{}")) Ex.me
  = step example_host (Readable (JObj [])) Ex.me.
Proof.
  apply (X15_text_is_handled_as_its_parse example_host "{}" (JObj []) Ex.me);
    try reflexivity.
  discriminate.
Defined.

(** X16.  What stops the pump.  On a closed Agent [pump] does nothing.
    When the stream has nothing to read it waits for ['readable'] and
    schedules nothing.  And a text message that parses to [null] (the
    text "null") makes [_handleMessage] throw a TypeError on reading
    [req.a]: nothing is written, and the next [pump] is not
    scheduled. *)
Theorem X16_what_stops_the_pump (H : host) (read : jsval) (ag : Agent) :
  (closed ag = true -> step H (Readable read) ag = (Normal tt, ag, []))
  /\ (closed ag = false -> nullish read = true ->
      step H (Readable read) ag = (Normal tt, ag, [OnceReadable]))
  /\ (closed ag = false ->
      forall text v,
        read = JStr text -> JSON_parse H text = inl v -> nullish v = true ->
        step H (Readable read) ag = (Thrown TypeError, ag, [])).
Proof.
  split; [| split].
  - intros Hc. simpl. unfold pump. erewrite bind_pure by reflexivity.
    rewrite Hc. reflexivity.
  - intros Hc Hread. simpl. unfold pump. erewrite bind_pure by reflexivity.
    rewrite Hc, Hread. reflexivity.
  - intros Hc text v -> Hparse Hv. simpl.
    rewrite (pump_parsed H text v) by assumption.
    erewrite bind_thrown; [reflexivity |].
    unfold _handleMessage. erewrite bind_thrown; [reflexivity |].
    unfold deref. rewrite Hv. reflexivity.
Qed.

Lemma X16_witness :
  step example_host (Readable (JStr "null")) Ex.me = (Thrown TypeError, Ex.me, []).
Proof.
  destruct (X16_what_stops_the_pump example_host (JStr "null") Ex.me) as (_ & _ & Hnull).
  exact (Hnull eq_refl "null" JNull eq_refl eq_refl eq_refl).
Defined.

(** ** Fetch and subscribe *)

Lemma handler_of_action a handler :
  handler_of a = Some handler ->
  In a ["qsub"; "qresub"; "qunsub"; "qfetch"; "bs"; "sub"; "unsub"; "fetch"; "op"].
Proof.
  unfold handler_of.
  repeat match goal with
         | |- context [String.eqb a ?b] =>
             destruct (String.eqb a b) eqn:E;
               [apply String.eqb_eq in E; subst a; intros _; simpl; tauto | clear E]
         end.
  discriminate.
Qed.

(** A valid request read by the pump runs the method of its action,
    and the next pump is scheduled. *)
Lemma step_valid_request H req a handler ag :
  closed ag = false ->
  is_action req a = true ->
  _checkRequest req = JUndef ->
  handler_of a = Some handler ->
  step H (Readable req) ag = (handler req ;; emit (NextTick KPump)) ag.
Proof.
  intros Hc Ha Hcheck Hhandler.
  rewrite (step_request H req a) by assumption. apply bind_ext_l.
  rewrite _handleMessage_valid by (try exact Hcheck; eapply action_not_nullish, Ha).
  pose proof (handler_of_action a handler Hhandler) as Hin. simpl in Hin.
  repeat (destruct Hin as [<- | Hin];
          [injection Hhandler as <-; decide_actions Ha; reflexivity |]).
  destruct Hin.
Qed.

(** X17.  A valid [fetch] request on an open Agent calls the Backend
    once and writes nothing: [fetch] when [v] is [null] or absent,
    [getOps] from [v] otherwise, version 0 included.  The snapshot comes
    back as the reply [{data}], an error as the error reply.  The ops
    of [getOps] are all written as op pushes for the document, the
    client's own among them (nothing is filtered here), and an empty
    reply follows; on an error only the error reply is written. *)
Theorem X17_fetch_snapshot_or_ops (H : host) (req : jsval) (ag : Agent) :
  closed ag = false ->
  is_action req "fetch" = true ->
  nullish (get_prop req "c") = true \/ is_typeof (get_prop req "c") "string" = true ->
  nullish (get_prop req "d") = true \/ is_typeof (get_prop req "d") "string" = true ->
  let c := get_prop req "c" in
  let d := get_prop req "d" in
  let v := get_prop req "v" in
  step H (Readable req) ag
  = (Normal tt, ag,
     [if nullish v then Backend (CallFetch c d) (KFetch req)
      else Backend (CallGetOps c d v) (KGetOps req);
      NextTick KPump])
  /\ (forall ag' err data,
         closed ag' = false ->
         step H (Answer (KFetch req) (AnsFetch err data)) ag'
         = (Normal tt, ag',
            [Write (if truthy err then error_reply req err
                    else framed req (JObj [("data", data)]))]))
  /\ (forall ag' err ops,
         closed ag' = false ->
         Forall (fun o => nullish o = false) ops ->
         step H (Answer (KGetOps req) (AnsGetOps err ops)) ag'
         = (Normal tt, ag',
            if truthy err then [Write (error_reply req err)]
            else map (fun o => Write (op_push c d o)) ops
                 ++ [Write (framed req (JObj []))])).
Proof.
  intros Hc Ha Hcol Hdoc c d v.
  assert (Hcheck : _checkRequest req = JUndef)
    by (apply (doc_request_valid req "fetch"); simpl; auto).
  split; [| split].
  - rewrite (step_valid_request H req "fetch" _fetch) by (assumption || reflexivity).
    unfold _fetch. fold c d v. destruct (nullish v); reflexivity.
  - intros ag' err data Hc'. simpl. unfold onFetch.
    destruct (truthy err) eqn:E; (rewrite _reply_open by exact Hc');
      rewrite ?E; reflexivity.
  - intros ag' err ops Hc' Hops. simpl. unfold onGetOps.
    destruct (truthy err) eqn:E.
    + rewrite _reply_open by exact Hc'. rewrite E. reflexivity.
    + erewrite bind_normal by (apply for_each_sendOp; assumption).
      rewrite _reply_open by exact Hc'. reflexivity.
Qed.

Lemma X17_witness :
  step example_host (Readable Ex.fetch_from_0) Ex.me
  = (Normal tt, Ex.me,
     [Backend (CallGetOps (JStr "users") (JStr "fred") (JNum 0)) (KGetOps Ex.fetch_from_0);
      NextTick KPump])
  /\ step example_host (Answer (KGetOps Ex.fetch_from_0) (AnsGetOps JNull [Ex.echoed_op]))
          Ex.me
     = (Normal tt, Ex.me,
        [Write (op_push (JStr "users") (JStr "fred") Ex.echoed_op);
         Write (framed Ex.fetch_from_0 (JObj []))]).
Proof.
  destruct (X17_fetch_snapshot_or_ops example_host Ex.fetch_from_0 Ex.me eq_refl eq_refl)
    as (Hcall & _ & Hops).
  - right. reflexivity.
  - right. reflexivity.
  - split; [exact Hcall |].
    apply (Hops Ex.me JNull [Ex.echoed_op] eq_refl).
    repeat constructor.
Defined.

(** X18.  A valid [sub] request on an open Agent, for a collection
    and an id that are names of no member of [Object.prototype], calls
    [Backend.subscribe] with the request's [c], [d] and [v] and writes
    nothing.  When the Backend answers with an error, the error reply
    is all that happens: the Agent does not change.  When it answers
    with a stream, the stream is registered for the document, after the
    stream registered there before (if any) was destroyed, and the
    reply follows: [{data}] when a snapshot came with it, the bare
    framing otherwise. *)
Theorem X18_subscribe_registers_then_replies (H : host) (req : jsval) (ag : Agent) :
  closed ag = false ->
  is_action req "sub" = true ->
  nullish (get_prop req "c") = true \/ is_typeof (get_prop req "c") "string" = true ->
  nullish (get_prop req "d") = true \/ is_typeof (get_prop req "d") "string" = true ->
  inherited (to_key (get_prop req "c")) = false ->
  inherited (to_key (get_prop req "d")) = false ->
  let c := get_prop req "c" in
  let d := get_prop req "d" in
  step H (Readable req) ag
  = (Normal tt, ag,
     [Backend (CallSubscribe c d (get_prop req "v")) (KSubscribe req); NextTick KPump])
  /\ (forall ag' err stream data,
         closed ag' = false ->
         truthy err = true ->
         step H (Answer (KSubscribe req) (AnsSubscribe err stream data)) ag'
         = (Normal tt, ag', [Write (error_reply req err)]))
  /\ (forall ag' err stream data,
         closed ag' = false ->
         truthy err = false ->
         let r := step H (Answer (KSubscribe req) (AnsSubscribe err stream data)) ag' in
         outcome_of r = Normal tt
         /\ effects_of r
            = match lookup_doc ag' (to_key c) (to_key d) with
              | Some previous => [DestroyStream previous]
              | None => []
              end
              ++ [Write (framed req (if truthy data then JObj [("data", data)]
                                     else JObj []))]
         /\ lookup_doc (agent_of r) (to_key c) (to_key d) = Some stream
         /\ (forall c' d', (c', d') <> (to_key c, to_key d) ->
                           lookup_doc (agent_of r) c' d' = lookup_doc ag' c' d')).
Proof.
  intros Hc Ha Hcol Hdoc Hcname Hdname c d.
  assert (Hcheck : _checkRequest req = JUndef)
    by (apply (doc_request_valid req "sub"); simpl; auto).
  split; [| split].
  - rewrite (step_valid_request H req "sub" _subscribe) by (assumption || reflexivity).
    reflexivity.
  - intros ag' err stream data Hc' Herr. simpl. unfold onSubscribe. rewrite Herr.
    rewrite _reply_open by exact Hc'. rewrite Herr. reflexivity.
  - intros ag' err stream data Hc' Herr r. subst r. simpl. unfold onSubscribe.
    rewrite Herr. fold c d.
    erewrite bind_normal by (apply _subscribeToStream_open; assumption).
    rewrite !effects_of_triple, !agent_of_triple.
    destruct (truthy data) eqn:Hdata;
      (rewrite _reply_open by exact Hc');
      rewrite !effects_of_triple, !agent_of_triple; rewrite ?Hdata;
      (split; [reflexivity |]); (split; [reflexivity |]);
      (split; [apply lookup_doc_installed |]);
      intros c' d' Hne; apply lookup_doc_elsewhere, Hne.
Qed.

Lemma X18_witness :
  lookup_doc
    (agent_of (step example_host
                 (Answer (KSubscribe Ex.sub_fred) (AnsSubscribe JNull 1%nat Ex.snapshot_fred))
                 Ex.me))
    "users" "fred" = Some 1%nat.
Proof.
  destruct (X18_subscribe_registers_then_replies example_host Ex.sub_fred Ex.me
              eq_refl eq_refl) as (_ & _ & Hok).
  - right. reflexivity.
  - right. reflexivity.
  - reflexivity.
  - reflexivity.
  - destruct (Hok Ex.me JNull 1%nat Ex.snapshot_fred eq_refl eq_refl)
      as (_ & _ & Hreg & _).
    exact Hreg.
Defined.

(** ** Streams and emitters that arrive from the Backend *)

Lemma then_deref (m : M unit) (v : jsval) ag :
  nullish v = false -> (m ;; deref v) ag = m ag.
Proof.
  intros Hv. unfold deref. rewrite Hv. unfold_m.
  destruct (m ag) as [[[[] | e |] ag1] t1]; simpl; rewrite ?app_nil_r; reflexivity.
Qed.

(** The loop of the [subscribeBulk] callback installs the streams it
    was given, one after the other. *)
Lemma bulk_loop_is_install_all collection snapshotMap streams :
  nullish snapshotMap = false ->
  forall ag,
    for_each streams (fun entry =>
      _subscribeToStream collection (JStr (fst entry)) (snd entry) ;;
      deref snapshotMap) ag
    = install_all (map (fun e => (collection, JStr (fst e), snd e)) streams) ag.
Proof.
  intros Hsm. induction streams as [| [id s] rest IH]; intros ag; [reflexivity |].
  unfold install_all. cbn [map for_each fst snd].
  etransitivity; [apply bind_ext_l, then_deref, Hsm |].
  apply bind_ext. intros [] ag1. apply IH.
Qed.

Lemma install_streams_closed collection streams ag :
  closed ag = true ->
  install_all (map (fun e => (collection, JStr (fst e), snd e)) streams) ag
  = (Normal tt, ag, map (fun e => DestroyStream (snd e)) streams).
Proof.
  intros Hc. induction streams as [| [id s] rest IH]; [reflexivity |].
  cbn [map fst snd]. rewrite install_all_cons_closed by exact Hc. rewrite IH. reflexivity.
Qed.

Lemma install_streams_open collection streams :
  inherited (to_key collection) = false ->
  Forall (fun e => inherited (fst e) = false) streams ->
  NoDup (map fst streams) ->
  forall ag,
    closed ag = false ->
    let r := install_all (map (fun e => (collection, JStr (fst e), snd e)) streams) ag in
    outcome_of r = Normal tt
    /\ closed (agent_of r) = false
    /\ subscribedQueries (agent_of r) = subscribedQueries ag
    /\ bulks (agent_of r) = bulks ag
    /\ (forall id s, In (id, s) streams ->
                     lookup_doc (agent_of r) (to_key collection) id = Some s)
    /\ (forall c d, c <> to_key collection \/ ~ In d (map fst streams) ->
                    lookup_doc (agent_of r) c d = lookup_doc ag c d)
    /\ (forall h, destroyed h (effects_of r) ->
                  exists id, In id (map fst streams)
                             /\ lookup_doc ag (to_key collection) id = Some h).
Proof.
  intros Hcol. induction streams as [| [id0 s0] rest IH]; intros Hids Hnd ag Hc.
  - simpl. repeat split; try reflexivity; try exact Hc.
    + intros id s [].
    + intros h [].
  - cbn [map fst snd] in *. apply NoDup_cons in Hnd as [Hnotin Hnd].
    apply Forall_cons in Hids as [Hid0 Hids]. cbn [fst] in Hid0.
    rewrite list_elem_of_In in Hnotin.
    erewrite install_all_cons_open by (exact Hc || exact Hcol || exact Hid0 || reflexivity).
    rewrite !effects_of_triple, !agent_of_triple.
    change (to_key (JStr id0)) with id0.
    match goal with
    | |- context [install_all _ ?ag1] =>
        set (a1 := ag1);
        destruct (IH Hids Hnd a1 Hc) as (Ho & Hcl & Hq & Hb & Hreg & Hsame & Hdes)
    end.
    split; [exact Ho |]. split; [exact Hcl |]. split; [exact Hq |]. split; [exact Hb |].
    split; [| split].
    + intros id s [Heq | Hin].
      * injection Heq as <- <-. rewrite Hsame by (right; exact Hnotin).
        apply lookup_doc_installed.
      * apply Hreg, Hin.
    + intros c d Hcd.
      rewrite Hsame
        by (destruct Hcd as [Hn | Hn];
            [left; exact Hn | right; intros Hin; apply Hn; right; exact Hin]).
      apply lookup_doc_elsewhere. intros Heq. injection Heq as -> ->.
      destruct Hcd as [Hn | Hn]; apply Hn; [reflexivity | left; reflexivity].
    + intros h Hh. apply in_app_or in Hh as [Hh | Hh].
      * exists id0. split; [left; reflexivity |].
        destruct (lookup_doc ag (to_key collection) id0) as [previous |]; [| destruct Hh].
        destruct Hh as [Hh | []]. injection Hh as ->. reflexivity.
      * destruct (Hdes h Hh) as (id & Hin & Hl). exists id. split; [right; exact Hin |].
        rewrite <- Hl. symmetry. apply lookup_doc_elsewhere.
        intros Heq. injection Heq as ->. contradiction.
Qed.

(** What follows the loop in the [subscribeBulk] callback: the
    snapshot map is stored in the response and the iteratee reports.
    No subscription changes, and at most the reply is written. *)
Lemma bulk_report_tail b collection streams snapshotMap ag :
  let t := (modify (fun ag =>
              match bulks ag !! b with
              | None => ag
              | Some bk =>
                  set_bulks (<[b := mkBulk (bk_req bk)
                                      (assign (bk_response bk) (to_key collection)
                                              (thumbs_up streams snapshotMap))
                                      (bk_running bk) (bk_called bk)]> (bulks ag)) ag
              end) ;;
            eachCb b JUndef) ag in
  outcome_of t = Normal tt
  /\ subscribedDocs (agent_of t) = subscribedDocs ag
  /\ subscribedQueries (agent_of t) = subscribedQueries ag
  /\ closed (agent_of t) = closed ag
  /\ (effects_of t = [] \/ exists msg, closed ag = false /\ effects_of t = [Write msg]).
Proof.
  unfold eachCb, onBulkFinal. unfold_m.
  change (truthy JUndef) with false. change (truthy JNull) with false. cbn [orb].
  destruct (bulks ag !! b) as [bk |] eqn:Hb; cbn [bulks set_bulks].
  - destruct (<[b:=_]> (bulks ag) !! b) as [bk' |]; cbn;
      [| repeat split; left; reflexivity].
    destruct (Nat.eqb (pred (bk_running bk')) 0 && negb (bk_called bk')); cbn;
      [| repeat split; left; reflexivity].
    rewrite _reply_framed. unfold _send. unfold_m. cbn.
    destruct (closed ag) eqn:Hc; cbn; repeat split; try exact Hc;
      [left; reflexivity | right; eexists; split; reflexivity].
  - rewrite Hb. cbn. repeat split. left. reflexivity.
Qed.

(** X19.  What a closed Agent does with the resources a late Backend
    callback hands to it: the stream of a subscribe, every stream of a
    bulk subscribe and the emitter of a query subscribe are destroyed
    at once, nothing is registered and nothing is written. *)
Theorem X19_late_resources_are_destroyed (H : host) (ag : Agent) :
  closed ag = true ->
  (forall req err stream data,
      truthy err = false ->
      step H (Answer (KSubscribe req) (AnsSubscribe err stream data)) ag
      = (Normal tt, ag, [DestroyStream stream]))
  /\ (forall b collection err streams snapshotMap,
         truthy err = false ->
         nullish snapshotMap = false ->
         let r := step H (Answer (KBulkEach b collection)
                                 (AnsSubscribeBulk err streams snapshotMap)) ag in
         outcome_of r = Normal tt
         /\ effects_of r = map (fun e => DestroyStream (snd e)) streams
         /\ subscribedDocs (agent_of r) = subscribedDocs ag
         /\ closed (agent_of r) = true)
  /\ (forall req options err em results extra,
         truthy err = false ->
         let r := step H (Answer (KQuerySubscribe req options)
                                 (AnsQuerySubscribe err em results extra)) ag in
         exists rest,
           effects_of r = DestroyEmitter (em_handle em) :: rest
           /\ (forall msg, ~ In (Write msg) rest)
           /\ subscribedQueries (agent_of r) = subscribedQueries ag
           /\ closed (agent_of r) = true).
Proof.
  intros Hc. split; [| split].
  - intros req err stream data Herr. simpl. unfold onSubscribe. rewrite Herr.
    erewrite bind_normal by (apply _subscribeToStream_closed; exact Hc).
    rewrite ?effects_of_triple, ?agent_of_triple.
    destruct (truthy data); rewrite _reply_framed, _send_closed by exact Hc; reflexivity.
  - intros b collection err streams snapshotMap Herr Hsm r. subst r.
    simpl. unfold onSubscribeBulk. rewrite Herr.
    erewrite bind_normal.
    2: { rewrite bulk_loop_is_install_all by exact Hsm.
         apply install_streams_closed, Hc. }
    rewrite ?effects_of_triple, ?agent_of_triple.
    destruct (bulk_report_tail b collection streams snapshotMap ag)
      as (Ho & Hd & _ & Hcl & [He | (msg & Hopen & _)]).
    + rewrite He, app_nil_r. rewrite Hcl. auto.
    + congruence.
  - intros req options err em results extra Herr r. subst r.
    simpl. unfold onQuerySubscribe. rewrite Herr.
    assert (Hq : _subscribeToQuery em (get_prop req "id") (get_prop req "c")
                   (get_prop req "q") ag
                 = (Normal tt, ag, [DestroyEmitter (em_handle em)])).
    { unfold _subscribeToQuery. unfold_m. rewrite Hc. reflexivity. }
    erewrite bind_normal by exact Hq.
    rewrite ?effects_of_triple, ?agent_of_triple.
    eexists. split; [reflexivity |]. unfold _sendQueryResults.
    destruct (negb (truthy _)).
    + rewrite _reply_framed, _send_closed by exact Hc.
      repeat split; [intros msg [] | exact Hc].
    + repeat split; [| exact Hc]. intros msg [Hm | []]. discriminate.
Qed.

Lemma X19_witness :
  step example_host
    (Answer (KSubscribe Ex.sub_fred) (AnsSubscribe JNull 1%nat Ex.snapshot_fred))
    (set_closed true Ex.me)
  = (Normal tt, set_closed true Ex.me, [DestroyStream 1%nat]).
Proof.
  destruct (X19_late_resources_are_destroyed example_host (set_closed true Ex.me) eq_refl)
    as (Hsub & _).
  apply Hsub. reflexivity.
Defined.

(** X20.  When [subscribeBulk] succeeds on an open Agent, for a
    collection and ids that are names of no member of
    [Object.prototype] and with a snapshot map that is an object, every
    stream it returned is registered for its document of the collection
    (the streams come as an object, so the ids are distinct); the only
    streams destroyed are those that were registered for these
    documents before; no other document's registration changes; and
    the snapshot map, with its thumbs up, is stored under the
    collection in the response of this bulk subscribe. *)
Theorem X20_bulk_streams_are_registered (H : host) (b : nat) (collection err : jsval)
    (streams : list (string * handle)) (snapshotMap : jsval) (ag : Agent) :
  closed ag = false ->
  truthy err = false ->
  (exists props, snapshotMap = JObj props) ->
  inherited (to_key collection) = false ->
  Forall (fun e => inherited (fst e) = false) streams ->
  NoDup (map fst streams) ->
  let r := step H (Answer (KBulkEach b collection)
                          (AnsSubscribeBulk err streams snapshotMap)) ag in
  outcome_of r = Normal tt
  /\ closed (agent_of r) = false
  /\ (forall id s, In (id, s) streams ->
                   lookup_doc (agent_of r) (to_key collection) id = Some s)
  /\ (forall c d, c <> to_key collection \/ ~ In d (map fst streams) ->
                  lookup_doc (agent_of r) c d = lookup_doc ag c d)
  /\ (forall h, destroyed h (effects_of r) ->
                exists id, In id (map fst streams)
                           /\ lookup_doc ag (to_key collection) id = Some h)
  /\ (forall bk, bulks ag !! b = Some bk ->
                 exists bk',
                   bulks (agent_of r) !! b = Some bk'
                   /\ bk_response bk'
                      = set_prop (bk_response bk) (to_key collection)
                                 (thumbs_up streams snapshotMap)).
Proof.
  intros Hc Herr [props Hobj] Hcol Hids Hnd r.
  assert (Hsm : nullish snapshotMap = false) by (rewrite Hobj; reflexivity).
  clear props Hobj.
  assert (Hkey : to_key collection <> "__proto__")
    by (intros E; rewrite E in Hcol; discriminate Hcol).
  subst r. simpl. unfold onSubscribeBulk. rewrite Herr.
  pose proof (install_streams_open collection streams Hcol Hids Hnd ag Hc) as Hi.
  cbv zeta in Hi.
  rewrite <- (bulk_loop_is_install_all collection snapshotMap streams Hsm ag) in Hi.
  destruct (for_each streams _ ag) as [[o1 ag1] t1] eqn:Hloop.
  unfold outcome_of, agent_of, effects_of in Hi. simpl in Hi.
  destruct Hi as (-> & Hcl & Hq & Hb & Hreg & Hsame & Hdes).
  erewrite bind_normal by exact Hloop.
  rewrite ?effects_of_triple, ?agent_of_triple.
  pose proof (bulk_report_tail b collection streams snapshotMap ag1) as Ht.
  cbv zeta in Ht. destruct Ht as (Ho & Hd & _ & Hcl' & Heff).
  assert (Hl : forall c d, lookup_doc (agent_of ((modify (fun ag =>
              match bulks ag !! b with
              | None => ag
              | Some bk =>
                  set_bulks (<[b := mkBulk (bk_req bk)
                                      (assign (bk_response bk) (to_key collection)
                                              (thumbs_up streams snapshotMap))
                                      (bk_running bk) (bk_called bk)]> (bulks ag)) ag
              end) ;; eachCb b JUndef) ag1)) c d = lookup_doc ag1 c d).
  { intros c d. unfold lookup_doc. rewrite Hd. reflexivity. }
  split; [exact Ho |]. split; [congruence |].
  split; [intros id s Hin; rewrite Hl; apply Hreg, Hin |].
  split; [intros c d Hcd; rewrite Hl; apply Hsame, Hcd |].
  split.
  - intros h Hh. apply Hdes. apply in_app_or in Hh as [Hh | Hh]; [exact Hh |].
    destruct Heff as [He | (msg & _ & He)]; rewrite He in Hh; [destruct Hh |].
    destruct Hh as [Hh | []]. discriminate.
  - intros bk Hbk. rewrite <- Hb in Hbk.
    rewrite <- (assign_elsewhere (bk_response bk) (to_key collection)
                  (thumbs_up streams snapshotMap)) by exact Hkey.
    clear - Hbk.
    assert (Hlen : (b < length (bulks ag1))%nat) by (eapply lookup_lt_Some, Hbk).
    unfold eachCb. unfold_m. rewrite Hbk. cbn [bulks set_bulks].
    rewrite list_lookup_insert_eq by exact Hlen. cbn [bk_req bk_response bk_running bk_called].
    change (truthy JUndef) with false. cbn [orb].
    match goal with
    | |- context [if ?c then _ else _] => destruct c
    end.
    + unfold onBulkFinal. change (truthy JNull) with false. cbn iota.
      rewrite _reply_framed. unfold _send. unfold_m. cbn.
      destruct (closed ag1); cbn; eexists;
        (split; [apply list_lookup_insert_eq; rewrite length_insert; exact Hlen
                | reflexivity]).
    + cbn. eexists.
      split; [apply list_lookup_insert_eq; rewrite length_insert; exact Hlen
             | reflexivity].
Qed.

Lemma X20_witness :
  lookup_doc
    (agent_of (step example_host
                 (Answer (KBulkEach 0 (JStr "users"))
                         (AnsSubscribeBulk JNull [("fred", 1%nat); ("bob", 2%nat)] (JObj [])))
                 Ex.me))
    "users" "bob" = Some 2%nat.
Proof.
  assert (Hnd : NoDup (map fst [("fred", 1%nat); ("bob", 2%nat)])).
  { apply (bool_decide_unpack _). vm_compute. exact I. }
  destruct (X20_bulk_streams_are_registered example_host 0 (JStr "users") JNull
              [("fred", 1%nat); ("bob", 2%nat)] (JObj []) Ex.me
              eq_refl eq_refl (ex_intro _ [] eq_refl) eq_refl
              ltac:(repeat constructor) Hnd) as (_ & _ & Hreg & _).
  apply Hreg. right. left. reflexivity.
Defined.

Lemma index_same_assoc props props' k :
  assoc k props' = assoc k props -> index (JObj props') k = index (JObj props) k.
Proof. intros E. simpl. rewrite E. reflexivity. Qed.

(** The own entries of the snapshot map after the thumbs-up loop. *)
Lemma thumbs_up_entries streams : forall props,
  exists props',
    thumbs_up streams (JObj props) = JObj props'
    /\ forall k,
         (found_truthy (index (JObj props) k) = true \/ ~ In k (map fst streams) ->
          assoc k props' = assoc k props)
         /\ (In k (map fst streams) ->
             found_truthy (index (JObj props) k) = false ->
             assoc k props' = Some (JBool true)).
Proof.
  unfold thumbs_up.
  induction streams as [| [id s] rest IH]; intros props; cbn [fold_left map fst In].
  - exists props. split; [reflexivity |]. intros k. split; [reflexivity | intros []].
  - destruct (found_truthy (index (JObj props) id)) eqn:Hid.
    + destruct (IH props) as (props' & E & Hk). exists props'. split; [exact E |].
      intros k. destruct (Hk k) as [Hsame Hset]. split.
      * intros [Ht | Hn]; apply Hsame; [left; exact Ht | right; tauto].
      * intros [<- | Hin] Hf; [congruence | apply Hset; assumption].
    + cbn [set_prop].
      destruct (IH (assoc_set id (JBool true) props)) as (props' & E & Hk).
      exists props'. split; [exact E |].
      intros k. destruct (Hk k) as [Hsame Hset].
      destruct (String.eqb_spec id k) as [<- | Hne].
      * assert (Hown : assoc id props' = Some (JBool true)).
        { rewrite Hsame, assoc_set_same; [reflexivity |].
          left. simpl. rewrite assoc_set_same. reflexivity. }
        split; [intros [Ht | Hn]; [congruence | exfalso; apply Hn; left; reflexivity]
               | intros _ _; exact Hown].
      * assert (Hindex : index (JObj (assoc_set id (JBool true) props)) k
                         = index (JObj props) k)
          by (apply index_same_assoc, assoc_set_other, Hne).
        rewrite Hindex, assoc_set_other in Hsame by exact Hne.
        rewrite Hindex in Hset.
        split; [intros [Ht | Hn]; apply Hsame; [left; exact Ht | right; tauto] |].
        intros [E' | Hin] Hf; [contradiction | apply Hset; assumption].
Qed.

(** X21.  The thumbs up of bulk subscribe, in a snapshot map that is
    an object.  An entry of a document that was not subscribed stays as
    the Backend gave it, and so does an entry that reads truthy, as
    [snapshotMap[id]] is read through the prototype chain: an id that
    is the name of a member of [Object.prototype] reads truthy with no
    entry of its own, and gets none.  An id that was subscribed and
    reads falsy gets [true].  So every subscribed id reads truthy
    afterwards. *)
Theorem X21_thumbs_up (streams : list (string * handle)) (props : list (string * jsval))
    (k : string) :
  let before := JObj props in
  let after := thumbs_up streams before in
  (~ In k (map fst streams) -> get_prop after k = get_prop before k)
  /\ (found_truthy (index before k) = true ->
      get_prop after k = get_prop before k /\ has_prop after k = has_prop before k)
  /\ (In k (map fst streams) -> found_truthy (index before k) = false ->
      get_prop after k = JBool true)
  /\ (In k (map fst streams) -> found_truthy (index after k) = true).
Proof.
  cbv zeta. destruct (thumbs_up_entries streams props) as (props' & -> & Hk).
  destruct (Hk k) as [Hsame Hset]. cbn [get_prop has_prop].
  split; [intros Hn; rewrite Hsame by (right; exact Hn); reflexivity |].
  split; [intros Ht; rewrite Hsame by (left; exact Ht); split; reflexivity |].
  split; [intros Hin Hf; rewrite Hset by assumption; reflexivity |].
  intros Hin. destruct (found_truthy (index (JObj props) k)) eqn:Hb.
  - rewrite (index_same_assoc props props' k) by (apply Hsame; left; reflexivity).
    exact Hb.
  - simpl. rewrite (Hset Hin eq_refl). reflexivity.
Qed.

Lemma X21_witness :
  get_prop (thumbs_up [("fred", 1%nat); ("constructor", 2%nat)]
                      (JObj [("fred", JNull)])) "fred"
  = JBool true
  /\ has_prop (thumbs_up [("fred", 1%nat); ("constructor", 2%nat)]
                        (JObj [("fred", JNull)])) "constructor"
     = false.
Proof.
  split.
  - destruct (X21_thumbs_up [("fred", 1%nat); ("constructor", 2%nat)]
                [("fred", JNull)] "fred") as (_ & _ & Hset & _).
    apply Hset; [left; reflexivity | reflexivity].
  - destruct (X21_thumbs_up [("fred", 1%nat); ("constructor", 2%nat)]
                [("fred", JNull)] "constructor") as (_ & Hkeep & _).
    destruct (Hkeep eq_refl) as [_ Hhas]. rewrite Hhas. reflexivity.
Defined.

(** ** What the streams and emitters of the Backend deliver *)

(** X22.  Errors that arrive on a subscription are logged and never
    sent to the client: an item on a document's stream that carries a
    truthy [error] field is passed to [console.error] and dropped,
    whoever wrote it, and so is an error on a query's emitter.  The
    Agent does not change. *)
Theorem X22_subscription_errors_are_only_logged (H : host) (ag : Agent)
    (collection id data query err : jsval) :
  (nullish data = false ->
   truthy (get_prop data "error") = true ->
   step H (DocData collection id data) ag
   = (Normal tt, ag, [ConsoleError (get_prop data "error")]))
  /\ step H (QueryError collection query err) ag = (Normal tt, ag, [ConsoleError err]).
Proof.
  split; [| reflexivity].
  intros Hdata Herr. simpl. unfold onStreamData.
  erewrite bind_normal by (apply deref_ok; exact Hdata). rewrite Herr. reflexivity.
Qed.

Lemma lookup_map {A B : Type} (f : A -> B) (l : list A) (i : nat) :
  map f l !! i = f <$> l !! i.
Proof.
  revert i. induction l as [| x l IH]; intros [| i]; simpl; try reflexivity. apply IH.
Qed.

(** X23.  A query diff is sent to the client as [{a: 'q', id, diff}]
    with as many items as the Backend emitted.  An item that is not an
    insert goes out as it came.  In an insert only [values] changes:
    each result in it is translated to the wire form with [d], [v] and,
    always, [data] (there are no known versions here). *)
Theorem X23_diff_inserts_are_translated (H : host) (queryId : jsval) (diff : list jsval)
    (ag : Agent) :
  closed ag = false ->
  Forall diff_item diff ->
  exists sent,
    step H (QueryDiff queryId diff) ag
    = (Normal tt, ag,
       [Write (JObj [("a", JStr "q"); ("id", queryId); ("diff", JArr sent)])])
    /\ length sent = length diff
    /\ forall i item,
         diff !! i = Some item ->
         exists item',
           sent !! i = Some item'
           /\ (strict_eq (get_prop item "type") (JStr "insert") = false -> item' = item)
           /\ (forall k, k <> "values" -> get_prop item' k = get_prop item k)
           /\ (forall values,
                  strict_eq (get_prop item "type") (JStr "insert") = true ->
                  get_prop item "values" = JArr values ->
                  exists values',
                    get_prop item' "values" = JArr values'
                    /\ length values' = length values
                    /\ forall j result,
                         values !! j = Some result ->
                         exists value,
                           values' !! j = Some value
                           /\ get_prop value "d" = get_prop result "id"
                           /\ get_prop value "v" = get_prop result "v"
                           /\ has_prop value "data" = true
                           /\ get_prop value "data" = get_prop result "data").
Proof.
  intros Hc Hdiff. eexists. split; [| split].
  - simpl. unfold onDiff.
    erewrite bind_normal.
    2: { apply (for_each_pure_Forall diff deref (fun _ => [])).
         eapply Forall_impl; [exact Hdiff |].
         intros item [[props ->] _]. reflexivity. }
    rewrite _send_open by exact Hc.
    replace (flat_map (fun _ : jsval => []) diff) with (@nil effect)
      by (clear; induction diff; simpl; auto).
    reflexivity.
  - apply length_map.
  - intros i item Hi. rewrite lookup_map, Hi. eexists. split; [reflexivity |].
    rewrite Forall_forall in Hdiff.
    destruct (Hdiff item) as [[props ->] Hvalues];
      [eapply list_elem_of_lookup_2, Hi |].
    destruct (strict_eq (get_prop (JObj props) "type") (JStr "insert")) eqn:Hins.
    + split; [discriminate |]. split.
      * intros k Hk. cbn [set_prop get_prop]. rewrite assoc_set_other by congruence.
        reflexivity.
      * intros values _ Hv. rewrite Hv. eexists.
        split; [cbn [set_prop get_prop]; rewrite assoc_set_same; reflexivity |].
        unfold getResultsData, rows_of.
        split; [rewrite getResultsData_from_length; apply length_map |].
        intros j result Hj. eexists. split.
        { apply getResultsData_from_lookup. rewrite lookup_map, Hj. reflexivity. }
        match goal with
        | |- context [result_item ?vs ?prev ?r] =>
            destruct (result_item_fields vs prev r) as (Hd & Hv' & Hdata & Hdata' & _)
        end.
        assert (Hhas : has_prop (result_item JUndef
                                   (previous_type_from JNull (map row_of values) j)
                                   (row_of result)) "data" = true)
          by (apply Hdata; left; reflexivity).
        split; [exact Hd |]. split; [exact Hv' |]. split; [exact Hhas |].
        apply Hdata', Hhas.
    + split; [reflexivity |]. split; [reflexivity |]. discriminate.
Qed.

Lemma X23_witness :
  exists sent,
    effects_of (step example_host (QueryDiff (JNum 7) Ex.diff_insert_remove) Ex.me)
    = [Write (JObj [("a", JStr "q"); ("id", JNum 7); ("diff", JArr sent)])]
    /\ length sent = 2%nat.
Proof.
  assert (Hdiff : Forall diff_item Ex.diff_insert_remove).
  { repeat constructor.
    - eexists. reflexivity.
    - intros _. eexists. split; [reflexivity |]. repeat constructor.
    - eexists. reflexivity.
    - simpl. discriminate. }
  destruct (X23_diff_inserts_are_translated example_host (JNum 7) Ex.diff_insert_remove
              Ex.me eq_refl Hdiff) as (sent & Hstep & Hlen & _).
  exists sent. rewrite Hstep. split; [reflexivity | exact Hlen].
Defined.

(** ** Submit, and the query requests, from request to reply *)

(** X24.  A valid [op] request with a truthy [op], [create] or [del]
    on an open Agent calls [Backend.submit] with the op [_createOp]
    made, and writes nothing.  When the Backend calls back, the
    acknowledgement [{src, seq, v}] is read from the op as the Backend
    has left it.  On an error of code 4001 the acknowledgement alone is
    the reply; on any other error the error is; on success the ops the
    client missed are written first, all of them, then the
    acknowledgement. *)
Theorem X24_submit_round_trip (H : host) (req : jsval) (ag : Agent) :
  closed ag = false ->
  is_action req "op" = true ->
  _checkRequest req = JUndef ->
  truthy (get_prop req "op") = true \/ truthy (get_prop req "create") = true
  \/ truthy (get_prop req "del") = true ->
  let c := get_prop req "c" in
  let d := get_prop req "d" in
  let op := _createOp ag req in
  step H (Readable req) ag
  = (Normal tt, ag, [Backend (CallSubmit c d op) (KSubmit req op); NextTick KPump])
  /\ forall ag' err ops op_now,
       closed ag' = false ->
       nullish op_now = false ->
       Forall (fun o => nullish o = false) ops ->
       let ack := framed req (JObj [("src", get_prop op_now "src");
                                    ("seq", get_prop op_now "seq");
                                    ("v", get_prop op_now "v")]) in
       step H (Answer (KSubmit req op) (AnsSubmit err ops op_now)) ag'
       = (Normal tt, ag',
          if truthy err then
            if strict_eq (get_prop err "code") (JNum 4001) then [Write ack]
            else [Write (error_reply req err)]
          else map (fun o => Write (op_push c d o)) ops ++ [Write ack]).
Proof.
  intros Hc Ha Hcheck Hsome c d op.
  assert (Hop : nullish op = false).
  { subst op. unfold _createOp.
    destruct (truthy (get_prop req "op")); [reflexivity |].
    destruct (truthy (get_prop req "create")); [reflexivity |].
    destruct (truthy (get_prop req "del")); [reflexivity |].
    destruct Hsome as [? | [? | ?]]; discriminate. }
  split.
  - rewrite (step_valid_request H req "op" _submit) by (assumption || reflexivity).
    erewrite bind_normal.
    2: { unfold _submit. erewrite bind_pure by reflexivity. reflexivity. }
    reflexivity.
  - intros ag' err ops op_now Hc' Hnow Hops ack. simpl. rewrite Hop.
    apply onSubmit_with_op; assumption.
Qed.

Lemma X24_witness :
  step example_host
    (Answer (KSubmit Ex.op_edit Ex.my_op)
            (AnsSubmit (JObj [("code", JNum 4001)]) [] Ex.my_op))
    Ex.me
  = (Normal tt, Ex.me,
     [Write (JObj [("src", JStr "me"); ("seq", JNum 1); ("v", JNum 5); ("a", JStr "op");
                   ("c", JStr "users"); ("d", JStr "fred")])]).
Proof.
  destruct (X24_submit_round_trip example_host Ex.op_edit Ex.me eq_refl eq_refl eq_refl)
    as [_ Hback].
  - left. reflexivity.
  - apply (Hback Ex.me (JObj [("code", JNum 4001)]) [] Ex.my_op eq_refl eq_refl).
    constructor.
Defined.

(** X25.  A valid [qsub] request on an open Agent calls
    [Backend.querySubscribe] with the options [{versions: req.vs,
    db: req.db}] and writes nothing.  On an error the error reply is
    all that happens.  On success the emitter is registered under the
    query id, after the emitter registered there before (if any) was
    destroyed; when the client sent no versions, the reply
    [{id, data, extra}] follows at once, with every result's data. *)
Theorem X25_query_subscribe_round_trip (H : host) (req : jsval) (ag : Agent) :
  closed ag = false ->
  is_action req "qsub" = true ->
  is_typeof (get_prop req "id") "number" = true ->
  let id := get_prop req "id" in
  let options := getQueryOptions req in
  step H (Readable req) ag
  = (Normal tt, ag,
     [Backend (CallQuerySubscribe (get_prop req "c") (get_prop req "q") options)
              (KQuerySubscribe req options);
      NextTick KPump])
  /\ (forall ag' err em results extra,
         closed ag' = false ->
         truthy err = true ->
         step H (Answer (KQuerySubscribe req options)
                        (AnsQuerySubscribe err em results extra)) ag'
         = (Normal tt, ag', [Write (error_reply req err)]))
  /\ (forall ag' err em results extra,
         closed ag' = false ->
         truthy err = false ->
         truthy (get_prop req "vs") = false ->
         step H (Answer (KQuerySubscribe req options)
                        (AnsQuerySubscribe err em results extra)) ag'
         = (Normal tt,
            set_subscribedQueries (<[to_key id := em]> (subscribedQueries ag')) ag',
            match subscribedQueries ag' !! to_key id with
            | Some previous => [DestroyEmitter (em_handle previous)]
            | None => []
            end
            ++ [Write (framed req (query_reply id results (get_prop req "vs") extra))])).
Proof.
  intros Hc Ha Hid id options.
  assert (Hcheck : _checkRequest req = JUndef)
    by (apply (query_request_valid req "qsub"); simpl; auto).
  split; [| split].
  - rewrite (step_valid_request H req "qsub" _querySubscribe)
      by (assumption || reflexivity).
    reflexivity.
  - intros ag' err em results extra Hc' Herr. simpl. unfold onQuerySubscribe.
    rewrite Herr. rewrite _reply_open by exact Hc'. rewrite Herr. reflexivity.
  - intros ag' err em results extra Hc' Herr Hvs. simpl. unfold onQuerySubscribe.
    rewrite Herr. fold id.
    assert (Hq : _subscribeToQuery em id (get_prop req "c") (get_prop req "q") ag'
                 = (Normal tt,
                    set_subscribedQueries (<[to_key id := em]> (subscribedQueries ag')) ag',
                    match subscribedQueries ag' !! to_key id with
                    | Some previous => [DestroyEmitter (em_handle previous)]
                    | None => []
                    end)).
    { unfold _subscribeToQuery. unfold_m. rewrite Hc'.
      destruct (subscribedQueries ag' !! to_key id); reflexivity. }
    erewrite bind_normal by exact Hq.
    unfold _sendQueryResults, getResultsOpsRequest.
    change (get_prop options "versions") with (get_prop req "vs").
    rewrite Hvs. cbn [negb truthy].
    rewrite _reply_open by exact Hc'. reflexivity.
Qed.

Lemma X25_witness :
  subscribedQueries
    (agent_of (step example_host
                 (Answer (KQuerySubscribe Ex.qsub7 (getQueryOptions Ex.qsub7))
                         (AnsQuerySubscribe JNull Ex.emitter7 [] JNull))
                 Ex.me)) !! "7"
  = Some Ex.emitter7.
Proof.
  destruct (X25_query_subscribe_round_trip example_host Ex.qsub7 Ex.me
              eq_refl eq_refl eq_refl) as (_ & _ & Hok).
  rewrite (Hok Ex.me JNull Ex.emitter7 [] JNull eq_refl eq_refl eq_refl).
  reflexivity.
Defined.

(** X26.  A valid [qresub] request for a query the Agent has an
    emitter for calls [Backend.queryResubscribe] with the request's
    query and with the index and options of that emitter, not of the
    request.  An error is replied at once; success is acknowledged
    with the bare framing on the next tick.  The emitter stays
    registered throughout. *)
Theorem X26_query_resubscribe_round_trip (H : host) (req : jsval) (em : emitter)
    (ag : Agent) :
  closed ag = false ->
  is_action req "qresub" = true ->
  is_typeof (get_prop req "id") "number" = true ->
  subscribedQueries ag !! to_key (get_prop req "id") = Some em ->
  step H (Readable req) ag
  = (Normal tt, ag,
     [Backend (CallQueryResubscribe (em_index em) (get_prop req "q") em (em_options em))
              (KQueryResubscribe req);
      NextTick KPump])
  /\ (forall err,
         step H (Answer (KQueryResubscribe req) (AnsQueryResubscribe err)) ag
         = (Normal tt, ag,
            if truthy err then [Write (error_reply req err)]
            else [NextTick (KReply req)]))
  /\ step H (TickReply req) ag = (Normal tt, ag, [Write (framed req (JObj []))]).
Proof.
  intros Hc Ha Hid Hem.
  assert (Hcheck : _checkRequest req = JUndef)
    by (apply (query_request_valid req "qresub"); simpl; auto).
  split; [| split].
  - rewrite (step_valid_request H req "qresub" _queryResubscribe)
      by (assumption || reflexivity).
    unfold _queryResubscribe. erewrite bind_normal.
    2: { erewrite bind_pure by reflexivity. rewrite Hem. reflexivity. }
    reflexivity.
  - intros err. simpl. unfold onQueryResubscribe.
    destruct (truthy err) eqn:Herr; [| reflexivity].
    rewrite _reply_open by exact Hc. rewrite Herr. reflexivity.
  - apply tick_reply, Hc.
Qed.

Lemma X26_witness :
  effects_of (step example_host (Readable Ex.qresub7) Ex.subscribed)
  = [Backend (CallQueryResubscribe (JStr "users") (JObj []) Ex.emitter7
                                   (getQueryOptions Ex.qsub7))
             (KQueryResubscribe Ex.qresub7);
     NextTick KPump].
Proof.
  destruct (X26_query_resubscribe_round_trip example_host Ex.qresub7 Ex.emitter7
              Ex.subscribed eq_refl eq_refl eq_refl) as (Hcall & _).
  - vm_compute. reflexivity.
  - rewrite Hcall. reflexivity.
Defined.

(** X27.  A valid [qfetch] request on an open Agent calls
    [Backend.queryFetch] with the same options as a subscribe would.
    Whatever comes back, no emitter or stream is registered or
    destroyed: the Agent is as it was.  An error is replied as such,
    and results for a client that sent no versions are replied at once
    as [{id, data, extra}]. *)
Theorem X27_query_fetch_round_trip (H : host) (req : jsval) (ag : Agent) :
  closed ag = false ->
  is_action req "qfetch" = true ->
  is_typeof (get_prop req "id") "number" = true ->
  let options := getQueryOptions req in
  step H (Readable req) ag
  = (Normal tt, ag,
     [Backend (CallQueryFetch (get_prop req "c") (get_prop req "q") options)
              (KQueryFetch req options);
      NextTick KPump])
  /\ (forall ag' err results extra,
         let r := step H (Answer (KQueryFetch req options)
                                 (AnsQueryFetch err results extra)) ag' in
         outcome_of r = Normal tt /\ agent_of r = ag'
         /\ forall e, In e (effects_of r) ->
                      (exists msg, e = Write msg)
                      \/ (exists request k, e = Backend (CallGetOpsBulk (get_prop req "c")
                                                                        request) k))
  /\ (forall ag' err results extra,
         closed ag' = false ->
         effects_of (step H (Answer (KQueryFetch req options)
                                    (AnsQueryFetch err results extra)) ag')
         = if truthy err then [Write (error_reply req err)]
           else if truthy (get_prop req "vs")
                then effects_of (_sendQueryResults H req (get_prop req "id")
                                   (get_prop req "c") options results extra ag')
                else [Write (framed req (query_reply (get_prop req "id") results
                                           (get_prop req "vs") extra))]).
Proof.
  intros Hc Ha Hid options.
  assert (Hcheck : _checkRequest req = JUndef)
    by (apply (query_request_valid req "qfetch"); simpl; auto).
  split; [| split].
  - rewrite (step_valid_request H req "qfetch" _queryFetch) by (assumption || reflexivity).
    reflexivity.
  - intros ag' err results extra r. subst r. simpl. unfold onQueryFetch, _sendQueryResults.
    destruct (truthy err); [| destruct (negb (truthy _))];
      rewrite ?_reply_framed; unfold _send; unfold_m;
      try (destruct (closed ag')); cbn;
      (split; [reflexivity |]); (split; [reflexivity |]);
      intros x Hx; (destruct Hx as [<- | []] || destruct Hx); eauto.
  - intros ag' err results extra Hc'. simpl. unfold onQueryFetch.
    destruct (truthy err) eqn:Herr.
    + rewrite _reply_open by exact Hc'. rewrite Herr. reflexivity.
    + destruct (truthy (get_prop req "vs")) eqn:Hvs; [reflexivity |].
      unfold _sendQueryResults, getResultsOpsRequest.
      change (get_prop options "versions") with (get_prop req "vs").
      rewrite Hvs. cbn [negb truthy].
      rewrite _reply_open by exact Hc'. reflexivity.
Qed.

Lemma X27_witness :
  step example_host (Readable Ex.qfetch7) Ex.me
  = (Normal tt, Ex.me,
     [Backend (CallQueryFetch (JStr "users") (JObj []) (getQueryOptions Ex.qfetch7))
              (KQueryFetch Ex.qfetch7 (getQueryOptions Ex.qfetch7));
      NextTick KPump]).
Proof.
  destruct (X27_query_fetch_round_trip example_host Ex.qfetch7 Ex.me
              eq_refl eq_refl eq_refl) as (Hcall & _).
  exact Hcall.
Defined.
